(** * Gemstone process supervisor: the engine, embedded and verified

    A shallow embedding of the supervisor engine of PrismManager/Gemstone:
    - [internal/types]    : statuses, process info, samples, requests;
    - [internal/config]   : the persisted process definition;
    - [internal/logger]   : [ProcessLogger] (Log, GetLogs), [readLastLines];
    - [internal/process]  : [Process] (Start, Stop, Restart, waitForExit,
                            Info, Stats, CollectStats, GetStatsHistory,
                            ToConfig) and [Manager] (every method);
    - [internal/stats]    : [Collector] (Start, Stop, collect,
                            GetSystemStatsHistory);
    - [internal/api]      : the handlers of the process and history routes.

    Go values are modelled as follows.  [int] is a 64-bit integer kept in
    [Z] with its wrap-around written out ([int_wrap]).  [float64] is the
    primitive binary64 [float].  Strings are [string]; Go maps are [gmap];
    slices are [list].  Whatever the operating system, the clock or the Go
    runtime decides (results of exec, of user lookup, of the resource probe,
    the order in which [range] visits a map, what other goroutines do while
    one sleeps) is an explicit argument of the function that consults it. *)

From Stdlib Require Import ZArith Lia Ascii.
From Stdlib Require Import Floats.PrimFloat.
From stdpp Require Import gmap strings list fin_maps.

Local Open Scope Z_scope.
Local Open Scope string_scope.
Local Open Scope list_scope.

(** ** Machine integers *)

Definition int_min : Z := - 2 ^ 63.
Definition int_max : Z := 2 ^ 63 - 1.

(** Two's complement wrap-around of Go's 64-bit [int]. *)
Definition int_wrap (z : Z) : Z := (z + 2 ^ 63) mod 2 ^ 64 - 2 ^ 63.

Definition is_int (z : Z) : Prop := int_min <= z <= int_max.

(** [time.Time], as nanoseconds since the epoch. *)
Definition Time : Type := Z.

(** ** package types *)

Inductive ProcessStatus : Type :=
| StatusStopped
| StatusRunning
| StatusStarting
| StatusStopping
| StatusErrored
| StatusRestarting.

Global Instance ProcessStatus_eq_dec : EqDecision ProcessStatus.
Proof. solve_decision. Defined.

Module ProcessInfo.
Record t : Type := mk {
  ID : string;
  Name : string;
  Status : ProcessStatus;
  PID : Z;
  Command : string;
  Args : list string;
  WorkDir : string;
  Env : gmap string string;
  AutoStart : bool;
  AutoRestart : bool;
  MaxRestarts : Z;
  RestartCount : Z;
  User : string;
  Group : string;
  CreatedAt : Time;
  StartedAt : option Time;
  StoppedAt : option Time;
  Uptime : Z;
  CPU : float;
  Memory : Z;
  MemoryPercent : float
}.

Definition set_ID (v : string) (i : t) : t :=
  mk v (Name i) (Status i) (PID i) (Command i) (Args i) (WorkDir i) (Env i)
     (AutoStart i) (AutoRestart i) (MaxRestarts i) (RestartCount i) (User i)
     (Group i) (CreatedAt i) (StartedAt i) (StoppedAt i) (Uptime i) (CPU i)
     (Memory i) (MemoryPercent i).
Definition set_Status (v : ProcessStatus) (i : t) : t :=
  mk (ID i) (Name i) v (PID i) (Command i) (Args i) (WorkDir i) (Env i)
     (AutoStart i) (AutoRestart i) (MaxRestarts i) (RestartCount i) (User i)
     (Group i) (CreatedAt i) (StartedAt i) (StoppedAt i) (Uptime i) (CPU i)
     (Memory i) (MemoryPercent i).
Definition set_PID (v : Z) (i : t) : t :=
  mk (ID i) (Name i) (Status i) v (Command i) (Args i) (WorkDir i) (Env i)
     (AutoStart i) (AutoRestart i) (MaxRestarts i) (RestartCount i) (User i)
     (Group i) (CreatedAt i) (StartedAt i) (StoppedAt i) (Uptime i) (CPU i)
     (Memory i) (MemoryPercent i).
Definition set_RestartCount (v : Z) (i : t) : t :=
  mk (ID i) (Name i) (Status i) (PID i) (Command i) (Args i) (WorkDir i) (Env i)
     (AutoStart i) (AutoRestart i) (MaxRestarts i) v (User i)
     (Group i) (CreatedAt i) (StartedAt i) (StoppedAt i) (Uptime i) (CPU i)
     (Memory i) (MemoryPercent i).
Definition set_StartedAt (v : option Time) (i : t) : t :=
  mk (ID i) (Name i) (Status i) (PID i) (Command i) (Args i) (WorkDir i) (Env i)
     (AutoStart i) (AutoRestart i) (MaxRestarts i) (RestartCount i) (User i)
     (Group i) (CreatedAt i) v (StoppedAt i) (Uptime i) (CPU i)
     (Memory i) (MemoryPercent i).
Definition set_StoppedAt (v : option Time) (i : t) : t :=
  mk (ID i) (Name i) (Status i) (PID i) (Command i) (Args i) (WorkDir i) (Env i)
     (AutoStart i) (AutoRestart i) (MaxRestarts i) (RestartCount i) (User i)
     (Group i) (CreatedAt i) (StartedAt i) v (Uptime i) (CPU i)
     (Memory i) (MemoryPercent i).
Definition set_Uptime (v : Z) (i : t) : t :=
  mk (ID i) (Name i) (Status i) (PID i) (Command i) (Args i) (WorkDir i) (Env i)
     (AutoStart i) (AutoRestart i) (MaxRestarts i) (RestartCount i) (User i)
     (Group i) (CreatedAt i) (StartedAt i) (StoppedAt i) v (CPU i)
     (Memory i) (MemoryPercent i).
Definition set_CPU (v : float) (i : t) : t :=
  mk (ID i) (Name i) (Status i) (PID i) (Command i) (Args i) (WorkDir i) (Env i)
     (AutoStart i) (AutoRestart i) (MaxRestarts i) (RestartCount i) (User i)
     (Group i) (CreatedAt i) (StartedAt i) (StoppedAt i) (Uptime i) v
     (Memory i) (MemoryPercent i).
Definition set_Memory (v : Z) (i : t) : t :=
  mk (ID i) (Name i) (Status i) (PID i) (Command i) (Args i) (WorkDir i) (Env i)
     (AutoStart i) (AutoRestart i) (MaxRestarts i) (RestartCount i) (User i)
     (Group i) (CreatedAt i) (StartedAt i) (StoppedAt i) (Uptime i) (CPU i)
     v (MemoryPercent i).
Definition set_MemoryPercent (v : float) (i : t) : t :=
  mk (ID i) (Name i) (Status i) (PID i) (Command i) (Args i) (WorkDir i) (Env i)
     (AutoStart i) (AutoRestart i) (MaxRestarts i) (RestartCount i) (User i)
     (Group i) (CreatedAt i) (StartedAt i) (StoppedAt i) (Uptime i) (CPU i)
     (Memory i) v.
End ProcessInfo.

Module ProcessStats.
Record t : Type := mk {
  ID : string;
  PID : Z;
  CPU : float;
  Memory : Z;
  MemoryPercent : float;
  NumThreads : Z;
  NumFDs : Z;
  ReadBytes : Z;
  WriteBytes : Z;
  Timestamp : Time
}.
End ProcessStats.

Module SystemStats.
Record t : Type := mk {
  CPUPercent : float;
  MemoryTotal : Z;
  MemoryUsed : Z;
  MemoryPercent : float;
  DiskTotal : Z;
  DiskUsed : Z;
  DiskPercent : float;
  LoadAverage : list float;
  Uptime : Z;
  Timestamp : Time
}.
End SystemStats.

Module StartRequest.
Record t : Type := mk {
  Name : string;
  Command : string;
  Args : list string;
  WorkDir : string;
  Env : gmap string string;
  AutoStart : bool;
  AutoRestart : bool;
  MaxRestarts : Z;
  User : string;
  Group : string
}.
End StartRequest.

(** ** package config *)

Module ConfigProcess.
Record t : Type := mk {
  ID : string;
  Name : string;
  Command : string;
  Args : list string;
  WorkDir : string;
  Env : gmap string string;
  AutoStart : bool;
  AutoRestart : bool;
  MaxRestarts : Z;
  User : string;
  Group : string
}.
End ConfigProcess.

(** ** Errors

    The Go code builds its errors with [fmt.Errorf]; each constructor below
    is one of those call sites, carrying what the message interpolates.
    [OSError] is an error handed back by the operating system or a library. *)

Inductive error : Type :=
| OSError (msg : string)
| ErrAlreadyRunning (name : string)     (* "process %s is already running" *)
| ErrNotRunning (name : string)         (* "process %s is not running" *)
| ErrUserCredentials (cause : error)    (* "failed to get user credentials: %w" *)
| ErrStdoutPipe (cause : error)         (* "failed to create stdout pipe: %w" *)
| ErrStderrPipe (cause : error)         (* "failed to create stderr pipe: %w" *)
| ErrStartProcess (cause : error)       (* "failed to start process: %w" *)
| ErrCreateLogger (cause : error)       (* "failed to create logger: %w" *)
| ErrNameExists (name : string)         (* "process with name %s already exists" *)
| ErrNotFound (ref : string)            (* "process %s not found" *)
| ErrCreateDirectory (dir : string) (cause : error)  (* "failed to create directory %s: %w" *)
| ErrLoadProcesses (cause : error)      (* "failed to load processes: %w" *)
| PanicSliceBounds                      (* runtime panic: slice bounds out of range *)
| PanicNilDereference.                  (* runtime panic: nil pointer dereference *)

(** The spec's error taxonomy, as far as the statements below need it. *)
Definition is_InvalidState (e : error) : Prop :=
  match e with
  | ErrAlreadyRunning _ | ErrNotRunning _ => True
  | _ => False
  end.

Definition is_NameConflict (e : error) : Prop :=
  match e with ErrNameExists _ => True | _ => False end.

(** ** package logger *)

Module ProcessLogger.
(** The three [*os.File] write handles of the Go struct are not kept: the
    files are addressed by path below, as [GetLogs] does. *)
Record t : Type := mk {
  id : string;
  name : string;
  logDir : string
}.
End ProcessLogger.

(** What [os.Open] followed by a [bufio.Scanner] loop finds at a path.  A
    path absent from the map does not exist.  [Readable ls e] is a file
    whose scanner yields the lines [ls] and then stops, with [scanner.Err()]
    returning [e]. *)
Inductive File : Type :=
| Unreadable (e : error)
| Readable (lines : list string) (scan_err : option error).

Definition len {A : Type} (l : list A) : Z := Z.of_nat (length l).

(** The slice expression [s[lo:]]; [None] is the runtime panic. *)
Definition slice_from {A : Type} (lo : Z) (s : list A) : option (list A) :=
  if decide (0 <= lo <= len s) then Some (drop (Z.to_nat lo) s) else None.

Section Logger.
(** [filepath.Join] *)
Variable Join : string -> string -> string.

Definition readLastLines (fs : gmap string File) (path : string) (n : Z)
  : error + list string :=
  match fs !! path with
  | None => inr []
  | Some (Unreadable e) => inl e
  | Some (Readable lines (Some e)) => inl e
  | Some (Readable lines None) =>
      if decide (n <= 0 \/ n >= len lines) then inr lines
      else match slice_from (len lines - n) lines with
           | Some tl => inr tl
           | None => inl PanicSliceBounds
           end
  end.

(** The [switch logType] of [GetLogs]. *)
Definition logFile (l : ProcessLogger.t) (logType : string) : string :=
  if decide (logType = "stdout") then
    Join (ProcessLogger.logDir l) "stdout.log"
  else if decide (logType = "stderr") then
    Join (ProcessLogger.logDir l) "stderr.log"
  else
    Join (ProcessLogger.logDir l) "combined.log".

Definition GetLogs (fs : gmap string File) (l : ProcessLogger.t)
    (lines : Z) (logType : string) : error + list string :=
  readLastLines fs (logFile l logType) lines.
End Logger.

(** ** package process: the managed process *)

Inductive Signal : Type := SIGTERM | SIGKILL.

Record Credential : Type := mkCredential { Uid : Z; Gid : Z }.

(** [syscall.SysProcAttr], the two fields the code sets. *)
Record SysProcAttr : Type := mkSysProcAttr {
  attr_Credential : option Credential;
  Setpgid : bool
}.

(** [exec.Cmd] as [Start] fills it in.  [cmd_Name] is the name handed to
    [exec.CommandContext]: [cmd.Path] is what [exec.LookPath] makes of it
    when it holds no path separator.  [cmd_Pid] is [cmd.Process.Pid]. *)
Record Cmd : Type := mkCmd {
  cmd_Name : string;
  cmd_Args : list string;
  cmd_Dir : string;
  cmd_Env : list string;
  cmd_SysProcAttr : SysProcAttr;
  cmd_Pid : Z
}.

Inductive Goroutine : Type :=
| GoCaptureOutput (outputType : string)
| GoWaitForExit
| GoKillAfter5s (pid : Z).

(** What a method does to the world outside the [Process] struct. *)
Inductive Event : Type :=
| EvCancel                          (* p.cancel(): the context the command was made
                                       with is cancelled, on which os/exec kills
                                       the child itself (SIGKILL to its pid) *)
| EvExec (c : Cmd)                  (* cmd.Start() launched a child *)
| EvKill (target : Z) (sig : Signal)  (* syscall.Kill(target, sig) *)
| EvGo (g : Goroutine)              (* go ... *)
| EvSleep (ms : Z)                  (* time.Sleep *)
| EvLog (logType msg : string)      (* p.logger.Log *)
| EvCloseLogs (dir : string)        (* p.logger.Close() *)
| EvPrint (msg : string).           (* fmt.Printf *)

Module Process.
Record t : Type := mk {
  info : ProcessInfo.t;
  cmd : option Cmd;
  cancel : bool;                  (* p.cancel != nil *)
  logger : ProcessLogger.t;
  statsHistory : list ProcessStats.t;
  maxHistory : Z
}.

Definition set_info (v : ProcessInfo.t) (p : t) : t :=
  mk v (cmd p) (cancel p) (logger p) (statsHistory p) (maxHistory p).
Definition set_cmd (v : option Cmd) (p : t) : t :=
  mk (info p) v (cancel p) (logger p) (statsHistory p) (maxHistory p).
Definition set_cancel (v : bool) (p : t) : t :=
  mk (info p) (cmd p) v (logger p) (statsHistory p) (maxHistory p).
Definition set_statsHistory (v : list ProcessStats.t) (p : t) : t :=
  mk (info p) (cmd p) (cancel p) (logger p) v (maxHistory p).

Definition upd_info (f : ProcessInfo.t -> ProcessInfo.t) (p : t) : t :=
  set_info (f (info p)) p.

Definition Status (p : t) : ProcessStatus := ProcessInfo.Status (info p).
Definition Name (p : t) : string := ProcessInfo.Name (info p).
Definition ID (p : t) : string := ProcessInfo.ID (info p).
Definition ShouldAutoStart (p : t) : bool := ProcessInfo.AutoStart (info p).
End Process.

(** *** A monad for the methods of [*Process]

    A method runs on the struct behind the pointer, may return early with an
    error, and leaves a trace of what it did to the outside world. *)

Record Res (A : Type) : Type := mkRes {
  result : error + A;
  state : Process.t;
  events : list Event
}.
Arguments mkRes {A} _ _ _.
Arguments result {A} _.
Arguments state {A} _.
Arguments events {A} _.

Definition M (A : Type) : Type := Process.t -> Res A.

Definition ret {A : Type} (a : A) : M A := fun p => mkRes (inr a) p [].

Definition throw {A : Type} (e : error) : M A := fun p => mkRes (inl e) p [].

Definition bind {A B : Type} (m : M A) (k : A -> M B) : M B :=
  fun p =>
    let r := m p in
    match result r with
    | inl e => mkRes (inl e) (state r) (events r)
    | inr a =>
        let r' := k a (state r) in
        mkRes (result r') (state r') (events r ++ events r')
    end.

Definition get : M Process.t := fun p => mkRes (inr p) p [].
Definition modify (f : Process.t -> Process.t) : M unit :=
  fun p => mkRes (inr tt) (f p) [].
Definition emit (e : Event) : M unit := fun p => mkRes (inr tt) p [e].

(** [_ = m]: run [m] and drop the error it returns. *)
Definition discard {A : Type} (m : M A) : M unit :=
  fun p => let r := m p in mkRes (inr tt) (state r) (events r).

Notation "'let*' x ':=' m 'in' k" := (bind m (fun x => k))
  (at level 10, x name, m at level 100, k at level 200).
Notation "m1 '>>' m2" := (bind m1 (fun _ => m2))
  (at level 100, m2 at level 200, right associativity).

Definition set_status (s : ProcessStatus) : M unit :=
  modify (Process.upd_info (ProcessInfo.set_Status s)).

(** *** What the operating system answers *)

Record OSUser : Type := mkOSUser { user_Uid : string; user_Gid : string }.

Record UserDB : Type := mkUserDB {
  user_Lookup : string -> error + OSUser;
  user_LookupGroup : string -> error + string;   (* the group's Gid *)
  strconv_ParseUint : string -> error + Z        (* base 10, 32 bits *)
}.

Definition getUserCredentials (db : UserDB) (username groupname : string)
  : error + Credential :=
  match user_Lookup db username with
  | inl e => inl e
  | inr u =>
      match strconv_ParseUint db (user_Uid u) with
      | inl e => inl e
      | inr uid =>
          match strconv_ParseUint db (user_Gid u) with
          | inl e => inl e
          | inr gid =>
              if decide (groupname <> "") then
                match user_LookupGroup db groupname with
                | inl e => inl e
                | inr g =>
                    match strconv_ParseUint db g with
                    | inl e => inl e
                    | inr gid' => inr (mkCredential uid gid')
                    end
                end
              else inr (mkCredential uid gid)
          end
      end
  end.

(** Everything one call of [Process.Start] asks of its environment. *)
Record StartOS : Type := mkStartOS {
  os_now : Time;                     (* time.Now() *)
  os_Environ : list string;          (* os.Environ() *)
  os_users : UserDB;
  os_StdoutPipe : option error;      (* cmd.StdoutPipe() *)
  os_StderrPipe : option error;      (* cmd.StderrPipe() *)
  os_cmdStart : error + Z            (* cmd.Start(): the child's pid *)
}.

(** *** Process.Start *)

Definition Process_Start (os : StartOS) : M unit :=
  let* p := get in
  let i := Process.info p in
  if decide (ProcessInfo.Status i = StatusRunning) then
    throw (ErrAlreadyRunning (ProcessInfo.Name i))
  else
    set_status StatusStarting >>
    modify (Process.set_cancel true) >>
    let dir := if decide (ProcessInfo.WorkDir i <> "")
               then ProcessInfo.WorkDir i else "" in
    (* range over the Env map: the order of the entries is the runtime's *)
    let env := os_Environ os ++
               ((fun kv => fst kv +:+ "=" +:+ snd kv) <$> map_to_list (ProcessInfo.Env i)) in
    let* attr :=
      (if decide (ProcessInfo.User i <> "") then
         match getUserCredentials (os_users os) (ProcessInfo.User i) (ProcessInfo.Group i) with
         | inl e => set_status StatusErrored >> throw (ErrUserCredentials e)
         | inr cred => ret (mkSysProcAttr (Some cred) true)
         end
       else ret (mkSysProcAttr None true)) in
    let* _ :=
      (match os_StdoutPipe os with
       | Some e => set_status StatusErrored >> throw (ErrStdoutPipe e)
       | None => ret tt
       end) in
    let* _ :=
      (match os_StderrPipe os with
       | Some e => set_status StatusErrored >> throw (ErrStderrPipe e)
       | None => ret tt
       end) in
    match os_cmdStart os with
    | inl e => set_status StatusErrored >> throw (ErrStartProcess e)
    | inr pid =>
        let c := mkCmd (ProcessInfo.Command i)
                       (ProcessInfo.Command i :: ProcessInfo.Args i)
                       dir env attr pid in
        emit (EvExec c) >>
        modify (Process.set_cmd (Some c)) >>
        modify (Process.upd_info (ProcessInfo.set_PID pid)) >>
        set_status StatusRunning >>
        modify (Process.upd_info (ProcessInfo.set_StartedAt (Some (os_now os)))) >>
        modify (Process.upd_info (ProcessInfo.set_StoppedAt None)) >>
        emit (EvGo (GoCaptureOutput "stdout")) >>
        emit (EvGo (GoCaptureOutput "stderr")) >>
        emit (EvGo GoWaitForExit)
    end.

(** *** Process.Stop *)

Definition Process_Stop : M unit :=
  let* p := get in
  if decide (Process.Status p <> StatusRunning) then
    throw (ErrNotRunning (Process.Name p))
  else
    set_status StatusStopping >>
    (if Process.cancel p then emit EvCancel else ret tt) >>
    match Process.cmd p with
    | Some c =>
        emit (EvKill (- cmd_Pid c) SIGTERM) >>
        emit (EvGo (GoKillAfter5s (cmd_Pid c)))
    | None => ret tt
    end.

(** The goroutine [Stop] leaves behind. *)
Definition killAfter5s : M unit :=
  emit (EvSleep 5000) >>
  let* p := get in
  if decide (Process.Status p = StatusStopping) then
    match Process.cmd p with
    | Some c => emit (EvKill (- cmd_Pid c) SIGKILL)
    | None => ret tt
    end
  else ret tt.

(** *** Process.Restart

    [Restart] holds no lock while it sleeps: [sleep k] is what the other
    goroutines (the reaper, above all) do to the struct during the [k]-th
    sleep of the polling loop. *)

Fixpoint poll_stopped (sleep : nat -> Process.t -> Process.t)
    (fuel : nat) (k : nat) : M unit :=
  match fuel with
  | O => ret tt
  | S fuel' =>
      emit (EvSleep 500) >>
      modify (sleep k) >>
      let* p := get in
      if decide (Process.Status p = StatusStopped) then ret tt
      else poll_stopped sleep fuel' (S k)
  end.

Definition Process_Restart (sleep : nat -> Process.t -> Process.t)
    (os : StartOS) : M unit :=
  let* p := get in
  (if decide (Process.Status p = StatusRunning) then
     Process_Stop >> poll_stopped sleep 10 0
   else ret tt) >>
  Process_Start os.

(** *** Process.waitForExit, the reaper *)

Record ExitOS : Type := mkExitOS {
  exit_err : option string;          (* cmd.Wait()'s error, as %v prints it *)
  exit_now : Time;                   (* time.Now() *)
  exit_sleep : Process.t -> Process.t;  (* other goroutines, during the 1 s sleep *)
  exit_start : StartOS               (* the environment of the re-Start *)
}.

Definition waitForExit (x : ExitOS) : M unit :=
  let* p0 := get in
  match Process.cmd p0 with
  | None => ret tt
  | Some _ =>
      modify (Process.upd_info (ProcessInfo.set_StoppedAt (Some (exit_now x)))) >>
      modify (Process.upd_info (ProcessInfo.set_PID 0)) >>
      let* p := get in
      let i := Process.info p in
      let shouldRestart :=
        ProcessInfo.AutoRestart i && bool_decide (ProcessInfo.Status i = StatusRunning) in
      (match exit_err x with
       | Some e => emit (EvLog "stderr" ("Process exited with error: " +:+ e))
       | None => ret tt
       end) >>
      if shouldRestart && bool_decide (ProcessInfo.RestartCount i < ProcessInfo.MaxRestarts i)
      then
        set_status StatusRestarting >>
        modify (Process.upd_info
                  (fun i => ProcessInfo.set_RestartCount
                              (int_wrap (ProcessInfo.RestartCount i + 1)) i)) >>
        emit (EvSleep 1000) >>
        modify (exit_sleep x) >>
        discard (Process_Start (exit_start x))
      else
        set_status StatusStopped
  end.

(** *** Process.Stats, Process.Info, Process.CollectStats *)

(** One reading of gopsutil for a pid; [None] is a failed call. *)
Record Probe : Type := mkProbe {
  probe_NewProcess : bool;
  probe_CPUPercent : option float;
  probe_MemoryInfo : option Z;             (* mem.RSS, mem non-nil *)
  probe_MemoryPercent : option float;
  probe_NumThreads : option Z;
  probe_NumFDs : option Z;
  probe_IOCounters : option (Z * Z)        (* ReadBytes, WriteBytes *)
}.

Definition Process_Stats (now : Time) (probe : Z -> Probe) (p : Process.t)
  : option ProcessStats.t :=
  let i := Process.info p in
  if decide (ProcessInfo.PID i <= 0 \/ ProcessInfo.Status i <> StatusRunning) then None
  else
    let pr := probe (ProcessInfo.PID i) in
    if probe_NewProcess pr then
      Some (ProcessStats.mk (ProcessInfo.ID i) (ProcessInfo.PID i)
              (default PrimFloat.zero (probe_CPUPercent pr))
              (default 0 (probe_MemoryInfo pr))
              (default PrimFloat.zero (probe_MemoryPercent pr))
              (default 0 (probe_NumThreads pr))
              (default 0 (probe_NumFDs pr))
              (default 0 (fst <$> probe_IOCounters pr))
              (default 0 (snd <$> probe_IOCounters pr))
              now)
    else
      Some (ProcessStats.mk (ProcessInfo.ID i) (ProcessInfo.PID i)
              PrimFloat.zero 0 PrimFloat.zero 0 0 0 0 now).

Definition Process_CollectStats (now : Time) (probe : Z -> Probe) : M unit :=
  let* p := get in
  match Process_Stats now probe p with
  | None => ret tt
  | Some stats =>
      modify (fun p => Process.set_statsHistory (Process.statsHistory p ++ [stats]) p) >>
      let* p := get in
      if decide (len (Process.statsHistory p) > Process.maxHistory p) then
        match slice_from (len (Process.statsHistory p) - Process.maxHistory p)
                         (Process.statsHistory p) with
        | Some h => modify (Process.set_statsHistory h)
        | None => throw PanicSliceBounds
        end
      else ret tt
  end.

Definition Process_GetStatsHistory (limit : Z) (p : Process.t) : list ProcessStats.t :=
  let h := Process.statsHistory p in
  if decide (limit <= 0 \/ limit > len h) then h
  else drop (Z.to_nat (len h - limit)) h.

(** [int64(time.Since(t).Seconds())] truncates toward zero; the detour of
    [Seconds()] through float64 is not modelled. *)
Definition Process_Info (now : Time) (probe : Z -> Probe) (p : Process.t)
  : ProcessInfo.t :=
  let i := Process.info p in
  let i :=
    match ProcessInfo.StartedAt i with
    | Some t0 =>
        if decide (ProcessInfo.Status i = StatusRunning)
        then ProcessInfo.set_Uptime ((now - t0) `quot` 1000000000) i
        else i
    | None => i
    end in
  if decide (ProcessInfo.PID i > 0) then
    let pr := probe (ProcessInfo.PID i) in
    if probe_NewProcess pr then
      let i := match probe_CPUPercent pr with
               | Some c => ProcessInfo.set_CPU c i | None => i end in
      let i := match probe_MemoryInfo pr with
               | Some m => ProcessInfo.set_Memory m i | None => i end in
      match probe_MemoryPercent pr with
      | Some m => ProcessInfo.set_MemoryPercent m i | None => i end
    else i
  else i.

Definition Process_ToConfig (p : Process.t) : ConfigProcess.t :=
  let i := Process.info p in
  ConfigProcess.mk (ProcessInfo.ID i) (ProcessInfo.Name i) (ProcessInfo.Command i)
    (ProcessInfo.Args i) (ProcessInfo.WorkDir i) (ProcessInfo.Env i)
    (ProcessInfo.AutoStart i) (ProcessInfo.AutoRestart i) (ProcessInfo.MaxRestarts i)
    (ProcessInfo.User i) (ProcessInfo.Group i).

(** ** package process: the registry *)

Module Manager.
(** The [config] field is stored and never read by the engine. *)
Record t : Type := mk {
  processes : gmap string Process.t;
  dataDir : string;
  logDir : string
}.

Definition set_processes (v : gmap string Process.t) (m : t) : t :=
  mk v (dataDir m) (logDir m).
End Manager.

(** [processes.json] as [os.ReadFile] and [json.Unmarshal] see it.  The JSON
    encoding itself is not modelled: a file written from a list of
    definitions reads back as that list.  [ReadError] and [Malformed] carry
    the text of the error of [os.ReadFile] (other than the file not
    existing) and of [json.Unmarshal].  [json.Unmarshal] also accepts an
    array with a [null] element, which it decodes to a nil pointer:
    [ConfigsThenNull cfgs] is such an array, with [cfgs] the definitions
    before its first [null]. *)
Inductive ProcFile : Type :=
| NoFile
| ReadError (msg : string)
| Malformed (msg : string)
| Configs (cfgs : list ConfigProcess.t)
| ConfigsThenNull (cfgs : list ConfigProcess.t).

(** The registry and the file it persists to. *)
Record World : Type := mkWorld {
  manager : Manager.t;
  procfile : ProcFile
}.

Record MRes (A : Type) : Type := mkMRes {
  m_result : error + A;
  m_world : World;
  m_events : list Event
}.
Arguments mkMRes {A} _ _ _.
Arguments m_result {A} _.
Arguments m_world {A} _.
Arguments m_events {A} _.

(** *** Ranging over the map

    Go visits the entries of a map in an order of the runtime's choosing.
    A [range] loop is modelled on the list of keys in the order visited; the
    struct behind each key is read from the map. *)

Definition visits (m : gmap string Process.t) (order : list string) : Prop :=
  order ≡ₚ (map_to_list m).*1.

Definition range (m : gmap string Process.t) (order : list string)
  : list (string * Process.t) :=
  omap (fun k => pair k <$> m !! k) order.

Record NewOS : Type := mkNewOS {
  new_uuid : string;                 (* uuid.New().String() *)
  new_now : Time;                    (* time.Now() *)
  new_logger : option error          (* does NewProcessLogger fail? *)
}.

Section Registry.
(** [filepath.Join] *)
Variable Join : string -> string -> string.

(** Creating the directory and opening the three files changes the disk
    below the log root only; of that, the model keeps whether it failed. *)
Definition NewProcessLogger (fail : option error) (id name logDir : string)
  : error + ProcessLogger.t :=
  match fail with
  | Some e => inl e
  | None => inr (ProcessLogger.mk id name (Join logDir (name +:+ "-" +:+ id)))
  end.

Definition New (os : NewOS) (req : StartRequest.t) (logDir : string)
  : error + Process.t :=
  let id := String.substring 0 8 (new_uuid os) in
  let info :=
    ProcessInfo.mk id (StartRequest.Name req) StatusStopped 0
      (StartRequest.Command req) (StartRequest.Args req)
      (StartRequest.WorkDir req) (StartRequest.Env req)
      (StartRequest.AutoStart req) (StartRequest.AutoRestart req)
      (StartRequest.MaxRestarts req) 0
      (StartRequest.User req) (StartRequest.Group req)
      (new_now os) None None 0 PrimFloat.zero 0 PrimFloat.zero in
  match NewProcessLogger (new_logger os) id (StartRequest.Name req) logDir with
  | inl e => inl (ErrCreateLogger e)
  | inr procLogger => inr (Process.mk info None false procLogger [] 1000)
  end.

Definition FromConfig (os : NewOS) (cfg : ConfigProcess.t) (logDir : string)
  : error + Process.t :=
  let req :=
    StartRequest.mk (ConfigProcess.Name cfg) (ConfigProcess.Command cfg)
      (ConfigProcess.Args cfg) (ConfigProcess.WorkDir cfg) (ConfigProcess.Env cfg)
      (ConfigProcess.AutoStart cfg) (ConfigProcess.AutoRestart cfg)
      (ConfigProcess.MaxRestarts cfg) (ConfigProcess.User cfg)
      (ConfigProcess.Group cfg) in
  match New os req logDir with
  | inl e => inl e
  | inr p =>
      if decide (ConfigProcess.ID cfg <> "")
      then inr (Process.upd_info (ProcessInfo.set_ID (ConfigProcess.ID cfg)) p)
      else inr p
  end.

(** *** Manager.findProcess

    The pointer the Go function returns is modelled by the key under which
    the struct lives in the map, together with the struct. *)
Definition findProcess (order : list string) (m : Manager.t) (idOrName : string)
  : option (string * Process.t) :=
  match Manager.processes m !! idOrName with
  | Some p => Some (idOrName, p)
  | None =>
      List.find (fun kv => bool_decide (Process.Name (snd kv) = idOrName))
                (range (Manager.processes m) order)
  end.

(** *** Manager.saveProcesses

    [fail] is [None] when [os.WriteFile] succeeds; otherwise it carries the
    error and whatever the failed write left on disk. *)
Definition saveProcesses (order : list string) (fail : option (error * ProcFile))
    (w : World) : option error * World :=
  let configs := (fun kv => Process_ToConfig (snd kv))
                   <$> range (Manager.processes (manager w)) order in
  match fail with
  | Some (e, left_on_disk) => (Some e, mkWorld (manager w) left_on_disk)
  | None => (None, mkWorld (manager w) (Configs configs))
  end.

(** *** Manager.Start, the spec's [create]

    One step of the method, with the struct as [Start] left it.  The
    goroutines [Start] has launched run beside it: if the child exits at
    once, the reaper may have written the status, the pid and the stop time
    before [Info] reads them.  What the reaper does to the struct is
    [waitForExit]; here, the status, the pid and the times of the info and
    of the new entry are those of a child that is still alive when the
    method returns. *)
Record CreateOS : Type := mkCreateOS {
  create_range : list string;        (* order of the name-check loop *)
  create_new : NewOS;
  create_start : StartOS;
  create_save_range : list string;   (* order of the loop in saveProcesses *)
  create_save_fail : option (error * ProcFile);
  create_now : Time;                 (* time.Since in Info *)
  create_probe : Z -> Probe
}.

Definition Manager_Start (os : CreateOS) (req : StartRequest.t) (w : World)
  : MRes ProcessInfo.t :=
  let m := manager w in
  match List.find (fun kv => bool_decide (Process.Name (snd kv) = StartRequest.Name req))
                  (range (Manager.processes m) (create_range os)) with
  | Some _ => mkMRes (inl (ErrNameExists (StartRequest.Name req))) w []
  | None =>
      match New (create_new os) req (Manager.logDir m) with
      | inl e => mkMRes (inl e) w []
      | inr proc =>
          let r := Process_Start (create_start os) proc in
          match result r with
          | inl e => mkMRes (inl e) w (events r)
          | inr _ =>
              let proc := state r in
              let w1 := mkWorld (Manager.set_processes
                                   (<[Process.ID proc := proc]> (Manager.processes m)) m)
                                (procfile w) in
              let '(err, w2) := saveProcesses (create_save_range os)
                                              (create_save_fail os) w1 in
              mkMRes (inr (Process_Info (create_now os) (create_probe os) proc)) w2
                (events r ++
                 match err with
                 | Some _ => [EvPrint "Warning: failed to save processes"]
                 | None => []
                 end)
          end
      end
  end.

(** *** Manager.Stop, Manager.Restart and the read-only projections *)
Definition on_entry {A : Type} (k : string) (r : Res A) (w : World) : MRes A :=
  mkMRes (result r)
    (mkWorld (Manager.set_processes
                (<[k := state r]> (Manager.processes (manager w))) (manager w))
             (procfile w))
    (events r).

Definition Manager_Stop (order : list string) (idOrName : string) (w : World)
  : MRes unit :=
  match findProcess order (manager w) idOrName with
  | None => mkMRes (inl (ErrNotFound idOrName)) w []
  | Some (k, proc) => on_entry k (Process_Stop proc) w
  end.

Definition Manager_Restart (order : list string)
    (sleep : nat -> Process.t -> Process.t) (os : StartOS)
    (idOrName : string) (w : World) : MRes unit :=
  match findProcess order (manager w) idOrName with
  | None => mkMRes (inl (ErrNotFound idOrName)) w []
  | Some (k, proc) => on_entry k (Process_Restart sleep os proc) w
  end.

Definition Manager_Get (order : list string) (now : Time) (probe : Z -> Probe)
    (idOrName : string) (m : Manager.t) : option ProcessInfo.t :=
  Process_Info now probe ∘ snd <$> findProcess order m idOrName.

Definition Manager_Stats (order : list string) (now : Time) (probe : Z -> Probe)
    (idOrName : string) (m : Manager.t) : option ProcessStats.t :=
  match findProcess order m idOrName with
  | None => None
  | Some (_, proc) => Process_Stats now probe proc
  end.

Definition Manager_GetStatsHistory (order : list string) (idOrName : string)
    (limit : Z) (m : Manager.t) : option (list ProcessStats.t) :=
  Process_GetStatsHistory limit ∘ snd <$> findProcess order m idOrName.

Definition Manager_GetLogs (fs : gmap string File) (order : list string)
    (idOrName : string) (lines : Z) (logType : string) (m : Manager.t)
  : error + list string :=
  match findProcess order m idOrName with
  | None => inl (ErrNotFound idOrName)
  | Some (_, proc) => GetLogs Join fs (Process.logger proc) lines logType
  end.

(** *** Manager.Delete *)
Record DeleteOS : Type := mkDeleteOS {
  delete_range : list string;
  delete_save_range : list string;
  delete_save_fail : option (error * ProcFile)
}.

Definition Manager_Delete (os : DeleteOS) (idOrName : string) (w : World)
  : MRes unit :=
  let m := manager w in
  match List.find (fun kv => bool_decide (fst kv = idOrName)
                             || bool_decide (Process.Name (snd kv) = idOrName))
                  (range (Manager.processes m) (delete_range os)) with
  | None => mkMRes (inl (ErrNotFound idOrName)) w []
  | Some (id, p) =>
      let r := if decide (Process.Status p = StatusRunning)
               then Process_Stop p else ret tt p in
      let w1 := m_world (on_entry id r w) in
      match result r with
      | inl e => mkMRes (inl e) w1 (events r)
      | inr _ =>
          let evs := events r ++ [EvCloseLogs (ProcessLogger.logDir (Process.logger p))] in
          if decide (id = "") then mkMRes (inl (ErrNotFound idOrName)) w1 evs
          else
            let w2 := mkWorld (Manager.set_processes
                                 (delete id (Manager.processes (manager w1))) (manager w1))
                              (procfile w1) in
            let '(err, w3) := saveProcesses (delete_save_range os)
                                            (delete_save_fail os) w2 in
            mkMRes (match err with Some e => inl e | None => inr tt end) w3 evs
      end
  end.

(** *** Manager.loadProcesses, Manager.NewManager *)
Fixpoint load_loop (news : nat -> NewOS) (k : nat) (logDir : string)
    (cfgs : list ConfigProcess.t) (ps : gmap string Process.t)
  : gmap string Process.t * list Event :=
  match cfgs with
  | [] => (ps, [])
  | cfg :: rest =>
      match FromConfig (news k) cfg logDir with
      | inl _ =>
          let '(ps', evs) := load_loop news (S k) logDir rest ps in
          (ps', EvPrint ("Warning: failed to load process " +:+ ConfigProcess.Name cfg) :: evs)
      | inr proc => load_loop news (S k) logDir rest (<[Process.ID proc := proc]> ps)
      end
  end.

Definition loadProcesses (news : nat -> NewOS) (w : World) : MRes unit :=
  match procfile w with
  | NoFile => mkMRes (inr tt) w []
  | ReadError msg => mkMRes (inl (OSError msg)) w []
  | Malformed msg => mkMRes (inl (OSError msg)) w []
  | Configs cfgs =>
      let '(ps, evs) := load_loop news 0 (Manager.logDir (manager w)) cfgs
                                  (Manager.processes (manager w)) in
      mkMRes (inr tt) (mkWorld (Manager.set_processes ps (manager w)) (procfile w)) evs
  | ConfigsThenNull cfgs =>
      (* [FromConfig(nil, ...)] reads [cfg.Name] of a nil pointer *)
      let '(ps, evs) := load_loop news 0 (Manager.logDir (manager w)) cfgs
                                  (Manager.processes (manager w)) in
      mkMRes (inl PanicNilDereference)
             (mkWorld (Manager.set_processes ps (manager w)) (procfile w)) evs
  end.

(** [mkdir] is [None] when both [os.MkdirAll] calls succeed, and otherwise
    names the directory that failed.  A panic of [loadProcesses] is no
    error value: it unwinds through [NewManager] as it is. *)
Definition NewManager (mkdir : option (string * error)) (news : nat -> NewOS)
    (dataDir logDir : string) (file : ProcFile) : MRes unit :=
  let w := mkWorld (Manager.mk ∅ dataDir logDir) file in
  match mkdir with
  | Some (dir, e) => mkMRes (inl (ErrCreateDirectory dir e)) w []
  | None =>
      let r := loadProcesses news w in
      match m_result r with
      | inl PanicNilDereference => r
      | inl e => mkMRes (inl (ErrLoadProcesses e)) (m_world r) (m_events r)
      | inr _ => r
      end
  end.

(** *** Manager.CollectAllStats *)
Fixpoint CollectAllStats_loop (now : string -> Time) (probe : Z -> Probe)
    (order : list string) (ps : gmap string Process.t)
  : error + gmap string Process.t :=
  match order with
  | [] => inr ps
  | k :: rest =>
      match ps !! k with
      | None => CollectAllStats_loop now probe rest ps
      | Some p =>
          if decide (Process.Status p = StatusRunning) then
            let r := Process_CollectStats (now k) probe p in
            match result r with
            | inl e => inl e
            | inr _ => CollectAllStats_loop now probe rest (<[k := state r]> ps)
            end
          else CollectAllStats_loop now probe rest ps
      end
  end.

Definition Manager_CollectAllStats (now : string -> Time) (probe : Z -> Probe)
    (order : list string) (m : Manager.t) : error + Manager.t :=
  match CollectAllStats_loop now probe order (Manager.processes m) with
  | inl e => inl e
  | inr ps => inr (Manager.set_processes ps m)
  end.
End Registry.

(** ** package stats: the collector *)

Module Collector.
(** The [manager] pointer is the registry the collector is run against. *)
Record t : Type := mk {
  systemStats : list SystemStats.t;
  maxHistory : Z;
  interval : Z;                      (* milliseconds *)
  running : bool
}.

Definition set_systemStats (v : list SystemStats.t) (c : t) : t :=
  mk v (maxHistory c) (interval c) (running c).
End Collector.

Definition NewCollector : Collector.t := Collector.mk [] 1000 10000 false.

(** One reading of the host through gopsutil; [None] is a failed call. *)
Record HostProbe : Type := mkHostProbe {
  cpu_Percent : option (list float);
  mem_VirtualMemory : option (Z * Z * float);    (* Total, Used, UsedPercent *)
  disk_Usage : option (Z * Z * float);           (* Total, Used, UsedPercent *)
  load_Avg : option (float * float * float);     (* Load1, Load5, Load15 *)
  host_Uptime : option Z
}.

Definition collectSystemStats (now : Time) (h : HostProbe) : SystemStats.t :=
  let cpu := match cpu_Percent h with
             | Some (c :: _) => c
             | _ => PrimFloat.zero
             end in
  let '(mt, mu, mp) := default (0, 0, PrimFloat.zero) (mem_VirtualMemory h) in
  let '(dt, du, dp) := default (0, 0, PrimFloat.zero) (disk_Usage h) in
  let la := match load_Avg h with
            | Some (l1, l5, l15) => [l1; l5; l15]
            | None => []
            end in
  SystemStats.mk cpu mt mu mp dt du dp la (default 0 (host_Uptime h)) now.

Record TickOS : Type := mkTickOS {
  tick_now : Time;
  tick_host : HostProbe;
  tick_range : list string;            (* order of the loop in CollectAllStats *)
  tick_proc_now : string -> Time;      (* time.Now() in each Stats call *)
  tick_probe : Z -> Probe
}.

Definition Collector_collect (os : TickOS) (c : Collector.t) (m : Manager.t)
  : error + Collector.t * Manager.t :=
  let sysStats := collectSystemStats (tick_now os) (tick_host os) in
  let h := Collector.systemStats c ++ [sysStats] in
  let trimmed :=
    if decide (len h > Collector.maxHistory c)
    then slice_from (len h - Collector.maxHistory c) h
    else Some h in
  match trimmed with
  | None => inl PanicSliceBounds
  | Some h' =>
      match Manager_CollectAllStats (tick_proc_now os) (tick_probe os)
                                    (tick_range os) m with
      | inl e => inl e
      | inr m' => inr (Collector.set_systemStats h' c, m')
      end
  end.

Definition Collector_GetSystemStatsHistory (limit : Z) (c : Collector.t)
  : list SystemStats.t :=
  let h := Collector.systemStats c in
  if decide (limit <= 0 \/ limit > len h) then h
  else drop (Z.to_nat (len h - limit)) h.

(** A run of the collector: one [collect] per tick, each against the
    registry as the requests served since the previous tick have left it.
    [between k] is what those requests do to the registry after tick [k]. *)
Fixpoint collect_ticks (between : nat -> Manager.t -> Manager.t) (k : nat)
    (ticks : list TickOS) (c : Collector.t) (m : Manager.t)
  : error + Collector.t * Manager.t :=
  match ticks with
  | [] => inr (c, m)
  | os :: rest =>
      match Collector_collect os c m with
      | inl e => inl e
      | inr (c', m') => collect_ticks between (S k) rest c' (between k m')
      end
  end.

(** ** package api: the logs handler *)

Record Request : Type := mkRequest {
  Param : string -> string;            (* c.Param *)
  Query : string -> string             (* c.Query; the empty string when absent *)
}.

Record Response : Type := mkResponse {
  http_status : Z;
  Success : bool;
  Data : list string;
  Error : option error
}.

Section Api.
Variable Join : string -> string -> string.
(** [fmt.Sscanf(l, "%d", &lines)]: the integer read, if one was. *)
Variable Sscanf_d : string -> option Z.

Definition getProcessLogs (fs : gmap string File) (order : list string)
    (m : Manager.t) (c : Request) : Response :=
  let id := Param c "id" in
  let lines := 100 in
  let logType := Query c "type" in
  let lines :=
    if decide (Query c "lines" <> "")
    then default lines (Sscanf_d (Query c "lines"))
    else lines in
  match Manager_GetLogs Join fs order id lines logType m with
  | inl err => mkResponse 500 false [] (Some err)
  | inr logs => mkResponse 200 true logs None
  end.
End Api.

(** * The rest of the engine

    The functions of the same packages that the statements so far did not
    need: the remaining operations of the registry, the writing side of the
    logger, the life cycle of the collector and the other handlers of the
    control plane. *)

(** ** package process: the remaining registry operations *)

(** [len(m.processes)] *)
Definition Manager_Count (m : Manager.t) : Z :=
  Z.of_nat (size (Manager.processes m)).

Definition Manager_RunningCount (order : list string) (m : Manager.t) : Z :=
  foldl (fun count kv =>
           if decide (Process.Status (snd kv) = StatusRunning)
           then int_wrap (count + 1) else count)
        0 (range (Manager.processes m) order).

(** [now k] is the clock read while the entry under [k] is visited. *)
Definition Manager_List (order : list string) (now : string -> Time)
    (probe : Z -> Probe) (m : Manager.t) : list ProcessInfo.t :=
  (fun kv => Process_Info (now (fst kv)) probe (snd kv))
    <$> range (Manager.processes m) order.

Definition Manager_AllStats (order : list string) (now : string -> Time)
    (probe : Z -> Probe) (m : Manager.t) : list ProcessStats.t :=
  omap (fun kv => Process_Stats (now (fst kv)) probe (snd kv))
       (range (Manager.processes m) order).

(** The loop of [StopAll]: [_ = p.Stop()] on every entry found Running. *)
Fixpoint StopAll_loop (order : list string) (ps : gmap string Process.t)
  : gmap string Process.t * list Event :=
  match order with
  | [] => (ps, [])
  | k :: rest =>
      match ps !! k with
      | None => StopAll_loop rest ps
      | Some p =>
          if decide (Process.Status p = StatusRunning) then
            let r := Process_Stop p in
            let '(ps', evs) := StopAll_loop rest (<[k := state r]> ps) in
            (ps', events r ++ evs)
          else StopAll_loop rest ps
      end
  end.

Definition Manager_StopAll (order : list string) (m : Manager.t)
  : Manager.t * list Event :=
  let '(ps, evs) := StopAll_loop order (Manager.processes m) in
  (Manager.set_processes ps m, evs).

(** The second loop of [StartAutoStartProcesses], over the entries the first
    loop has collected; [os k] is the environment of the Start of entry [k].
    Of the line printed on a failure the model keeps the text up to the
    error. *)
Fixpoint autostart_loop (os : string -> StartOS) (toStart : list string)
    (ps : gmap string Process.t) : gmap string Process.t * list Event :=
  match toStart with
  | [] => (ps, [])
  | k :: rest =>
      match ps !! k with
      | None => autostart_loop os rest ps
      | Some p =>
          let r := Process_Start (os k) p in
          let warn := match result r with
                      | inl _ => [EvPrint ("Failed to auto-start process " +:+ Process.Name p)]
                      | inr _ => []
                      end in
          let '(ps', evs) := autostart_loop os rest (<[k := state r]> ps) in
          (ps', events r ++ warn ++ evs)
      end
  end.

Definition Manager_StartAutoStartProcesses (order : list string)
    (os : string -> StartOS) (m : Manager.t) : Manager.t * list Event :=
  let toStart :=
    List.filter (fun kv => Process.ShouldAutoStart (snd kv)
                           && bool_decide (Process.Status (snd kv) = StatusStopped))
                (range (Manager.processes m) order) in
  let '(ps, evs) := autostart_loop os toStart.*1 (Manager.processes m) in
  (Manager.set_processes ps m, evs).

(** ** package logger: writing *)

(** A file is kept as the lines a [bufio.Scanner] yields from it, so a
    write is kept as what the scanner makes of the bytes written. *)







Section LoggerWrite.
(** [filepath.Join] *)
Variable Join : string -> string -> string.
(** [time.Now().Format("2006-01-02 15:04:05.000")] *)
Variable timestamp : string.

End LoggerWrite.

(** ** package stats: starting and stopping the collector *)

(** [stopChan], a channel that is only ever closed. *)
Inductive Chan : Type := ChanOpen | ChanClosed.

Inductive CollectorEvent : Type :=
| CevGoCollectLoop                  (* go c.collectLoop() *)
| CevPanicCloseOfClosedChannel.     (* close of closed channel *)

Definition Collector_set_running (v : bool) (c : Collector.t) : Collector.t :=
  Collector.mk (Collector.systemStats c) (Collector.maxHistory c)
               (Collector.interval c) v.

Definition Collector_Start (c : Collector.t) : Collector.t * list CollectorEvent :=
  if Collector.running c then (c, [])
  else (Collector_set_running true c, [CevGoCollectLoop]).

Definition Collector_Stop (c : Collector.t) (stopChan : Chan)
  : Collector.t * Chan * list CollectorEvent :=
  if negb (Collector.running c) then (c, stopChan, [])
  else
    match stopChan with
    | ChanOpen => (Collector_set_running false c, ChanClosed, [])
    | ChanClosed => (Collector_set_running false c, ChanClosed,
                     [CevPanicCloseOfClosedChannel])
    end.

(** ** package api: the other handlers *)

(** [types.Response] with the payload of the handler at hand; [api_Error] is
    the text of the [Error] field, kept as the error it is printed from when
    it comes out of the engine. *)
Inductive ApiError : Type :=
| ApiText (msg : string)
| ApiErr (e : error).

Record ApiResponse (D : Type) : Type := mkApiResponse {
  api_status : Z;
  api_Success : bool;
  api_Message : string;
  api_Data : option D;
  api_Error : option ApiError
}.
Arguments mkApiResponse {D} _ _ _ _ _.
Arguments api_status {D} _.
Arguments api_Success {D} _.
Arguments api_Message {D} _.
Arguments api_Data {D} _.
Arguments api_Error {D} _.

Section Handlers.
Variable Join : string -> string -> string.
Variable Sscanf_d : string -> option Z.

(** [body] is what [c.ShouldBindJSON(&req)] makes of the request body. *)
Definition startProcess (body : error + StartRequest.t) (os : CreateOS) (w : World)
  : ApiResponse ProcessInfo.t * World * list Event :=
  match body with
  | inl err => (mkApiResponse 400 false "" None (Some (ApiErr err)), w, [])
  | inr req =>
      if decide (StartRequest.Name req = "" \/ StartRequest.Command req = "") then
        (mkApiResponse 400 false "" None (Some (ApiText "name and command are required")),
         w, [])
      else
        let r := Manager_Start Join os req w in
        match m_result r with
        | inl err =>
            (mkApiResponse 500 false "" None (Some (ApiErr err)), m_world r, m_events r)
        | inr info =>
            (mkApiResponse 201 true "Process started" (Some info) None,
             m_world r, m_events r)
        end
  end.

Definition getProcess (order : list string) (now : Time) (probe : Z -> Probe)
    (m : Manager.t) (c : Request) : ApiResponse ProcessInfo.t :=
  match Manager_Get order now probe (Param c "id") m with
  | None => mkApiResponse 404 false "" None (Some (ApiText "process not found"))
  | Some info => mkApiResponse 200 true "" (Some info) None
  end.

Definition deleteProcess (os : DeleteOS) (w : World) (c : Request)
  : ApiResponse unit * World * list Event :=
  let r := Manager_Delete os (Param c "id") w in
  match m_result r with
  | inl err => (mkApiResponse 500 false "" None (Some (ApiErr err)), m_world r, m_events r)
  | inr _ => (mkApiResponse 200 true "Process deleted" None None, m_world r, m_events r)
  end.

Definition stopProcess (order : list string) (w : World) (c : Request)
  : ApiResponse unit * World * list Event :=
  let r := Manager_Stop order (Param c "id") w in
  match m_result r with
  | inl err => (mkApiResponse 500 false "" None (Some (ApiErr err)), m_world r, m_events r)
  | inr _ => (mkApiResponse 200 true "Process stopped" None None, m_world r, m_events r)
  end.

Definition restartProcess (order : list string)
    (sleep : nat -> Process.t -> Process.t) (os : StartOS) (w : World) (c : Request)
  : ApiResponse unit * World * list Event :=
  let r := Manager_Restart order sleep os (Param c "id") w in
  match m_result r with
  | inl err => (mkApiResponse 500 false "" None (Some (ApiErr err)), m_world r, m_events r)
  | inr _ => (mkApiResponse 200 true "Process restarted" None None, m_world r, m_events r)
  end.

Definition getProcessStats (order : list string) (now : Time) (probe : Z -> Probe)
    (m : Manager.t) (c : Request) : ApiResponse ProcessStats.t :=
  match Manager_Stats order now probe (Param c "id") m with
  | None => mkApiResponse 404 false "" None
              (Some (ApiText "process not found or not running"))
  | Some procStats => mkApiResponse 200 true "" (Some procStats) None
  end.

Definition getProcessStatsHistory (order : list string) (m : Manager.t) (c : Request)
  : ApiResponse (list ProcessStats.t) :=
  let limit := 100 in
  let limit :=
    if decide (Query c "limit" <> "")
    then default limit (Sscanf_d (Query c "limit"))
    else limit in
  match Manager_GetStatsHistory order (Param c "id") limit m with
  | None => mkApiResponse 404 false "" None (Some (ApiText "process not found"))
  | Some procStats => mkApiResponse 200 true "" (Some procStats) None
  end.

Definition getSystemStatsHistory (col : Collector.t) (c : Request)
  : ApiResponse (list SystemStats.t) :=
  let limit := 100 in
  let limit :=
    if decide (Query c "limit" <> "")
    then default limit (Sscanf_d (Query c "limit"))
    else limit in
  mkApiResponse 200 true "" (Some (Collector_GetSystemStatsHistory limit col)) None.
End Handlers.

(** * Statements

    The predicates the properties are stated with, and the inputs on which
    they are worked out. *)

(** ** Predicates *)

(** What a successful [Start] does to the outside world. *)
Definition start_events (c : Cmd) : list Event :=
  [EvExec c; EvGo (GoCaptureOutput "stdout"); EvGo (GoCaptureOutput "stderr");
   EvGo GoWaitForExit].

(** The environment lets [Start] through: credentials resolve when a user is
    set, both pipes are created and exec succeeds. *)
Definition start_env_ok (os : StartOS) (p : Process.t) : Prop :=
  (ProcessInfo.User (Process.info p) = "" \/
   exists cred, getUserCredentials (os_users os) (ProcessInfo.User (Process.info p))
                  (ProcessInfo.Group (Process.info p)) = inr cred) /\
  os_StdoutPipe os = None /\
  os_StderrPipe os = None /\
  exists pid, os_cmdStart os = inr pid.

(** The definition, the restart budget and the sample ring. *)
Definition same_static (p q : Process.t) : Prop :=
  Process.ID q = Process.ID p /\
  Process.Name q = Process.Name p /\
  ProcessInfo.AutoRestart (Process.info q) = ProcessInfo.AutoRestart (Process.info p) /\
  ProcessInfo.MaxRestarts (Process.info q) = ProcessInfo.MaxRestarts (Process.info p) /\
  ProcessInfo.RestartCount (Process.info q) = ProcessInfo.RestartCount (Process.info p) /\
  Process.logger q = Process.logger p /\
  Process.statsHistory q = Process.statsHistory p /\
  Process.maxHistory q = Process.maxHistory p.

(** A computation that leaves those parts of the struct alone. *)
Definition preserves {A : Type} (m : M A) : Prop :=
  forall p, same_static p (state (m p)).

(** The restart budget: the counter starts at zero and is only ever
    incremented below [MaxRestarts]. *)
Definition counts_ok (p : Process.t) : Prop :=
  is_int (ProcessInfo.MaxRestarts (Process.info p)) /\
  0 <= ProcessInfo.RestartCount (Process.info p)
    <= Z.max 0 (ProcessInfo.MaxRestarts (Process.info p)).

(** The bookkeeping every exit gets: [StoppedAt] set, [PID] cleared. *)
Definition reaped (x : ExitOS) (p : Process.t) : Process.t :=
  Process.upd_info
    (fun i => ProcessInfo.set_PID 0 (ProcessInfo.set_StoppedAt (Some (exit_now x)) i)) p.

(** The synthetic stderr line of an abnormal exit. *)
Definition exit_log (x : ExitOS) : list Event :=
  match exit_err x with
  | Some e => [EvLog "stderr" ("Process exited with error: " +:+ e)]
  | None => []
  end.

(** The state in which the reaper goes to sleep before it re-invokes Start. *)
Definition marked_restarting (x : ExitOS) (p : Process.t) : Process.t :=
  Process.upd_info
    (fun i => ProcessInfo.set_RestartCount (ProcessInfo.RestartCount i + 1)
                (ProcessInfo.set_Status StatusRestarting i))
    (reaped x p).

(** No two entries of the map share a name. *)
Definition unique_names (ps : gmap string Process.t) : Prop :=
  forall i j p q,
    ps !! i = Some p -> ps !! j = Some q -> Process.Name p = Process.Name q -> i = j.

(** What [s = s[len(s)-cap:]], guarded by [len(s) > cap], leaves of [s]:
    its newest [cap] entries. *)
Definition keep_last {A : Type} (cap : Z) (s : list A) : list A :=
  drop (Z.to_nat (len s - cap)) s.

(** A process ring within its capacity of 1000. *)
Definition ring_ok (p : Process.t) : Prop :=
  Process.maxHistory p = 1000 /\ len (Process.statsHistory p) <= 1000.

(** Every process of the registry has its ring within capacity. *)
Definition rings_ok (m : Manager.t) : Prop :=
  map_Forall (fun _ p => ring_ok p) (Manager.processes m).

(** The host ring within its capacity of 1000. *)
Definition collector_ok (c : Collector.t) : Prop :=
  Collector.maxHistory c = 1000 /\ len (Collector.systemStats c) <= 1000.

(** ** Worked inputs *)

(** A [filepath.Join] for the worked inputs: clean components, one slash. *)
Definition join_slash (a b : string) : string := a +:+ "/" +:+ b.

(** The logger of a process "web" with id 1a2b3c4d, and its log files. *)
Definition web_logger : ProcessLogger.t :=
  ProcessLogger.mk "1a2b3c4d" "web" "/var/log/gemstone/web-1a2b3c4d".

Definition web_logs : gmap string File :=
  {[ "/var/log/gemstone/web-1a2b3c4d/stdout.log" := Readable ["a"; "b"; "c"] None;
     "/var/log/gemstone/web-1a2b3c4d/combined.log" := Readable ["one"; "two"] None ]}.

(** The process "web", in a given status, never started. *)
Definition sample_info (st : ProcessStatus) : ProcessInfo.t :=
  ProcessInfo.mk "1a2b3c4d" "web" st 0 "/bin/sleep" ["60"] "" ∅
    false true 3 0 "" "" 1700000000 None None 0 PrimFloat.zero 0 PrimFloat.zero.

Definition sample_process (st : ProcessStatus) : Process.t :=
  Process.mk (sample_info st) None false web_logger [] 1000.

(** A host on which no user or group resolves. *)
Definition no_users : UserDB :=
  mkUserDB (fun _ => inl (OSError "user: unknown user"))
           (fun _ => inl (OSError "group: unknown group"))
           (fun _ => inl (OSError "strconv.ParseUint: invalid syntax")).

(** An environment in which every call of [Start] succeeds; the child gets
    pid 4242. *)
Definition os_all_ok : StartOS :=
  mkStartOS 1700000100 ["PATH=/usr/bin:/bin"] no_users None None (inr 4242).

(** The command [Start] builds for "web" in [os_all_ok]. *)
Definition sample_cmd : Cmd :=
  mkCmd "/bin/sleep" ["/bin/sleep"; "60"] "" ["PATH=/usr/bin:/bin"]
        (mkSysProcAttr None true) 4242.

(** A process started from Stopped in [os_all_ok]: Running, pid 4242. *)
Definition running_process : Process.t :=
  state (Process_Start os_all_ok (sample_process StatusStopped)).

(** The child exits with status 1; nothing else touches the struct. *)
Definition exit_status_1 : ExitOS :=
  mkExitOS (Some "exit status 1") 1700000200 (fun p => p) os_all_ok.

(** "web" as the reaper leaves it while it sleeps before the automatic
    restart: status Restarting, one restart counted, no pid. *)
Definition restarting_process : Process.t :=
  marked_restarting exit_status_1 running_process.

(** The child exits with status 1 and, while the reaper sleeps, a user's
    Restart is served. *)
Definition exit_then_user_restart : ExitOS :=
  mkExitOS (Some "exit status 1") 1700000200
           (fun p => state (Process_Restart (fun _ q => q) os_all_ok p)) os_all_ok.

(** "web" after a Stop, before its child has been reaped: status Stopping. *)
Definition stopping_process : Process.t :=
  state (Process_Stop running_process).

(** An environment in which exec fails. *)
Definition exec_fails : StartOS :=
  mkStartOS 1700000100 ["PATH=/usr/bin:/bin"] no_users None None
    (inl (OSError "fork/exec /bin/sleep: no such file or directory")).

(** The oracles of one [New]: the uuid drawn, the clock, the logger. *)
Definition sample_new : NewOS :=
  mkNewOS "9f8e7d6c-0000-4000-8000-000000000000" 1700000000 None.

(** A resource probe that finds no process. *)
Definition no_probe : Z -> Probe :=
  fun _ => mkProbe false None None None None None None.

(** A create request for a process "api". *)
Definition sample_request : StartRequest.t :=
  StartRequest.mk "api" "/bin/sleep" ["60"] "" ∅ false true 3 "" "".

(** An empty registry, nothing on disk. *)
Definition empty_world : World :=
  mkWorld (Manager.mk ∅ "/var/lib/gemstone" "/var/log/gemstone") NoFile.

(** A create request served while exec fails. *)
Definition create_exec_fails : CreateOS :=
  mkCreateOS [] sample_new exec_fails ["9f8e7d6c"] None 1700000100 no_probe.

(** A process whose name is the id of "web". *)
Definition shadow_info : ProcessInfo.t :=
  ProcessInfo.mk "deadbeef" "1a2b3c4d" StatusStopped 0 "/bin/true" [] "" ∅
    false false 0 0 "" "" 1700000050 None None 0 PrimFloat.zero 0 PrimFloat.zero.

Definition shadow_process : Process.t :=
  Process.mk shadow_info None false
    (ProcessLogger.mk "deadbeef" "1a2b3c4d" "/var/log/gemstone/1a2b3c4d-deadbeef") [] 1000.

(** ["1a2b3c4d"] is the id of the process named "web" and the name of the
    process with id ["deadbeef"]. *)
Definition shadow_world : World :=
  mkWorld (Manager.mk {[ "1a2b3c4d" := sample_process StatusStopped;
                         "deadbeef" := shadow_process ]}
                      "/var/lib/gemstone" "/var/log/gemstone")
          NoFile.

(** A delete during which the runtime visits "deadbeef" first. *)
Definition delete_deadbeef_first : DeleteOS :=
  mkDeleteOS ["deadbeef"; "1a2b3c4d"] ["1a2b3c4d"] None.

(** A [processes.json] in which two definitions carry the name "web". *)
Definition web_definition (id : string) : ConfigProcess.t :=
  ConfigProcess.mk id "web" "/bin/sleep" ["60"] "" ∅ false true 3 "" "".

Definition twice_web : ProcFile :=
  Configs [web_definition "1a2b3c4d"; web_definition "5e6f7a8b"].

Definition boot_twice_web : MRes unit :=
  NewManager join_slash None (fun _ => sample_new)
    "/var/lib/gemstone" "/var/log/gemstone" twice_web.

(** A create request served while everything succeeds. *)
Definition create_ok : CreateOS :=
  mkCreateOS [] sample_new os_all_ok ["9f8e7d6c"] None 1700000100 no_probe.

(** One tick of the collector. *)
Definition tick_0 : TickOS :=
  mkTickOS 1700000110 (mkHostProbe None None None None None)
           ["9f8e7d6c"] (fun _ => 1700000110) no_probe.

(** After the first tick a create request is served; after the others the
    registry is left alone. *)
Definition create_between (j : nat) (m : Manager.t) : Manager.t :=
  match j with
  | O => manager (m_world (Manager_Start join_slash create_ok sample_request
                                         (mkWorld m NoFile)))
  | S _ => m
  end.

(** [GET /processes/1a2b3c4d/logs?lines=1&type=junk] *)
Definition junk_request : Request :=
  mkRequest (fun _ => "1a2b3c4d")
            (fun key => if decide (key = "type") then "junk"
                        else if decide (key = "lines") then "1" else "").

(** A [Sscanf] that reads the digits of the request above. *)
Definition scan_one : string -> option Z :=
  fun l => if decide (l = "1") then Some 1 else None.

(** ** Further predicates *)

(** The command [Start] hands to exec, given the credentials it resolved and
    the pid exec answered. *)
Definition built_cmd (os : StartOS) (p : Process.t) (cred : option Credential)
    (pid : Z) : Cmd :=
  let i := Process.info p in
  mkCmd (ProcessInfo.Command i)
        (ProcessInfo.Command i :: ProcessInfo.Args i)
        (if decide (ProcessInfo.WorkDir i <> "") then ProcessInfo.WorkDir i else "")
        (os_Environ os ++
           ((fun kv => fst kv +:+ "=" +:+ snd kv) <$> map_to_list (ProcessInfo.Env i)))
        (mkSysProcAttr cred true) pid.

(** A computation that leaves [f] of the struct as it was. *)
Definition keeps {A B : Type} (f : Process.t -> B) (m : M A) : Prop :=
  forall p, f (state (m p)) = f p.

(** What of a process is persisted and where its output goes. *)
Definition definition_of (p : Process.t) : ConfigProcess.t * ProcessLogger.t :=
  (Process_ToConfig p, Process.logger p).

(** The operating system hands out positive pids. *)
Definition pid_ok (os : StartOS) : Prop :=
  forall pid, os_cmdStart os = inr pid -> 0 < pid.

(** What every method leaves true of the struct when it returns: a Running
    process has its command, the pid of that command, a start time and no
    stop time; a Stopped one has no pid. *)
Definition state_inv (p : Process.t) : Prop :=
  (Process.Status p = StatusRunning ->
     exists c, Process.cmd p = Some c /\
               ProcessInfo.PID (Process.info p) = cmd_Pid c /\
               0 < cmd_Pid c /\
               (exists t, ProcessInfo.StartedAt (Process.info p) = Some t) /\
               ProcessInfo.StoppedAt (Process.info p) = None) /\
  (Process.Status p = StatusStopped -> ProcessInfo.PID (Process.info p) = 0).

(** A computation that keeps the state consistent. *)
Definition keeps_inv {A : Type} (m : M A) : Prop :=
  forall p, state_inv p -> state_inv (state (m p)).

(** The child exits, is restarted, exits again, and so on: one run of the
    reaper per exit. *)
Fixpoint exits (xs : list ExitOS) (p : Process.t) : Process.t :=
  match xs with
  | [] => p
  | x :: rest => exits rest (state (waitForExit x p))
  end.

(** What the other goroutines have made of the struct after [n] sleeps of
    the polling loop, the first of them sleep number [k]. *)
Fixpoint sleeps (sleep : nat -> Process.t -> Process.t) (k n : nat)
    (p : Process.t) : Process.t :=
  match n with
  | O => p
  | S n' => sleeps sleep (S k) n' (sleep k p)
  end.

(** The map key of every entry is the entry's id. *)
Definition keys_ok (ps : gmap string Process.t) : Prop :=
  forall k p, ps !! k = Some p -> Process.ID p = k.

(** Every sample of the ring was taken of this process while it had a pid. *)
Definition samples_ok (p : Process.t) : Prop :=
  Forall (fun s => ProcessStats.ID s = Process.ID p /\ 0 < ProcessStats.PID s)
         (Process.statsHistory p).

(** A definition under another id. *)
Definition with_ID (id : string) (cfg : ConfigProcess.t) : ConfigProcess.t :=
  ConfigProcess.mk id (ConfigProcess.Name cfg) (ConfigProcess.Command cfg)
    (ConfigProcess.Args cfg) (ConfigProcess.WorkDir cfg) (ConfigProcess.Env cfg)
    (ConfigProcess.AutoStart cfg) (ConfigProcess.AutoRestart cfg)
    (ConfigProcess.MaxRestarts cfg) (ConfigProcess.User cfg) (ConfigProcess.Group cfg).

(** A process that has never run: Stopped, no pid, no command, no restart
    counted, an empty ring of capacity 1000. *)
Definition fresh (p : Process.t) : Prop :=
  Process.Status p = StatusStopped /\
  ProcessInfo.PID (Process.info p) = 0 /\
  ProcessInfo.RestartCount (Process.info p) = 0 /\
  Process.cmd p = None /\
  Process.statsHistory p = [] /\
  Process.maxHistory p = 1000.

(** ** Further worked inputs *)

(** Four exits in a row, each with status 1 and nothing else going on. *)
Definition four_exits : list ExitOS :=
  [exit_status_1; exit_status_1; exit_status_1; exit_status_1].

(** The reaper finishes a stopped child during the third sleep of the poll. *)
Definition reaped_in_third_sleep (k : nat) (p : Process.t) : Process.t :=
  match k with
  | 2%nat => state (waitForExit exit_status_1 p)
  | _ => p
  end.






(** The entries a counting loop finds Running. *)
Definition running_entries (ps : gmap string Process.t) : list (string * Process.t) :=
  filter (fun kv => Process.Status (snd kv) = StatusRunning) (map_to_list ps).

(** A registry with "web" running and a second process stopped. *)
Definition mixed_registry : Manager.t :=
  Manager.mk {[ "1a2b3c4d" := running_process; "deadbeef" := shadow_process ]}
             "/var/lib/gemstone" "/var/log/gemstone".



(** The id under which a boot registers a definition: its own, or the start
    of a fresh uuid when it has none. *)
Definition boot_id (os : NewOS) (cfg : ConfigProcess.t) : string :=
  if decide (ConfigProcess.ID cfg <> "") then ConfigProcess.ID cfg
  else String.substring 0 8 (new_uuid os).

(** A create request for the name "web", served after "web" was deleted from
    the registry of [shadow_world]. *)
Definition web_request : StartRequest.t :=
  StartRequest.mk "web" "/bin/sleep" ["60"] "" ∅ false true 3 "" "".

Definition create_after_delete : CreateOS :=
  mkCreateOS ["deadbeef"] sample_new os_all_ok ["deadbeef"; "9f8e7d6c"] None
             1700000100 no_probe.




(** * Properties *)

(** The methods are unfolded by name where a proof looks inside them, and
    evaluated by conversion on the worked inputs. *)
Arguments Process_Start : simpl never.
Arguments Process_Stop : simpl never.
Arguments Process_Restart : simpl never.
Arguments waitForExit : simpl never.
Arguments killAfter5s : simpl never.
Arguments Process_Stats : simpl never.
Arguments Process_Info : simpl never.
Arguments Process_CollectStats : simpl never.
Arguments Process_ToConfig : simpl never.
Arguments getUserCredentials : simpl never.
Arguments New : simpl never.
Arguments FromConfig : simpl never.
Arguments saveProcesses : simpl never.
Arguments collectSystemStats : simpl never.

(** ** Slices *)

Lemma len_nonneg {A : Type} (l : list A) : 0 <= len l.
Proof. unfold len. lia. Qed.

Lemma len_app {A : Type} (l1 l2 : list A) : len (l1 ++ l2) = len l1 + len l2.
Proof. unfold len. rewrite length_app. lia. Qed.

Lemma slice_from_Some {A : Type} (lo : Z) (s : list A) :
  0 <= lo <= len s ->
  slice_from lo s = Some (drop (Z.to_nat lo) s).
Proof. intros H. unfold slice_from. by rewrite decide_True. Qed.

Lemma len_drop {A : Type} (lo : Z) (s : list A) :
  0 <= lo <= len s -> len (drop (Z.to_nat lo) s) = len s - lo.
Proof. unfold len. intros H. rewrite length_drop. lia. Qed.

(** Keeping the newest [cap] entries: what [s[len(s)-cap:]] is. *)
Lemma keep_last_suffix {A : Type} (cap : Z) (s : list A) :
  drop (Z.to_nat (len s - cap)) s `suffix_of` s.
Proof. apply suffix_drop. Qed.

(** ** The output logger *)

Lemma readLastLines_missing fs path n :
  fs !! path = None -> readLastLines fs path n = inr [].
Proof. intros H. unfold readLastLines. by rewrite H. Qed.

Lemma readLastLines_readable fs path n lines :
  fs !! path = Some (Readable lines None) ->
  readLastLines fs path n =
    inr (if decide (n <= 0 \/ n >= len lines) then lines
         else drop (Z.to_nat (len lines - n)) lines).
Proof.
  intros H. unfold readLastLines. rewrite H.
  destruct (decide (n <= 0 \/ n >= len lines)) as [Hall | Htail]; [done |].
  rewrite slice_from_Some; [done | lia].
Qed.

(** C4 (as amended): for every [n > 0] and every log file, [logs(n)] returns
    at most [n] lines; when the file exists and scans without error they are
    the last [n] lines of the file, or all of them when fewer than [n]
    exist.  For [n <= 0] it returns every line of the file.  A missing file
    yields the empty sequence and no error. *)
Theorem GetLogs_tail Join fs l n logType :
  (forall out, 0 < n -> GetLogs Join fs l n logType = inr out -> len out <= n) /\
  (fs !! logFile Join l logType = None ->
   GetLogs Join fs l n logType = inr []) /\
  (forall lines,
     fs !! logFile Join l logType = Some (Readable lines None) ->
     exists out,
       GetLogs Join fs l n logType = inr out /\
       out `suffix_of` lines /\
       (0 < n -> len out = Z.min n (len lines) /\ len out <= n) /\
       (n <= 0 -> out = lines)).
Proof.
  split; [| split].
  - intros out Hpos. unfold GetLogs, readLastLines.
    destruct (fs !! logFile Join l logType) as [[e | lines [e |]] |]; try done.
    + pose proof (len_nonneg lines) as Hlen.
      destruct (decide (n <= 0 \/ n >= len lines)) as [Hall | Htail].
      * intros [= <-]. lia.
      * rewrite slice_from_Some by lia. intros [= <-].
        rewrite len_drop by lia. lia.
    + intros [= <-]. unfold len. cbn. lia.
  - apply readLastLines_missing.
  - intros lines Hfile. unfold GetLogs.
    rewrite (readLastLines_readable _ _ _ _ Hfile).
    pose proof (len_nonneg lines) as Hlen.
    destruct (decide (n <= 0 \/ n >= len lines)) as [Hall | Htail].
    + exists lines. split; [done |]. split; [done |]. split; [lia | done].
    + exists (drop (Z.to_nat (len lines - n)) lines).
      split; [done |]. split; [apply keep_last_suffix |].
      split; [| lia]. intros Hpos.
      rewrite len_drop by lia. lia.
Qed.

Lemma GetLogs_tail_witness :
  web_logs !! logFile join_slash web_logger "stdout" = Some (Readable ["a"; "b"; "c"] None) /\
  exists out,
    GetLogs join_slash web_logs web_logger 2 "stdout" = inr out /\
    out `suffix_of` ["a"; "b"; "c"] /\
    (0 < 2 -> len out = Z.min 2 (len ["a"; "b"; "c"]) /\ len out <= 2) /\
    (2 <= 0 -> out = ["a"; "b"; "c"]).
Proof.
  split; [reflexivity |].
  apply (proj2 (proj2 (GetLogs_tail join_slash web_logs web_logger 2 "stdout"))).
  reflexivity.
Defined.

(** C4 as stated fails at [n = 0]: the whole file comes back, two lines
    where the claim allows none. *)
Lemma GetLogs_zero_returns_all :
  GetLogs join_slash web_logs web_logger 0 "" = inr ["one"; "two"] /\
  ~ (len ["one"; "two"] <= 0).
Proof. split; [reflexivity | unfold len; cbn; lia]. Qed.

(** C10: every stream selector other than the exact strings "stdout" and
    "stderr" makes [GetLogs] read combined.log.  The handler passes the
    [type] query parameter through untouched: for a process that is found
    its answer is made of what [readLastLines] reads from the combined.log
    of that process, with the [lines] parameter (100 when absent or not
    read as a number) as the count.  It answers 200 with no line when
    combined.log is missing, 200 with the last lines of combined.log when
    the file is readable, and 500 with the error of the read otherwise. *)
Theorem GetLogs_default_combined Join Sscanf_d fs order m c l lines logType :
  logType <> "stdout" -> logType <> "stderr" ->
  let combined d := Join d "combined.log" in
  GetLogs Join fs l lines logType = readLastLines fs (combined (ProcessLogger.logDir l)) lines /\
  (Query c "type" = logType ->
   forall k proc,
     findProcess order m (Param c "id") = Some (k, proc) ->
     let n := if decide (Query c "lines" <> "")
              then default 100 (Sscanf_d (Query c "lines")) else 100 in
     let path := combined (ProcessLogger.logDir (Process.logger proc)) in
     let resp := getProcessLogs Join Sscanf_d fs order m c in
     resp = match readLastLines fs path n with
            | inl err => mkResponse 500 false [] (Some err)
            | inr logs => mkResponse 200 true logs None
            end /\
     (fs !! path = None -> resp = mkResponse 200 true [] None) /\
     (forall ls, fs !! path = Some (Readable ls None) ->
        resp = mkResponse 200 true
                 (if decide (n <= 0 \/ n >= len ls) then ls
                  else drop (Z.to_nat (len ls - n)) ls) None) /\
     (forall e, fs !! path = Some (Unreadable e) ->
        resp = mkResponse 500 false [] (Some e)) /\
     (forall ls e, fs !! path = Some (Readable ls (Some e)) ->
        resp = mkResponse 500 false [] (Some e))).
Proof.
  intros Hout Herr combined.
  assert (Hsel : forall l', logFile Join l' logType = combined (ProcessLogger.logDir l')).
  { intros l'. unfold logFile. by rewrite !decide_False. }
  split.
  - unfold GetLogs. by rewrite Hsel.
  - intros Hq k proc Hfind n path resp.
    assert (Hresp : resp = match readLastLines fs path n with
                           | inl err => mkResponse 500 false [] (Some err)
                           | inr logs => mkResponse 200 true logs None
                           end).
    { subst resp. unfold getProcessLogs, Manager_GetLogs, GetLogs.
      rewrite Hfind, Hq, Hsel. reflexivity. }
    split; [exact Hresp |]. rewrite Hresp. split; [| split; [| split]].
    + intros Hnone. by rewrite (readLastLines_missing _ _ _ Hnone).
    + intros ls Hls. by rewrite (readLastLines_readable _ _ _ _ Hls).
    + intros e He. unfold readLastLines. by rewrite He.
    + intros ls e He. unfold readLastLines. by rewrite He.
Qed.

Lemma GetLogs_default_combined_witness :
  "junk" <> "stdout" /\ "junk" <> "stderr" /\
  Query junk_request "type" = "junk" /\
  findProcess ["deadbeef"; "1a2b3c4d"] (manager shadow_world) (Param junk_request "id")
    = Some ("1a2b3c4d", sample_process StatusStopped) /\
  GetLogs join_slash web_logs web_logger 1 "junk"
    = readLastLines web_logs "/var/log/gemstone/web-1a2b3c4d/combined.log" 1 /\
  getProcessLogs join_slash scan_one web_logs ["deadbeef"; "1a2b3c4d"]
    (manager shadow_world) junk_request
    = mkResponse 200 true ["two"] None.
Proof.
  assert (H1 : "junk" <> "stdout") by discriminate.
  assert (H2 : "junk" <> "stderr") by discriminate.
  split; [exact H1 |]. split; [exact H2 |].
  split; [reflexivity |]. split; [reflexivity |].
  destruct (GetLogs_default_combined join_slash scan_one web_logs
              ["deadbeef"; "1a2b3c4d"] (manager shadow_world) junk_request
              web_logger 1 "junk" H1 H2) as [Hlogs Hapi].
  split; [exact Hlogs |].
  destruct (Hapi eq_refl "1a2b3c4d" (sample_process StatusStopped) eq_refl)
    as (_ & _ & Hread & _).
  exact (Hread ["one"; "two"] eq_refl).
Defined.

(** ** The managed process *)

(** Reduction is kept to the monad and to the records: strings, maps and
    oracles stay folded. *)
Ltac run_M :=
  cbn [bind ret throw get modify emit discard set_status result state events app].

Ltac recs :=
  cbn [Process.info Process.cmd Process.cancel Process.logger Process.statsHistory
       Process.maxHistory Process.set_info Process.set_cmd Process.set_cancel
       Process.set_statsHistory Process.upd_info
       Process.Status Process.Name Process.ID Process.ShouldAutoStart
       ProcessInfo.ID ProcessInfo.Name ProcessInfo.Status ProcessInfo.PID
       ProcessInfo.Command ProcessInfo.Args ProcessInfo.WorkDir ProcessInfo.Env
       ProcessInfo.AutoStart ProcessInfo.AutoRestart ProcessInfo.MaxRestarts
       ProcessInfo.RestartCount ProcessInfo.User ProcessInfo.Group
       ProcessInfo.CreatedAt ProcessInfo.StartedAt ProcessInfo.StoppedAt
       ProcessInfo.Uptime ProcessInfo.CPU ProcessInfo.Memory ProcessInfo.MemoryPercent
       ProcessInfo.set_ID ProcessInfo.set_Status ProcessInfo.set_PID
       ProcessInfo.set_RestartCount ProcessInfo.set_StartedAt ProcessInfo.set_StoppedAt
       ProcessInfo.set_Uptime ProcessInfo.set_CPU ProcessInfo.set_Memory
       ProcessInfo.set_MemoryPercent
       cmd_Name cmd_Args cmd_Dir cmd_Env cmd_SysProcAttr cmd_Pid
       result state events m_result m_world m_events manager procfile
       Manager.processes Manager.dataDir Manager.logDir Manager.set_processes
       is_InvalidState app fst snd].

Ltac step_M := run_M; recs.

(** Record updates, written out as the record they build. *)
Ltac updates :=
  unfold Process.upd_info, Process.set_info, Process.set_cmd, Process.set_cancel,
    Process.set_statsHistory, ProcessInfo.set_ID, ProcessInfo.set_Status,
    ProcessInfo.set_PID, ProcessInfo.set_RestartCount, ProcessInfo.set_StartedAt,
    ProcessInfo.set_StoppedAt;
  recs.

Lemma Stop_not_running p :
  Process.Status p <> StatusRunning ->
  Process_Stop p = mkRes (inl (ErrNotRunning (Process.Name p))) p [].
Proof.
  intros H. unfold Process_Stop. run_M.
  by rewrite decide_True.
Qed.

Lemma Start_running os p :
  Process.Status p = StatusRunning ->
  Process_Start os p = mkRes (inl (ErrAlreadyRunning (Process.Name p))) p [].
Proof.
  intros H. unfold Process_Start. run_M.
  unfold Process.Status in H. by rewrite decide_True.
Qed.

(** *** The registry's resolver returns entries of the map *)

Lemma range_lookup (m : gmap string Process.t) order k p :
  (k, p) ∈ range m order -> m !! k = Some p.
Proof.
  unfold range. rewrite list_elem_of_omap. intros (k' & _ & Hk').
  destruct (m !! k') as [p' |] eqn:E; cbn in Hk'; [| done].
  by simplify_eq.
Qed.

Lemma find_elem {A : Type} (f : A -> bool) (l : list A) x :
  List.find f l = Some x -> x ∈ l /\ f x = true.
Proof.
  intros H. apply find_some in H as [Hin Hf].
  split; [by apply list_elem_of_In | done].
Qed.

Lemma findProcess_lookup order m idOrName k p :
  findProcess order m idOrName = Some (k, p) ->
  Manager.processes m !! k = Some p.
Proof.
  unfold findProcess.
  destruct (Manager.processes m !! idOrName) as [q |] eqn:E.
  - intros [= <- <-]. done.
  - intros H. apply find_elem in H as [Hin _]. by eapply range_lookup.
Qed.

Lemma on_entry_unchanged {A : Type} k (r : Res A) w :
  Manager.processes (manager w) !! k = Some (state r) ->
  m_world (on_entry k r w) = w.
Proof.
  intros H. destruct w as [[ps dd ld] pf]. cbn in *.
  unfold Manager.set_processes. cbn. by rewrite insert_id.
Qed.

(** C9: stopping a process whose status is Stopped returns an InvalidState
    error and changes nothing: the struct is left as it was and nothing is
    done to the outside world (no cancel, no signal, no goroutine); through
    the registry, the map and processes.json are left as they were too. *)
Theorem Stop_stopped_no_effect p :
  Process.Status p = StatusStopped ->
  (exists e, is_InvalidState e /\ Process_Stop p = mkRes (inl e) p []) /\
  (forall order idOrName w k,
     findProcess order (manager w) idOrName = Some (k, p) ->
     exists e, is_InvalidState e /\
       Manager_Stop order idOrName w = mkMRes (inl e) w []).
Proof.
  intros Hst.
  assert (Hstop : Process_Stop p = mkRes (inl (ErrNotRunning (Process.Name p))) p []).
  { apply Stop_not_running. by rewrite Hst. }
  split.
  - eexists. split; [| exact Hstop]. exact I.
  - intros order idOrName w k Hfind.
    exists (ErrNotRunning (Process.Name p)). split; [exact I |].
    unfold Manager_Stop. rewrite Hfind, Hstop.
    pose proof (on_entry_unchanged (A := unit) k
                  (mkRes (inl (ErrNotRunning (Process.Name p))) p []) w) as Hw.
    unfold on_entry in *. cbn in *. f_equal. apply Hw.
    by apply findProcess_lookup in Hfind.
Qed.

Lemma Stop_stopped_no_effect_witness :
  Process.Status (sample_process StatusStopped) = StatusStopped /\
  findProcess ["deadbeef"; "1a2b3c4d"] (manager shadow_world) "web"
    = Some ("1a2b3c4d", sample_process StatusStopped) /\
  exists e, is_InvalidState e /\
    Manager_Stop ["deadbeef"; "1a2b3c4d"] "web" shadow_world
      = mkMRes (inl e) shadow_world [].
Proof.
  split; [reflexivity |]. split; [reflexivity |].
  apply (proj2 (Stop_stopped_no_effect (sample_process StatusStopped) eq_refl)
           ["deadbeef"; "1a2b3c4d"] "web" shadow_world "1a2b3c4d").
  reflexivity.
Defined.

Lemma Start_not_running os p :
  Process.Status p <> StatusRunning ->
  let r := Process_Start os p in
  (forall e, result r = inl e ->
     ~ is_InvalidState e /\ Process.Status (state r) = StatusErrored /\ events r = []) /\
  (result r = inr tt <-> start_env_ok os p) /\
  (result r = inr tt ->
     Process.Status (state r) = StatusRunning /\
     exists c, Process.cmd (state r) = Some c /\
               ProcessInfo.PID (Process.info (state r)) = cmd_Pid c /\
               os_cmdStart os = inr (cmd_Pid c) /\
               events r = start_events c).
Proof.
  intros Hst r. subst r. unfold Process_Start, start_env_ok, start_events.
  unfold Process.Status in Hst. run_M.
  rewrite decide_False by done.
  destruct (decide (ProcessInfo.User (Process.info p) <> "")) as [Hu | Hu].
  - destruct (getUserCredentials _ _ _) as [e | cred] eqn:Hc.
    + step_M. split; [intros e' [= <-]; split; [intros [] | by split] |].
      split; [| done]. split; [done |].
      intros ([? | [? ?]] & _); [done | congruence].
    + destruct (os_StdoutPipe os) as [e1 |] eqn:H1.
      { step_M. split; [intros e' [= <-]; split; [intros [] | by split] |].
        split; [| done]. split; [done |]. by intros (_ & ? & _). }
      destruct (os_StderrPipe os) as [e2 |] eqn:H2.
      { step_M. split; [intros e' [= <-]; split; [intros [] | by split] |].
        split; [| done]. split; [done |]. by intros (_ & _ & ? & _). }
      destruct (os_cmdStart os) as [e3 | pid] eqn:H3.
      { step_M. split; [intros e' [= <-]; split; [intros [] | by split] |].
        split; [| done]. split; [done |]. by intros (_ & _ & _ & ? & ?). }
      step_M. split; [done |]. split.
      * split; [| done]. intros _. repeat split; eauto.
      * intros _. split; [done |]. eexists. repeat split; done.
  - apply dec_stable in Hu.
    destruct (os_StdoutPipe os) as [e1 |] eqn:H1.
    { step_M. split; [intros e' [= <-]; split; [intros [] | by split] |].
      split; [| done]. split; [done |]. by intros (_ & ? & _). }
    destruct (os_StderrPipe os) as [e2 |] eqn:H2.
    { step_M. split; [intros e' [= <-]; split; [intros [] | by split] |].
      split; [| done]. split; [done |]. by intros (_ & _ & ? & _). }
    destruct (os_cmdStart os) as [e3 | pid] eqn:H3.
    { step_M. split; [intros e' [= <-]; split; [intros [] | by split] |].
      split; [| done]. split; [done |]. by intros (_ & _ & _ & ? & ?). }
    step_M. split; [done |]. split.
    * split; [| done]. intros _. repeat split; eauto.
    * intros _. split; [done |]. eexists. repeat split; done.
Qed.

Lemma Start_outcomes os p :
  Process.Status p <> StatusRunning ->
  let r := Process_Start os p in
  (start_env_ok os p ->
     result r = inr tt /\ Process.Status (state r) = StatusRunning /\
     exists c, events r = start_events c) /\
  (~ start_env_ok os p ->
     exists e, result r = inl e /\ ~ is_InvalidState e /\
               Process.Status (state r) = StatusErrored /\ events r = []).
Proof.
  intros Hst r. destruct (Start_not_running os p Hst) as (Herr & Hiff & Hok).
  fold r in Herr, Hiff, Hok. split.
  - intros Henv. apply Hiff in Henv.
    destruct (Hok Henv) as (? & c & _ & _ & _ & ?). eauto.
  - intros Henv. destruct (result r) as [e | []] eqn:E.
    + exists e. destruct (Herr e eq_refl) as (? & ? & ?). done.
    + destruct Henv. by apply Hiff.
Qed.

(** C2 (as amended): [Start] refuses with an InvalidState error, leaving the
    struct unchanged and starting no child, when the status is Running.  In
    every other status (Stopped and Errored, but also Starting, Stopping and
    Restarting) it goes on to launch: when credentials, pipes and exec
    succeed it returns success with the status Running and one child
    started, and otherwise it returns the error of the step that failed,
    which is not InvalidState, with the status Errored and no child. *)
Theorem Start_refuses_only_running os p :
  let r := Process_Start os p in
  (Process.Status p = StatusRunning ->
     exists e, is_InvalidState e /\ r = mkRes (inl e) p []) /\
  (Process.Status p <> StatusRunning ->
     (start_env_ok os p ->
        result r = inr tt /\ Process.Status (state r) = StatusRunning /\
        exists c, events r = start_events c) /\
     (~ start_env_ok os p ->
        exists e, result r = inl e /\ ~ is_InvalidState e /\
                  Process.Status (state r) = StatusErrored /\ events r = [])).
Proof.
  intros r. split.
  - intros Hst. exists (ErrAlreadyRunning (Process.Name p)).
    split; [exact I | by apply Start_running].
  - intros Hst. by apply Start_outcomes.
Qed.

Lemma Start_refuses_only_running_witness :
  Process.Status stopping_process <> StatusRunning /\
  start_env_ok os_all_ok stopping_process /\
  let r := Process_Start os_all_ok stopping_process in
  result r = inr tt /\ Process.Status (state r) = StatusRunning /\
  exists c, events r = start_events c.
Proof.
  assert (H : Process.Status stopping_process <> StatusRunning) by discriminate.
  assert (Hos : start_env_ok os_all_ok stopping_process).
  { unfold start_env_ok. split; [by left |]. repeat split. by exists 4242. }
  split; [exact H |]. split; [exact Hos |].
  apply (Start_refuses_only_running os_all_ok stopping_process); [exact H | exact Hos].
Defined.

(** C2 as stated fails: called in status Restarting (likewise Starting or
    Stopping), [Start] returns no error and launches a child. *)
Lemma Start_from_restarting_launches :
  let r := Process_Start os_all_ok restarting_process in
  Process.Status restarting_process = StatusRestarting /\
  result r = inr tt /\
  Process.Status (state r) = StatusRunning /\
  events r = start_events sample_cmd /\
  ~ (exists e, result r = inl e /\ is_InvalidState e).
Proof.
  cbv zeta. split; [reflexivity |]. split; [reflexivity |].
  split; [reflexivity |]. split; [reflexivity |].
  intros (e & He & _). discriminate He.
Qed.

Lemma Restart_not_running sleep os p :
  Process.Status p <> StatusRunning ->
  Process_Restart sleep os p = Process_Start os p.
Proof.
  intros Hst. unfold Process_Restart. run_M.
  rewrite decide_False by done. run_M.
  by destruct (Process_Start os p) as [[e | []] st evs].
Qed.

(** C1 (as amended): a Restart issued while the status is Restarting is not
    a no-op.  It sends no Stop and does not poll; it is exactly a call of
    [Start], whose result it returns: a child is launched and the status
    becomes Running when credentials, pipes and exec succeed, and the error
    of the failing step is returned, with the status Errored, otherwise. *)
Theorem Restart_while_restarting_starts sleep os p :
  Process.Status p = StatusRestarting ->
  let r := Process_Restart sleep os p in
  r = Process_Start os p /\
  (start_env_ok os p ->
     result r = inr tt /\ Process.Status (state r) = StatusRunning /\
     exists c, events r = start_events c) /\
  (~ start_env_ok os p ->
     exists e, result r = inl e /\ ~ is_InvalidState e /\
               Process.Status (state r) = StatusErrored /\ events r = []).
Proof.
  intros Hst r.
  assert (Hnr : Process.Status p <> StatusRunning) by (by rewrite Hst).
  subst r. rewrite (Restart_not_running sleep os p Hnr).
  split; [done |]. by apply Start_outcomes.
Qed.

Lemma Restart_while_restarting_starts_witness :
  Process.Status restarting_process = StatusRestarting /\
  start_env_ok os_all_ok restarting_process /\
  let r := Process_Restart (fun _ p => p) os_all_ok restarting_process in
  result r = inr tt /\ Process.Status (state r) = StatusRunning /\
  exists c, events r = start_events c.
Proof.
  assert (Hos : start_env_ok os_all_ok restarting_process).
  { unfold start_env_ok. split; [by left |]. repeat split. by exists 4242. }
  split; [reflexivity |]. split; [exact Hos |].
  apply (Restart_while_restarting_starts (fun _ p => p) os_all_ok
           restarting_process eq_refl).
  exact Hos.
Defined.

(** C1 as stated fails: on a process in status Restarting, [Restart] is not a
    no-op.  With an environment in which exec succeeds it launches a child
    (pid 4242) and moves the status to Running. *)
Lemma Restart_while_restarting_not_noop :
  let p := restarting_process in
  let r := Process_Restart (fun _ q => q) os_all_ok p in
  Process.Status p = StatusRestarting /\
  events r = start_events sample_cmd /\
  Process.Status (state r) = StatusRunning /\
  ProcessInfo.PID (Process.info (state r)) = 4242 /\
  ~ (result r = inr tt /\ state r = p /\ events r = []).
Proof.
  cbv zeta. split; [reflexivity |]. split; [reflexivity |].
  split; [reflexivity |]. split; [reflexivity |].
  intros (_ & _ & H). discriminate H.
Qed.

(** What becomes of the automatic restart in flight: the user's Restart has
    launched the child, and the Start the reaper then issues is refused
    ("already running") and adds nothing to the reaper's trace. *)
Lemma reaper_after_user_restart :
  let r := waitForExit exit_then_user_restart running_process in
  Process.Status (state r) = StatusRunning /\
  ProcessInfo.RestartCount (Process.info (state r)) = 1 /\
  events r = [EvLog "stderr" "Process exited with error: exit status 1"; EvSleep 1000].
Proof. cbv zeta. repeat split; reflexivity. Qed.

(** *** What the lifecycle methods never touch *)

Lemma same_static_refl p : same_static p p.
Proof. by repeat split. Qed.

Lemma same_static_trans p q s : same_static p q -> same_static q s -> same_static p s.
Proof.
  unfold same_static. intros (?&?&?&?&?&?&?&?) (?&?&?&?&?&?&?&?).
  repeat split; congruence.
Qed.

Lemma preserves_ret {A : Type} (a : A) : preserves (ret a).
Proof. intros p. apply same_static_refl. Qed.

Lemma preserves_throw {A : Type} (e : error) : preserves (throw (A := A) e).
Proof. intros p. apply same_static_refl. Qed.

Lemma preserves_get : preserves get.
Proof. intros p. apply same_static_refl. Qed.

Lemma preserves_emit ev : preserves (emit ev).
Proof. intros p. apply same_static_refl. Qed.

Lemma preserves_modify f : (forall p, same_static p (f p)) -> preserves (modify f).
Proof. intros H p. apply H. Qed.

Lemma preserves_set_status s : preserves (set_status s).
Proof. apply preserves_modify. intros p. by repeat split. Qed.

Lemma preserves_bind {A B : Type} (m : M A) (k : A -> M B) :
  preserves m -> (forall a, preserves (k a)) -> preserves (bind m k).
Proof.
  intros Hm Hk p. unfold bind. specialize (Hm p).
  destruct (m p) as [[e | a] st evs]; run_M; [done |].
  eapply same_static_trans; [exact Hm | apply Hk].
Qed.

Lemma preserves_discard {A : Type} (m : M A) : preserves m -> preserves (discard m).
Proof. intros Hm p. unfold discard. run_M. apply Hm. Qed.

Ltac preserves_tac :=
  repeat lazymatch goal with
  | |- preserves (bind _ _) => apply preserves_bind; [| intros ?; cbv beta]
  | |- preserves (ret _) => apply preserves_ret
  | |- preserves (throw _) => apply preserves_throw
  | |- preserves get => apply preserves_get
  | |- preserves (emit _) => apply preserves_emit
  | |- preserves (set_status _) => apply preserves_set_status
  | |- preserves (discard _) => apply preserves_discard
  | |- preserves (modify _) => apply preserves_modify; intros ?; by repeat split
  | |- preserves (match ?x with _ => _ end) => destruct x
  end.

Lemma Start_preserves os : preserves (Process_Start os).
Proof. unfold Process_Start. preserves_tac. Qed.

Lemma Stop_preserves : preserves Process_Stop.
Proof. unfold Process_Stop. preserves_tac. Qed.

Lemma killAfter5s_preserves : preserves killAfter5s.
Proof. unfold killAfter5s. preserves_tac. Qed.

Lemma poll_stopped_preserves sleep fuel k :
  (forall j q, same_static q (sleep j q)) ->
  preserves (poll_stopped sleep fuel k).
Proof.
  intros Hsleep. revert k. induction fuel as [| fuel IH]; intros k; cbn.
  - apply preserves_ret.
  - apply preserves_bind; [apply preserves_emit | intros _].
    apply preserves_bind; [apply preserves_modify, Hsleep | intros _].
    apply preserves_bind; [apply preserves_get | intros q].
    case_match; [apply preserves_ret | apply IH].
Qed.

Lemma Restart_preserves sleep os :
  (forall j q, same_static q (sleep j q)) ->
  preserves (Process_Restart sleep os).
Proof.
  intros Hsleep. unfold Process_Restart.
  apply preserves_bind; [apply preserves_get | intros q].
  apply preserves_bind; [| intros _; apply Start_preserves].
  case_match; [| apply preserves_ret].
  apply preserves_bind; [apply Stop_preserves | intros _].
  by apply poll_stopped_preserves.
Qed.

Lemma Start_same_static os p : same_static p (state (Process_Start os p)).
Proof. apply Start_preserves. Qed.

Lemma Stop_same_static p : same_static p (state (Process_Stop p)).
Proof. apply Stop_preserves. Qed.

Lemma Restart_same_static sleep os p :
  (forall j q, same_static q (sleep j q)) ->
  same_static p (state (Process_Restart sleep os p)).
Proof. intros H. by apply Restart_preserves. Qed.

(** *** The reaper *)

Lemma int_wrap_id z : is_int z -> int_wrap z = z.
Proof.
  unfold is_int, int_wrap, int_min, int_max. intros H.
  rewrite Z.mod_small; lia.
Qed.

Lemma counts_ok_static p q : same_static p q -> counts_ok p -> counts_ok q.
Proof.
  unfold same_static, counts_ok. intros (_&_&_&Hm&Hc&_) H. by rewrite Hm, Hc.
Qed.

(** The reaper, as one equation. *)
Lemma waitForExit_eq x p c :
  Process.cmd p = Some c ->
  waitForExit x p =
    let i := Process.info p in
    if ProcessInfo.AutoRestart i && bool_decide (ProcessInfo.Status i = StatusRunning)
       && bool_decide (ProcessInfo.RestartCount i < ProcessInfo.MaxRestarts i)
    then
      let s := Process_Start (exit_start x)
                 (exit_sleep x
                    (Process.upd_info
                       (fun i => ProcessInfo.set_RestartCount
                                   (int_wrap (ProcessInfo.RestartCount i + 1))
                                   (ProcessInfo.set_Status StatusRestarting i))
                       (reaped x p))) in
      mkRes (inr tt) (state s) (exit_log x ++ [EvSleep 1000] ++ events s)
    else
      mkRes (inr tt) (Process.upd_info (ProcessInfo.set_Status StatusStopped) (reaped x p))
            (exit_log x).
Proof.
  intros Hcmd. unfold waitForExit. run_M. rewrite Hcmd. step_M.
  unfold exit_log, reaped. cbv zeta.
  destruct (_ && _ && _); destruct (exit_err x); run_M; reflexivity.
Qed.

(** The two ways out of the reaper, and the condition that picks one. *)
Lemma waitForExit_cases x p c :
  Process.cmd p = Some c ->
  counts_ok p ->
  let i := Process.info p in
  let cond := ProcessInfo.AutoRestart i = true /\
              ProcessInfo.Status i = StatusRunning /\
              ProcessInfo.RestartCount i < ProcessInfo.MaxRestarts i in
  let r := waitForExit x p in
  result r = inr tt /\
  (cond ->
     let s := Process_Start (exit_start x) (exit_sleep x (marked_restarting x p)) in
     state r = state s /\
     events r = exit_log x ++ [EvSleep 1000] ++ events s) /\
  (~ cond ->
     state r = Process.upd_info (ProcessInfo.set_Status StatusStopped) (reaped x p) /\
     events r = exit_log x) /\
  (ProcessInfo.MaxRestarts i = 0 ->
     Process.Status (state r) = StatusStopped /\ events r = exit_log x).
Proof.
  intros Hcmd (Hmax & Hcnt) i cond r.
  assert (Hzero : ProcessInfo.MaxRestarts i = 0 -> ~ cond).
  { intros H0 (_ & _ & Hlt). fold i in Hcnt. lia. }
  assert (Hr : r = waitForExit x p) by reflexivity. clearbody r.
  rewrite (waitForExit_eq x p c Hcmd) in Hr. cbv zeta in Hr. fold i in Hr.
  destruct (ProcessInfo.AutoRestart i) eqn:Ha;
    [destruct (decide (ProcessInfo.Status i = StatusRunning)) as [Hs | Hs];
     [destruct (decide (ProcessInfo.RestartCount i < ProcessInfo.MaxRestarts i))
        as [Hlt | Hlt] | ] | ].
  - (* the restart branch *)
    assert (Hc : cond) by done.
    rewrite !bool_decide_eq_true_2 in Hr by done.
    assert (Hwrap : int_wrap (ProcessInfo.RestartCount i + 1)
                    = ProcessInfo.RestartCount i + 1).
    { apply int_wrap_id. unfold is_int, int_min, int_max in *.
      unfold i in *. lia. }
    assert (Hmark : Process.upd_info
                      (fun i => ProcessInfo.set_RestartCount
                                  (int_wrap (ProcessInfo.RestartCount i + 1))
                                  (ProcessInfo.set_Status StatusRestarting i))
                      (reaped x p)
                    = marked_restarting x p).
    { unfold marked_restarting, reaped. updates. fold i. by rewrite Hwrap. }
    rewrite Hmark in Hr. cbn [andb] in Hr. subst r.
    split; [done |]. split; [done |].
    split; [by intros [] | intros H0; by destruct (Hzero H0)].
  - assert (Hc : ~ cond) by (by intros (_ & _ & ?)).
    rewrite bool_decide_eq_true_2, bool_decide_eq_false_2 in Hr by done.
    cbn [andb] in Hr. subst r.
    split; [done |]. split; [by intros ? |]. done.
  - assert (Hc : ~ cond) by (by intros (_ & ? & _)).
    rewrite bool_decide_eq_false_2 in Hr by done.
    cbn [andb] in Hr. subst r.
    split; [done |]. split; [by intros ? |]. done.
  - assert (Hc : ~ cond) by (by intros (? & _)).
    cbn [andb] in Hr. subst r.
    split; [done |]. split; [by intros ? |]. done.
Qed.

(** C6: when the child of [p] exits, the reaper restarts it if and only if
    auto_restart is set, the status it finds is Running and restart_count is
    below max_restarts.  Then it increments restart_count, sets the status to
    Restarting, sleeps one second and invokes Start; in every other case it
    sets the status to Stopped and starts nothing.  In particular nothing is
    ever restarted when max_restarts is 0. *)
Theorem waitForExit_restart_iff x p c :
  Process.cmd p = Some c ->
  counts_ok p ->
  let i := Process.info p in
  let cond := ProcessInfo.AutoRestart i = true /\
              ProcessInfo.Status i = StatusRunning /\
              ProcessInfo.RestartCount i < ProcessInfo.MaxRestarts i in
  let r := waitForExit x p in
  result r = inr tt /\
  (cond ->
     let s := Process_Start (exit_start x) (exit_sleep x (marked_restarting x p)) in
     state r = state s /\
     events r = exit_log x ++ [EvSleep 1000] ++ events s) /\
  (~ cond ->
     state r = Process.upd_info (ProcessInfo.set_Status StatusStopped) (reaped x p) /\
     events r = exit_log x) /\
  (ProcessInfo.MaxRestarts i = 0 ->
     Process.Status (state r) = StatusStopped /\ events r = exit_log x).
Proof. exact (waitForExit_cases x p c). Qed.

Lemma waitForExit_restart_iff_witness :
  Process.cmd running_process = Some sample_cmd /\
  counts_ok running_process /\
  (ProcessInfo.AutoRestart (Process.info running_process) = true /\
   ProcessInfo.Status (Process.info running_process) = StatusRunning /\
   ProcessInfo.RestartCount (Process.info running_process)
     < ProcessInfo.MaxRestarts (Process.info running_process)) /\
  result (waitForExit exit_status_1 running_process) = inr tt /\
  state (waitForExit exit_status_1 running_process)
    = state (Process_Start os_all_ok (marked_restarting exit_status_1 running_process)).
Proof.
  assert (Hcnt : counts_ok running_process).
  { unfold counts_ok, is_int, int_min, int_max. vm_compute. repeat split; discriminate. }
  assert (Hcond : ProcessInfo.AutoRestart (Process.info running_process) = true /\
                  ProcessInfo.Status (Process.info running_process) = StatusRunning /\
                  ProcessInfo.RestartCount (Process.info running_process)
                    < ProcessInfo.MaxRestarts (Process.info running_process)).
  { vm_compute. repeat split. }
  split; [reflexivity |]. split; [exact Hcnt |]. split; [exact Hcond |].
  destruct (waitForExit_restart_iff exit_status_1 running_process sample_cmd eq_refl Hcnt)
    as (Hres & Hrestart & _).
  split; [exact Hres |]. exact (proj1 (Hrestart Hcond)).
Defined.

Lemma New_counts_ok Join os req logDir proc :
  New Join os req logDir = inr proc ->
  is_int (StartRequest.MaxRestarts req) ->
  counts_ok proc.
Proof.
  unfold New, NewProcessLogger. destruct (new_logger os); [done |].
  intros [= <-] Hint. unfold counts_ok. cbn. split; [done | lia].
Qed.

(** The budget is an invariant of the reaper, which is the only code that
    writes [RestartCount]. *)
Lemma waitForExit_counts_ok x p :
  (forall q, same_static q (exit_sleep x q)) ->
  counts_ok p -> counts_ok (state (waitForExit x p)).
Proof.
  intros Hsleep Hok. destruct (Process.cmd p) as [c |] eqn:Hcmd.
  - destruct (waitForExit_cases x p c Hcmd Hok) as (_ & Hyes & Hno & _).
    set (i := Process.info p) in *.
    destruct (decide (ProcessInfo.AutoRestart i = true /\
                      ProcessInfo.Status i = StatusRunning /\
                      ProcessInfo.RestartCount i < ProcessInfo.MaxRestarts i))
      as [Hc | Hc].
    + destruct (Hyes Hc) as [-> _].
      eapply counts_ok_static; [apply Start_same_static |].
      eapply counts_ok_static; [apply Hsleep |].
      destruct Hok as [Hm Hr]. destruct Hc as (_ & _ & Hlt).
      unfold counts_ok, marked_restarting, reaped. cbn. fold i in Hm, Hr |- *.
      split; [done | lia].
    + destruct (Hno Hc) as [-> _]. exact Hok.
  - unfold waitForExit. run_M. by rewrite Hcmd.
Qed.

(** ** The registry *)

(** Whatever makes a create request fail, the registry is left as it was. *)
Lemma Manager_Start_error_unchanged Join os req w e :
  m_result (Manager_Start Join os req w) = inl e ->
  m_world (Manager_Start Join os req w) = w.
Proof.
  unfold Manager_Start.
  destruct (List.find _ _) as [kv |]; cbn; [done |].
  destruct (New _ _ _ _) as [e1 | proc]; cbn; [done |].
  destruct (result (Process_Start (create_start os) proc)) as [e2 | []] eqn:Hs; cbn; [done |].
  destruct (saveProcesses _ _ _) as [err w2] eqn:Hsave. cbn.
  unfold saveProcesses in Hsave. by destruct (create_save_fail os) as [[? ?] |]; simplify_eq.
Qed.

(** C7: when the inner Start of a create request fails, the registry is left
    as it was: the map has no new entry, processes.json is not written, and
    the error of Start is what the caller gets. *)
Theorem Manager_Start_failed_start Join os req w proc e :
  List.find (fun kv => bool_decide (Process.Name (snd kv) = StartRequest.Name req))
            (range (Manager.processes (manager w)) (create_range os)) = None ->
  New Join (create_new os) req (Manager.logDir (manager w)) = inr proc ->
  result (Process_Start (create_start os) proc) = inl e ->
  let r := Manager_Start Join os req w in
  m_result r = inl e /\
  Manager.processes (manager (m_world r)) = Manager.processes (manager w) /\
  procfile (m_world r) = procfile w /\
  m_world r = w /\
  m_events r = events (Process_Start (create_start os) proc).
Proof.
  intros Hfree Hnew Hstart r. subst r. unfold Manager_Start.
  rewrite Hfree, Hnew, Hstart. cbn. done.
Qed.

Lemma Manager_Start_failed_start_witness :
  New join_slash (create_new create_exec_fails) sample_request
      (Manager.logDir (manager empty_world))
    = inr (Process.mk
             (ProcessInfo.mk "9f8e7d6c" "api" StatusStopped 0 "/bin/sleep" ["60"] "" ∅
                false true 3 0 "" "" 1700000000 None None 0 PrimFloat.zero 0 PrimFloat.zero)
             None false
             (ProcessLogger.mk "9f8e7d6c" "api" "/var/log/gemstone/api-9f8e7d6c")
             [] 1000) /\
  m_result (Manager_Start join_slash create_exec_fails sample_request empty_world)
    = inl (ErrStartProcess (OSError "fork/exec /bin/sleep: no such file or directory")) /\
  m_world (Manager_Start join_slash create_exec_fails sample_request empty_world)
    = empty_world.
Proof.
  split; [reflexivity |].
  pose proof (Manager_Start_failed_start join_slash create_exec_fails sample_request
                empty_world _ _ eq_refl eq_refl eq_refl) as (Hres & _ & _ & Hw & _).
  split; [exact Hres | exact Hw].
Defined.

(** *** Ranging visits every entry once *)

Lemma omap_lookup_keys (m : gmap string Process.t) (l : list (string * Process.t)) :
  (forall k p, (k, p) ∈ l -> m !! k = Some p) ->
  omap (fun k => pair k <$> m !! k) l.*1 = l.
Proof.
  induction l as [| [k p] l IH]; intros H; cbn; [done |].
  rewrite (H k p) by left. cbn. f_equal.
  apply IH. intros k' p' Hin. apply H. by right.
Qed.

Lemma range_perm (m : gmap string Process.t) order :
  visits m order -> range m order ≡ₚ map_to_list m.
Proof.
  unfold visits, range. intros ->.
  rewrite omap_lookup_keys; [done |].
  intros k p. apply elem_of_map_to_list.
Qed.

Lemma range_elem (m : gmap string Process.t) order k p :
  visits m order -> (k, p) ∈ range m order <-> m !! k = Some p.
Proof.
  intros Hv. rewrite (range_perm m order Hv). apply elem_of_map_to_list.
Qed.

Lemma find_none_elem {A : Type} (f : A -> bool) (l : list A) x :
  List.find f l = None -> x ∈ l -> f x = false.
Proof.
  intros H Hin. apply list_elem_of_In in Hin.
  exact (find_none f l H x Hin).
Qed.

Lemma find_some_exists {A : Type} (f : A -> bool) (l : list A) x :
  x ∈ l -> f x = true -> exists y, List.find f l = Some y.
Proof.
  intros Hin Hf. destruct (List.find f l) as [y |] eqn:E; [eauto |].
  rewrite (find_none_elem f l x E Hin) in Hf. discriminate.
Qed.

(** *** The resolver: id first, then name *)

Lemma findProcess_id_first order m idOrName p :
  Manager.processes m !! idOrName = Some p ->
  findProcess order m idOrName = Some (idOrName, p).
Proof. intros H. unfold findProcess. by rewrite H. Qed.

Lemma findProcess_by_name order m idOrName k p :
  Manager.processes m !! idOrName = None ->
  findProcess order m idOrName = Some (k, p) ->
  Manager.processes m !! k = Some p /\ Process.Name p = idOrName.
Proof.
  intros Hid H. split; [by eapply findProcess_lookup |].
  unfold findProcess in H. rewrite Hid in H.
  apply find_elem in H as [_ Hf]. cbn in Hf.
  by apply bool_decide_eq_true_1 in Hf.
Qed.

Lemma findProcess_name_found order m idOrName k p :
  visits (Manager.processes m) order ->
  Manager.processes m !! k = Some p -> Process.Name p = idOrName ->
  exists k' p', findProcess order m idOrName = Some (k', p').
Proof.
  intros Hv Hk Hname. unfold findProcess.
  destruct (Manager.processes m !! idOrName) as [q |]; [eauto |].
  destruct (find_some_exists
              (fun kv => bool_decide (Process.Name (snd kv) = idOrName))
              (range (Manager.processes m) order) (k, p)) as [[k' p'] Hf].
  - by apply range_elem.
  - cbn. by apply bool_decide_eq_true_2.
  - eauto.
Qed.

(** Every operation that goes through [findProcess] acts on the entry whose
    id is the reference, whatever the names of the other entries. *)
Lemma resolved_by_id order m idOrName p :
  Manager.processes m !! idOrName = Some p ->
  (forall w, manager w = m ->
     Manager_Stop order idOrName w = on_entry idOrName (Process_Stop p) w) /\
  (forall w sleep os, manager w = m ->
     Manager_Restart order sleep os idOrName w
       = on_entry idOrName (Process_Restart sleep os p) w) /\
  (forall now probe,
     Manager_Get order now probe idOrName m = Some (Process_Info now probe p)) /\
  (forall now probe,
     Manager_Stats order now probe idOrName m = Process_Stats now probe p) /\
  (forall limit,
     Manager_GetStatsHistory order idOrName limit m
       = Some (Process_GetStatsHistory limit p)) /\
  (forall Join fs lines logType,
     Manager_GetLogs Join fs order idOrName lines logType m
       = GetLogs Join fs (Process.logger p) lines logType).
Proof.
  intros H. pose proof (findProcess_id_first order m idOrName p H) as Hf.
  repeat split; intros;
    unfold Manager_Stop, Manager_Restart, Manager_Get, Manager_Stats,
      Manager_GetStatsHistory, Manager_GetLogs; subst; by rewrite Hf.
Qed.

(** C5, at the failing input: [Delete] does not resolve id first.  With
    "1a2b3c4d" both the id of one entry and the name of another, and the
    runtime visiting the other entry first, [findProcess] resolves the
    reference to the entry with that id while [Delete] removes the entry
    with that name and keeps the one with that id. *)
Theorem Delete_removes_name_match :
  let m := manager shadow_world in
  visits (Manager.processes m) (delete_range delete_deadbeef_first) /\
  findProcess (delete_range delete_deadbeef_first) m "1a2b3c4d"
    = Some ("1a2b3c4d", sample_process StatusStopped) /\
  let r := Manager_Delete delete_deadbeef_first "1a2b3c4d" shadow_world in
  m_result r = inr tt /\
  Manager.processes (manager (m_world r))
    = {[ "1a2b3c4d" := sample_process StatusStopped ]} /\
  Manager.processes (manager (m_world r)) !! "deadbeef" = None.
Proof.
  cbn. split.
  - unfold visits. vm_compute. apply perm_swap.
  - repeat split; reflexivity.
Qed.

(** *** Name uniqueness *)

Lemma New_name Join os req logDir proc :
  New Join os req logDir = inr proc -> Process.Name proc = StartRequest.Name req.
Proof.
  unfold New, NewProcessLogger. destruct (new_logger os); [done |].
  by intros [= <-].
Qed.

Lemma FromConfig_name Join os cfg logDir proc :
  FromConfig Join os cfg logDir = inr proc -> Process.Name proc = ConfigProcess.Name cfg.
Proof.
  unfold FromConfig. destruct (New _ _ _ _) as [e | p] eqn:Hnew; [done |].
  apply New_name in Hnew. cbn in Hnew.
  destruct (decide (ConfigProcess.ID cfg <> "")); by intros [= <-].
Qed.

(** [create] refuses a name that an entry of the map already has. *)
Lemma Manager_Start_name_conflict Join os req w k p :
  visits (Manager.processes (manager w)) (create_range os) ->
  Manager.processes (manager w) !! k = Some p ->
  Process.Name p = StartRequest.Name req ->
  Manager_Start Join os req w = mkMRes (inl (ErrNameExists (StartRequest.Name req))) w [].
Proof.
  intros Hv Hk Hname. unfold Manager_Start.
  destruct (find_some_exists
              (fun kv => bool_decide (Process.Name (snd kv) = StartRequest.Name req))
              (range (Manager.processes (manager w)) (create_range os)) (k, p))
    as [kv ->]; [by apply range_elem | by apply bool_decide_eq_true_2 | done].
Qed.

(** [create] keeps names unique. *)
Lemma Manager_Start_unique_names Join os req w :
  visits (Manager.processes (manager w)) (create_range os) ->
  unique_names (Manager.processes (manager w)) ->
  unique_names (Manager.processes (manager (m_world (Manager_Start Join os req w)))).
Proof.
  intros Hv Huniq. unfold Manager_Start.
  destruct (List.find _ _) as [kv |] eqn:Hfind; cbn; [done |].
  destruct (New _ _ _ _) as [e1 | proc] eqn:Hnew; cbn; [done |].
  destruct (result (Process_Start (create_start os) proc)) as [e2 | []] eqn:Hs; cbn; [done |].
  unfold saveProcesses. set (proc' := state (Process_Start (create_start os) proc)).
  assert (Hname : Process.Name proc' = StartRequest.Name req).
  { destruct (Start_same_static (create_start os) proc) as (_ & Hn & _).
    unfold proc'. rewrite Hn. by eapply New_name. }
  assert (Hfresh : forall k p, Manager.processes (manager w) !! k = Some p ->
                               Process.Name p <> StartRequest.Name req).
  { intros k p Hk Hp.
    pose proof (find_none_elem _ _ (k, p) Hfind) as Hf. cbn in Hf.
    rewrite bool_decide_eq_true_2 in Hf by done.
    discriminate Hf. by apply range_elem. }
  assert (Hgoal : unique_names (<[Process.ID proc' := proc']> (Manager.processes (manager w)))).
  { intros i j p q Hi Hj Hpq.
    apply lookup_insert_Some in Hi as [[<- <-] | [Hne Hi]];
      apply lookup_insert_Some in Hj as [[<- <-] | [Hne' Hj]].
    - done.
    - destruct (Hfresh j q Hj). congruence.
    - destruct (Hfresh i p Hi). congruence.
    - by eapply Huniq. }
  destruct (create_save_fail os) as [[e left_on_disk] |]; cbn; exact Hgoal.
Qed.

Lemma unique_names_insert (ps : gmap string Process.t) k p :
  unique_names ps ->
  (forall i q, ps !! i = Some q -> i <> k -> Process.Name q <> Process.Name p) ->
  unique_names (<[k := p]> ps).
Proof.
  intros Huniq Hfresh i j q1 q2 Hi Hj Hname.
  apply lookup_insert_Some in Hi as [[<- <-] | [Hne Hi]];
    apply lookup_insert_Some in Hj as [[<- <-] | [Hne' Hj]].
  - done.
  - destruct (Hfresh j q2 Hj); congruence.
  - destruct (Hfresh i q1 Hi); congruence.
  - by eapply Huniq.
Qed.

Lemma unique_names_delete (ps : gmap string Process.t) k :
  unique_names ps -> unique_names (delete k ps).
Proof.
  intros Huniq i j p q Hi Hj. apply lookup_delete_Some in Hi as [_ Hi].
  apply lookup_delete_Some in Hj as [_ Hj]. by eapply Huniq.
Qed.

(** A method run on an entry of the map keeps names unique when it keeps the
    entry's name, as [Stop], [Restart] and the reaper do. *)
Lemma on_entry_unique_names {A : Type} k p (r : Res A) w :
  Manager.processes (manager w) !! k = Some p ->
  Process.Name (state r) = Process.Name p ->
  unique_names (Manager.processes (manager w)) ->
  unique_names (Manager.processes (manager (m_world (on_entry k r w)))).
Proof.
  intros Hk Hname Huniq. cbn. apply unique_names_insert; [done |].
  intros i q Hi Hne Heq. apply Hne.
  eapply Huniq; [exact Hi | exact Hk | congruence].
Qed.

Lemma Manager_Stop_unique_names order idOrName w :
  unique_names (Manager.processes (manager w)) ->
  unique_names (Manager.processes (manager (m_world (Manager_Stop order idOrName w)))).
Proof.
  intros Huniq. unfold Manager_Stop.
  destruct (findProcess order (manager w) idOrName) as [[k p] |] eqn:Hf; [| done].
  eapply on_entry_unique_names; [by eapply findProcess_lookup | | done].
  by destruct (Stop_same_static p) as (_ & ? & _).
Qed.

Lemma Manager_Delete_unique_names os idOrName w :
  unique_names (Manager.processes (manager w)) ->
  unique_names (Manager.processes (manager (m_world (Manager_Delete os idOrName w)))).
Proof.
  intros Huniq. unfold Manager_Delete.
  destruct (List.find _ _) as [[id p] |] eqn:Hfind; [| done].
  apply find_elem in Hfind as [Hin _]. apply range_lookup in Hin.
  set (r := if decide (Process.Status p = StatusRunning)
            then Process_Stop p else ret tt p).
  assert (Hname : Process.Name (state r) = Process.Name p).
  { unfold r. destruct (decide (Process.Status p = StatusRunning)); [| done].
    by destruct (Stop_same_static p) as (_ & ? & _). }
  pose proof (on_entry_unique_names id p r w Hin Hname Huniq) as H1.
  destruct (result r) as [e | []]; [done |].
  destruct (decide (id = "")); [done |].
  unfold saveProcesses.
  destruct (delete_save_fail os) as [[e left_on_disk] |]; cbn;
    by apply unique_names_delete.
Qed.

(** Restoring keeps names unique when the definitions in the file carry
    distinct names, as they do in every file the registry has written. *)
Lemma load_loop_unique_names Join news k logDir cfgs (ps : gmap string Process.t) :
  unique_names ps ->
  NoDup (ConfigProcess.Name <$> cfgs) ->
  (forall i p, ps !! i = Some p -> Process.Name p ∉ ConfigProcess.Name <$> cfgs) ->
  unique_names (load_loop Join news k logDir cfgs ps).1.
Proof.
  revert k ps. induction cfgs as [| cfg rest IH]; intros k ps Huniq Hnd Hold; [done |].
  rewrite fmap_cons in Hnd, Hold. apply NoDup_cons in Hnd as [Hcfg Hnd].
  cbn [load_loop].
  destruct (FromConfig Join (news k) cfg logDir) as [e | proc] eqn:Hfc.
  - assert (IH' : unique_names (load_loop Join news (S k) logDir rest ps).1).
    { apply IH; [done | done |]. intros i p Hi Hin.
      apply (Hold i p Hi). by right. }
    by destruct (load_loop Join news (S k) logDir rest ps).
  - apply FromConfig_name in Hfc. apply IH; [| done |].
    + apply unique_names_insert; [done |]. intros i q Hi _ Heq.
      apply (Hold i q Hi). rewrite Heq, Hfc. by left.
    + intros i p Hi Hin.
      apply lookup_insert_Some in Hi as [[<- <-] | [Hne Hi]].
      * rewrite Hfc in Hin. done.
      * apply (Hold i p Hi). by right.
Qed.

Lemma NewManager_unique_names Join news dataDir logDir cfgs :
  NoDup (ConfigProcess.Name <$> cfgs) ->
  unique_names
    (Manager.processes
       (manager (m_world (NewManager Join None news dataDir logDir (Configs cfgs))))).
Proof.
  intros Hnd. unfold NewManager, loadProcesses. cbn.
  pose proof (load_loop_unique_names Join news 0 logDir cfgs ∅) as H.
  destruct (load_loop Join news 0 logDir cfgs ∅) as [ps evs]. cbn in *.
  apply H; [| done |]; intros ? *; by rewrite lookup_empty.
Qed.

(** C3, at the failing input: restoring processes.json does not check names.
    Booting on a file with two definitions named "web" succeeds and leaves
    two entries of the map with the same name, which [create] would never
    allow. *)
Theorem loadProcesses_duplicate_names :
  let ps := Manager.processes (manager (m_world boot_twice_web)) in
  m_result boot_twice_web = inr tt /\
  (exists p q,
     ps !! "1a2b3c4d" = Some p /\ ps !! "5e6f7a8b" = Some q /\
     Process.Name p = "web" /\ Process.Name q = "web") /\
  ~ unique_names ps.
Proof.
  cbn. split; [reflexivity |]. split.
  - eexists _, _. repeat split; reflexivity.
  - intros H.
    specialize (H "1a2b3c4d" "5e6f7a8b" _ _ eq_refl eq_refl eq_refl).
    discriminate H.
Qed.

(** ** Sample rings *)

Lemma keep_last_suffix_of {A : Type} (cap : Z) (s : list A) :
  keep_last cap s `suffix_of` s.
Proof. apply suffix_drop. Qed.

Lemma keep_last_len {A : Type} (cap : Z) (s : list A) :
  0 <= cap -> len (keep_last cap s) = Z.min cap (len s).
Proof.
  intros H. unfold keep_last, len. rewrite length_drop. lia.
Qed.

Lemma keep_last_short {A : Type} (cap : Z) (s : list A) :
  len s <= cap -> keep_last cap s = s.
Proof.
  intros H. unfold keep_last.
  replace (Z.to_nat (len s - cap)) with 0%nat by lia. done.
Qed.

Lemma ring_ok_static p q : same_static p q -> ring_ok p -> ring_ok q.
Proof.
  unfold same_static, ring_ok. intros (_&_&_&_&_&_&Hh&Hm) H. by rewrite Hh, Hm.
Qed.

Lemma CollectStats_sample now probe p stats :
  0 <= Process.maxHistory p ->
  Process_Stats now probe p = Some stats ->
  Process_CollectStats now probe p
    = mkRes (inr tt)
        (Process.set_statsHistory
           (keep_last (Process.maxHistory p) (Process.statsHistory p ++ [stats])) p)
        [].
Proof.
  intros Hcap Hs. unfold Process_CollectStats. run_M. rewrite Hs. cbn.
  set (h := Process.statsHistory p ++ [stats]).
  pose proof (len_nonneg h) as Hh.
  destruct (decide (len h > Process.maxHistory p)) as [Hbig | Hsmall]; cbn.
  - rewrite slice_from_Some by lia. cbn.
    destruct p; reflexivity.
  - rewrite keep_last_short by lia. destruct p; reflexivity.
Qed.

Lemma CollectStats_idle now probe p :
  Process_Stats now probe p = None ->
  Process_CollectStats now probe p = mkRes (inr tt) p [].
Proof. intros Hs. unfold Process_CollectStats. run_M. by rewrite Hs. Qed.

Lemma CollectStats_ring_ok now probe p :
  ring_ok p ->
  result (Process_CollectStats now probe p) = inr tt /\
  ring_ok (state (Process_CollectStats now probe p)).
Proof.
  intros [Hcap Hlen].
  destruct (Process_Stats now probe p) as [stats |] eqn:Hs.
  - rewrite (CollectStats_sample now probe p stats) by (done || lia).
    cbn. split; [done |]. split; [done |]. cbn.
    rewrite keep_last_len by lia. lia.
  - rewrite CollectStats_idle by done. by repeat split.
Qed.

Lemma CollectAllStats_loop_rings now probe order ps :
  map_Forall (fun _ p => ring_ok p) ps ->
  exists ps', CollectAllStats_loop now probe order ps = inr ps' /\
              map_Forall (fun _ p => ring_ok p) ps'.
Proof.
  revert ps. induction order as [| k rest IH]; intros ps Hok; cbn; [eauto |].
  destruct (ps !! k) as [p |] eqn:Hk; [| by apply IH].
  destruct (decide (Process.Status p = StatusRunning)); [| by apply IH].
  destruct (CollectStats_ring_ok (now k) probe p (Hok k p Hk)) as [-> Hring].
  apply IH. by apply map_Forall_insert_2.
Qed.

Lemma Collector_collect_rings os c m :
  collector_ok c -> rings_ok m ->
  exists c' m',
    Collector_collect os c m = inr (c', m') /\
    Collector.systemStats c'
      = keep_last 1000 (Collector.systemStats c
                          ++ [collectSystemStats (tick_now os) (tick_host os)]) /\
    collector_ok c' /\ rings_ok m'.
Proof.
  intros [Hcap Hlen] Hm. unfold Collector_collect, Manager_CollectAllStats.
  destruct (CollectAllStats_loop_rings (tick_proc_now os) (tick_probe os)
              (tick_range os) (Manager.processes m) Hm) as (ps' & -> & Hps').
  set (h := Collector.systemStats c ++ [collectSystemStats (tick_now os) (tick_host os)]).
  pose proof (len_nonneg h) as Hh. rewrite Hcap.
  assert (Hkeep : len (keep_last 1000 h) <= 1000) by (rewrite keep_last_len; lia).
  destruct (decide (len h > 1000)) as [Hbig | Hsmall].
  - rewrite slice_from_Some by lia. eexists _, _. split; [done |].
    split; [done |]. split; [| done]. split; [done | exact Hkeep].
  - eexists _, _. split; [done |]. cbn.
    rewrite keep_last_short by lia. split; [done |]. split; [| done].
    split; cbn; [done | lia].
Qed.

Lemma collect_ticks_rings between k ticks c m :
  (forall j m', rings_ok m' -> rings_ok (between j m')) ->
  collector_ok c -> rings_ok m ->
  exists c' m',
    collect_ticks between k ticks c m = inr (c', m') /\
    collector_ok c' /\ rings_ok m'.
Proof.
  intros Hbetween. revert k c m.
  induction ticks as [| os rest IH]; intros k c m Hc Hm; cbn; [eauto |].
  destruct (Collector_collect_rings os c m Hc Hm) as (c1 & m1 & -> & _ & Hc1 & Hm1).
  apply IH; [done |]. by apply Hbetween.
Qed.

(** Rings start empty with capacity 1000, and no registry operation other
    than the collector's tick writes to them. *)
Lemma NewCollector_ok : collector_ok NewCollector.
Proof. unfold collector_ok, len. cbn. lia. Qed.

Lemma New_ring_ok Join os req logDir proc :
  New Join os req logDir = inr proc -> ring_ok proc.
Proof.
  unfold New, NewProcessLogger. destruct (new_logger os); [done |].
  intros [= <-]. unfold ring_ok, len. cbn. lia.
Qed.

Lemma FromConfig_ring_ok Join os cfg logDir proc :
  FromConfig Join os cfg logDir = inr proc -> ring_ok proc.
Proof.
  unfold FromConfig. destruct (New _ _ _ _) as [e | p] eqn:Hnew; [done |].
  apply New_ring_ok in Hnew.
  destruct (decide (ConfigProcess.ID cfg <> "")); by intros [= <-].
Qed.

Lemma on_entry_rings_ok {A : Type} k (r : Res A) w :
  ring_ok (state r) -> rings_ok (manager w) ->
  rings_ok (manager (m_world (on_entry k r w))).
Proof. intros Hr Hm. unfold rings_ok. cbn. by apply map_Forall_insert_2. Qed.

Lemma Manager_Start_rings_ok Join os req w :
  rings_ok (manager w) ->
  rings_ok (manager (m_world (Manager_Start Join os req w))).
Proof.
  intros Hm. unfold Manager_Start.
  destruct (List.find _ _) as [kv |]; cbn; [done |].
  destruct (New _ _ _ _) as [e1 | proc] eqn:Hnew; cbn; [done |].
  destruct (result (Process_Start (create_start os) proc)) as [e2 | []] eqn:Hs; cbn; [done |].
  unfold saveProcesses.
  assert (Hgoal : map_Forall (fun _ p => ring_ok p)
            (<[Process.ID (state (Process_Start (create_start os) proc))
               := state (Process_Start (create_start os) proc)]>
               (Manager.processes (manager w)))).
  { apply map_Forall_insert_2; [| done].
    eapply ring_ok_static; [apply Start_same_static |]. by eapply New_ring_ok. }
  destruct (create_save_fail os) as [[e left_on_disk] |]; cbn; exact Hgoal.
Qed.

Lemma Manager_Stop_rings_ok order idOrName w :
  rings_ok (manager w) ->
  rings_ok (manager (m_world (Manager_Stop order idOrName w))).
Proof.
  intros Hm. unfold Manager_Stop.
  destruct (findProcess order (manager w) idOrName) as [[k p] |] eqn:Hf; [| done].
  apply on_entry_rings_ok; [| done].
  eapply ring_ok_static; [apply Stop_same_static |].
  apply findProcess_lookup in Hf. by apply (Hm k p).
Qed.

Lemma Manager_Restart_rings_ok order sleep os idOrName w :
  (forall j q, same_static q (sleep j q)) ->
  rings_ok (manager w) ->
  rings_ok (manager (m_world (Manager_Restart order sleep os idOrName w))).
Proof.
  intros Hsleep Hm. unfold Manager_Restart.
  destruct (findProcess order (manager w) idOrName) as [[k p] |] eqn:Hf; [| done].
  apply on_entry_rings_ok; [| done].
  eapply ring_ok_static; [by apply Restart_same_static |].
  apply findProcess_lookup in Hf. by apply (Hm k p).
Qed.

Lemma load_loop_rings_ok Join news k logDir cfgs ps :
  map_Forall (fun _ p => ring_ok p) ps ->
  map_Forall (fun _ p => ring_ok p) (load_loop Join news k logDir cfgs ps).1.
Proof.
  revert k ps. induction cfgs as [| cfg rest IH]; intros k ps Hps; cbn; [done |].
  destruct (FromConfig Join (news k) cfg logDir) as [e | proc] eqn:Hfc.
  - specialize (IH (S k) ps Hps).
    by destruct (load_loop Join news (S k) logDir rest ps).
  - apply IH. apply map_Forall_insert_2; [| done]. by eapply FromConfig_ring_ok.
Qed.

Lemma NewManager_rings_ok Join mkdir news dataDir logDir file :
  rings_ok (manager (m_world (NewManager Join mkdir news dataDir logDir file))).
Proof.
  unfold NewManager, rings_ok.
  destruct mkdir as [[dir e] |]; cbn; [apply map_Forall_empty |].
  unfold loadProcesses. cbn.
  destruct file as [| e | e | cfgs | cfgs]; cbn; try apply map_Forall_empty.
  - pose proof (load_loop_rings_ok Join news 0 logDir cfgs ∅ (map_Forall_empty _)) as H.
    by destruct (load_loop Join news 0 logDir cfgs ∅).
  - pose proof (load_loop_rings_ok Join news 0 logDir cfgs ∅ (map_Forall_empty _)) as H.
    by destruct (load_loop Join news 0 logDir cfgs ∅).
Qed.

Lemma Manager_Delete_rings_ok os idOrName w :
  rings_ok (manager w) ->
  rings_ok (manager (m_world (Manager_Delete os idOrName w))).
Proof.
  intros Hm. unfold Manager_Delete.
  destruct (List.find _ _) as [[id p] |] eqn:Hfind; [| done].
  apply find_elem in Hfind as [Hin _]. apply range_lookup in Hin.
  set (r := if decide (Process.Status p = StatusRunning)
            then Process_Stop p else ret tt p).
  assert (Hr : ring_ok (state r)).
  { unfold r. destruct (decide (Process.Status p = StatusRunning)).
    - eapply ring_ok_static; [apply Stop_same_static | by apply (Hm id p)].
    - by apply (Hm id p). }
  pose proof (on_entry_rings_ok id r w Hr Hm) as H1.
  destruct (result r) as [e | []]; [done |].
  destruct (decide (id = "")); [done |].
  unfold saveProcesses, rings_ok.
  destruct (delete_save_fail os) as [[e left_on_disk] |]; cbn;
    by apply map_Forall_delete.
Qed.

(** The reaper and the kill timer leave the ring alone as well. *)
Lemma waitForExit_ring_ok x p :
  (forall q, same_static q (exit_sleep x q)) ->
  ring_ok p -> ring_ok (state (waitForExit x p)).
Proof.
  intros Hsleep Hok. destruct (Process.cmd p) as [c |] eqn:Hcmd.
  - rewrite (waitForExit_eq x p c Hcmd). cbv zeta.
    destruct (_ && _ && _); cbn [state]; [| done].
    eapply ring_ok_static; [apply Start_same_static |].
    eapply ring_ok_static; [apply Hsleep |]. done.
  - unfold waitForExit. run_M. by rewrite Hcmd.
Qed.

Lemma killAfter5s_ring_ok p : ring_ok p -> ring_ok (state (killAfter5s p)).
Proof. apply ring_ok_static, killAfter5s_preserves. Qed.

(** C8: neither ring ever holds more than 1000 entries.  A sample appended
    by [CollectStats] or by [collect] goes to the end and, beyond capacity,
    what is dropped is the front, the oldest entries; along any run of
    collection ticks, with any registry operations in between, the host
    ring and the ring of every process in the registry stay within 1000. *)
Theorem stats_rings_never_exceed_1000 :
  (forall now probe p stats,
     ring_ok p -> Process_Stats now probe p = Some stats ->
     let r := Process_CollectStats now probe p in
     result r = inr tt /\
     Process.statsHistory (state r) = keep_last 1000 (Process.statsHistory p ++ [stats]) /\
     Process.statsHistory (state r) `suffix_of` (Process.statsHistory p ++ [stats]) /\
     len (Process.statsHistory (state r)) <= 1000) /\
  (forall os c m,
     collector_ok c -> rings_ok m ->
     exists c' m',
       Collector_collect os c m = inr (c', m') /\
       let grown := Collector.systemStats c
                      ++ [collectSystemStats (tick_now os) (tick_host os)] in
       Collector.systemStats c' = keep_last 1000 grown /\
       Collector.systemStats c' `suffix_of` grown /\
       len (Collector.systemStats c') <= 1000) /\
  (forall between k ticks c m,
     (forall j m', rings_ok m' -> rings_ok (between j m')) ->
     collector_ok c -> rings_ok m ->
     exists c' m',
       collect_ticks between k ticks c m = inr (c', m') /\
       len (Collector.systemStats c') <= 1000 /\
       forall key p, Manager.processes m' !! key = Some p ->
                     len (Process.statsHistory p) <= 1000).
Proof.
  split; [| split].
  - intros now probe p stats [Hcap Hlen] Hs r. subst r.
    rewrite (CollectStats_sample now probe p stats) by (done || lia).
    rewrite Hcap. cbn. split; [done |]. split; [done |].
    split; [apply keep_last_suffix_of |]. rewrite keep_last_len by lia. lia.
  - intros os c m Hc Hm.
    destruct (Collector_collect_rings os c m Hc Hm) as (c' & m' & Hrun & Heq & [_ Hlen] & _).
    exists c', m'. split; [done |]. cbn. split; [done |].
    split; [| done]. rewrite Heq. apply keep_last_suffix_of.
  - intros between k ticks c m Hb Hc Hm.
    destruct (collect_ticks_rings between k ticks c m Hb Hc Hm)
      as (c' & m' & Hrun & [_ Hlen] & Hm').
    exists c', m'. split; [done |]. split; [done |].
    intros key p Hkey. by destruct (Hm' key p Hkey).
Qed.

Lemma stats_rings_never_exceed_1000_witness :
  (forall j m', rings_ok m' -> rings_ok (create_between j m')) /\
  collector_ok NewCollector /\
  rings_ok (manager empty_world) /\
  exists c' m',
    collect_ticks create_between 0 [tick_0; tick_0; tick_0] NewCollector (manager empty_world)
      = inr (c', m') /\
    len (Collector.systemStats c') <= 1000 /\
    forall key p, Manager.processes m' !! key = Some p ->
                  len (Process.statsHistory p) <= 1000.
Proof.
  assert (Hb : forall j m', rings_ok m' -> rings_ok (create_between j m')).
  { intros j m' H. unfold create_between. destruct j as [| j]; [| exact H].
    exact (Manager_Start_rings_ok join_slash create_ok sample_request (mkWorld m' NoFile) H). }
  assert (He : rings_ok (manager empty_world)) by apply map_Forall_empty.
  split; [exact Hb |]. split; [exact NewCollector_ok |]. split; [exact He |].
  exact (proj2 (proj2 stats_rings_never_exceed_1000) create_between 0%nat
           [tick_0; tick_0; tick_0] NewCollector (manager empty_world)
           Hb NewCollector_ok He).
Defined.

(** * Further properties *)

(** ** History reads *)

(** X1: [GetStatsHistory] and [GetSystemStatsHistory] return the newest
    entries of their ring, in order: [limit] of them when [limit] is positive
    and the ring holds more, the whole ring otherwise (also for a zero or
    negative [limit]). *)
Theorem history_reads_newest limit p c :
  let h := Process.statsHistory p in
  let s := Collector.systemStats c in
  Process_GetStatsHistory limit p `suffix_of` h /\
  len (Process_GetStatsHistory limit p)
    = (if decide (0 < limit) then Z.min limit (len h) else len h) /\
  Collector_GetSystemStatsHistory limit c `suffix_of` s /\
  len (Collector_GetSystemStatsHistory limit c)
    = (if decide (0 < limit) then Z.min limit (len s) else len s).
Proof.
  intros h s. unfold Process_GetStatsHistory, Collector_GetSystemStatsHistory.
  fold h s. pose proof (len_nonneg h) as Hh. pose proof (len_nonneg s) as Hs.
  repeat split.
  - case_decide; [done | apply suffix_drop].
  - destruct (decide (limit <= 0 \/ limit > len h)); case_decide;
      rewrite ?len_drop by lia; lia.
  - case_decide; [done | apply suffix_drop].
  - destruct (decide (limit <= 0 \/ limit > len s)); case_decide;
      rewrite ?len_drop by lia; lia.
Qed.

(** ** What Start launches and whom Stop signals *)

Lemma Stop_running p :
  Process.Status p = StatusRunning ->
  Process_Stop p =
    mkRes (inr tt)
      (Process.upd_info (ProcessInfo.set_Status StatusStopping) p)
      ((if Process.cancel p then [EvCancel] else []) ++
       match Process.cmd p with
       | Some c => [EvKill (- cmd_Pid c) SIGTERM; EvGo (GoKillAfter5s (cmd_Pid c))]
       | None => []
       end).
Proof.
  intros Hst. unfold Process_Stop. run_M.
  rewrite decide_False by (by intros []).
  destruct (Process.cancel p), (Process.cmd p); reflexivity.
Qed.

(** [Start], when it succeeds, has launched exactly the command built from
    the definition; when it fails, it has launched nothing. *)
Lemma Start_launch os p :
  Process.Status p <> StatusRunning ->
  let r := Process_Start os p in
  match result r with
  | inl _ => events r = []
  | inr _ =>
      exists cred pid,
        os_cmdStart os = inr pid /\
        (ProcessInfo.User (Process.info p) = "" -> cred = None) /\
        (ProcessInfo.User (Process.info p) <> "" ->
           exists cr, cred = Some cr /\
             getUserCredentials (os_users os) (ProcessInfo.User (Process.info p))
               (ProcessInfo.Group (Process.info p)) = inr cr) /\
        Process.cmd (state r) = Some (built_cmd os p cred pid) /\
        events r = start_events (built_cmd os p cred pid) /\
        Process.Status (state r) = StatusRunning /\
        ProcessInfo.PID (Process.info (state r)) = pid /\
        ProcessInfo.StartedAt (Process.info (state r)) = Some (os_now os) /\
        ProcessInfo.StoppedAt (Process.info (state r)) = None
  end.
Proof.
  intros Hst r. subst r. unfold Process_Start, built_cmd, start_events.
  unfold Process.Status in Hst. run_M.
  rewrite decide_False by done.
  destruct (decide (ProcessInfo.User (Process.info p) <> "")) as [Hu | Hu].
  - destruct (getUserCredentials _ _ _) as [e | cred] eqn:Hc; [by step_M |].
    destruct (os_StdoutPipe os) as [e1 |]; [by step_M |].
    destruct (os_StderrPipe os) as [e2 |]; [by step_M |].
    destruct (os_cmdStart os) as [e3 | pid]; [by step_M |].
    step_M. exists (Some cred), pid. repeat split; [done | eauto].
  - destruct (os_StdoutPipe os) as [e1 |]; [by step_M |].
    destruct (os_StderrPipe os) as [e2 |]; [by step_M |].
    destruct (os_cmdStart os) as [e3 | pid]; [by step_M |].
    step_M. exists None, pid. repeat split; done.
Qed.

Lemma Start_sets_cancel os p :
  Process.Status p <> StatusRunning ->
  Process.cancel (state (Process_Start os p)) = true.
Proof.
  intros Hst. unfold Process_Start. unfold Process.Status in Hst. run_M.
  rewrite decide_False by done.
  destruct (decide (ProcessInfo.User (Process.info p) <> "")) as [Hu | Hu].
  - destruct (getUserCredentials _ _ _) as [e | cred]; [by step_M |].
    destruct (os_StdoutPipe os) as [e1 |]; [by step_M |].
    destruct (os_StderrPipe os) as [e2 |]; [by step_M |].
    destruct (os_cmdStart os) as [e3 | pid]; by step_M.
  - destruct (os_StdoutPipe os) as [e1 |]; [by step_M |].
    destruct (os_StderrPipe os) as [e2 |]; [by step_M |].
    destruct (os_cmdStart os) as [e3 | pid]; by step_M.
Qed.

(** X2: every child [Start] launches is put in a process group of its own
    ([Setpgid]), is made from the command of the definition with the
    definition's arguments, and carries credentials exactly when a user is
    set.  [Stop] of a Running process first cancels the context the command
    was made with, on which os/exec kills the child itself, and only then
    calls [syscall.Kill], once, with SIGTERM on the negative pid of the
    command on record, and launches the kill timer; a process that [Start]
    has launched always has such a context, so its [Stop] always cancels
    first.  Every [syscall.Kill] of [Stop] and of its kill timer goes to
    the negative pid of the command on record, SIGTERM from [Stop] and
    SIGKILL from the timer, which sends it only while the status is
    Stopping. *)
Theorem children_grouped_signals_to_group :
  (forall os p c,
     EvExec c ∈ events (Process_Start os p) ->
     Setpgid (cmd_SysProcAttr c) = true /\
     cmd_Name c = ProcessInfo.Command (Process.info p) /\
     cmd_Args c = ProcessInfo.Command (Process.info p) :: ProcessInfo.Args (Process.info p) /\
     (attr_Credential (cmd_SysProcAttr c) = None <->
      ProcessInfo.User (Process.info p) = "") /\
     Process.cmd (state (Process_Start os p)) = Some c /\
     events (Process_Stop (state (Process_Start os p)))
       = [EvCancel; EvKill (- cmd_Pid c) SIGTERM; EvGo (GoKillAfter5s (cmd_Pid c))]) /\
  (forall p,
     Process.Status p = StatusRunning ->
     events (Process_Stop p)
       = (if Process.cancel p then [EvCancel] else []) ++
         match Process.cmd p with
         | Some c => [EvKill (- cmd_Pid c) SIGTERM; EvGo (GoKillAfter5s (cmd_Pid c))]
         | None => []
         end) /\
  (forall p target sig,
     EvKill target sig ∈ events (Process_Stop p) ->
     sig = SIGTERM /\ exists c, Process.cmd p = Some c /\ target = - cmd_Pid c) /\
  (forall p target sig,
     EvKill target sig ∈ events (killAfter5s p) ->
     sig = SIGKILL /\ Process.Status p = StatusStopping /\
     exists c, Process.cmd p = Some c /\ target = - cmd_Pid c).
Proof.
  split; [| split; [| split]].
  - intros os p c Hin.
    destruct (decide (Process.Status p = StatusRunning)) as [Hrun | Hrun].
    { rewrite (Start_running os p Hrun) in Hin. cbn in Hin. by apply elem_of_nil in Hin. }
    pose proof (Start_launch os p Hrun) as H. cbv zeta in H.
    pose proof (Start_sets_cancel os p Hrun) as Hcancel.
    destruct (result (Process_Start os p)) as [e | []].
    + rewrite H in Hin. by apply elem_of_nil in Hin.
    + destruct H as (cred & pid & _ & Hnone & Hsome & Hcmd & Hev & Hst & _).
      rewrite Hev in Hin. unfold start_events in Hin.
      apply elem_of_cons in Hin as [Heq | Hin].
      * injection Heq as ->.
        split; [done |]. split; [done |]. split; [done |]. split; [| split].
        -- unfold built_cmd. cbn. split.
           ++ intros ->. destruct (decide (ProcessInfo.User (Process.info p) = ""));
                [done |]. by destruct (Hsome n) as (? & ? & _).
           ++ apply Hnone.
        -- done.
        -- rewrite (Stop_running _ Hst), Hcmd, Hcancel. reflexivity.
      * repeat (apply elem_of_cons in Hin as [Heq | Hin]; [discriminate Heq |]).
        by apply elem_of_nil in Hin.
  - intros p Hrun. by rewrite (Stop_running p Hrun).
  - intros p target sig Hin.
    destruct (decide (Process.Status p = StatusRunning)) as [Hrun | Hrun].
    + rewrite (Stop_running p Hrun) in Hin. cbn [events] in Hin.
      apply elem_of_app in Hin as [Hin | Hin].
      { destruct (Process.cancel p).
        - apply elem_of_cons in Hin as [Heq | Hin]; [discriminate Heq |].
          by apply elem_of_nil in Hin.
        - by apply elem_of_nil in Hin. }
      destruct (Process.cmd p) as [c |]; [| by apply elem_of_nil in Hin].
      apply elem_of_cons in Hin as [Heq | Hin].
      * injection Heq as -> ->. eauto.
      * apply elem_of_cons in Hin as [Heq | Hin]; [discriminate Heq |].
        by apply elem_of_nil in Hin.
    + rewrite (Stop_not_running p Hrun) in Hin. cbn in Hin.
      by apply elem_of_nil in Hin.
  - intros p target sig Hin. unfold killAfter5s in Hin. run_M.
    cbn [bind emit get ret result state events app] in Hin.
    destruct (decide (Process.Status p = StatusStopping)) as [Hst | Hst];
      [destruct (Process.cmd p) as [c |] |]; cbn in Hin.
    + apply elem_of_cons in Hin as [Heq | Hin]; [discriminate Heq |].
      apply elem_of_cons in Hin as [Heq | Hin]; [| by apply elem_of_nil in Hin].
      injection Heq as -> ->. eauto.
    + apply elem_of_cons in Hin as [Heq | Hin]; [discriminate Heq |].
      by apply elem_of_nil in Hin.
    + apply elem_of_cons in Hin as [Heq | Hin]; [discriminate Heq |].
      by apply elem_of_nil in Hin.
Qed.

Lemma children_grouped_signals_to_group_witness :
  EvExec sample_cmd ∈ events (Process_Start os_all_ok (sample_process StatusStopped)) /\
  Setpgid (cmd_SysProcAttr sample_cmd) = true /\
  events (Process_Stop running_process)
    = [EvCancel; EvKill (-4242) SIGTERM; EvGo (GoKillAfter5s 4242)] /\
  EvKill (-4242) SIGTERM ∈ events (Process_Stop running_process) /\
  (exists c, Process.cmd running_process = Some c /\ -4242 = - cmd_Pid c) /\
  EvKill (-4242) SIGKILL ∈ events (killAfter5s stopping_process) /\
  Process.Status stopping_process = StatusStopping.
Proof.
  assert (H1 : EvExec sample_cmd
                 ∈ events (Process_Start os_all_ok (sample_process StatusStopped)))
    by (vm_compute; left).
  assert (H2 : EvKill (-4242) SIGTERM ∈ events (Process_Stop running_process))
    by (vm_compute; right; left).
  assert (H3 : EvKill (-4242) SIGKILL ∈ events (killAfter5s stopping_process))
    by (vm_compute; right; left).
  destruct children_grouped_signals_to_group as (Hstart & _ & Hstop & Hkill).
  split; [exact H1 |].
  split; [exact (proj1 (Hstart _ _ _ H1)) |].
  split; [exact (proj2 (proj2 (proj2 (proj2 (proj2 (Hstart _ _ _ H1)))))) |].
  split; [exact H2 |].
  split; [exact (proj2 (Hstop _ _ _ H2)) |].
  split; [exact H3 |].
  exact (proj1 (proj2 (Hkill _ _ _ H3))).
Defined.

(** ** What no method of a process changes *)

Lemma keeps_ret {A B : Type} (f : Process.t -> B) (a : A) : keeps f (ret a).
Proof. by intros p. Qed.

Lemma keeps_throw {A B : Type} (f : Process.t -> B) (e : error) :
  keeps f (throw (A := A) e).
Proof. by intros p. Qed.

Lemma keeps_get {B : Type} (f : Process.t -> B) : keeps f get.
Proof. by intros p. Qed.

Lemma keeps_emit {B : Type} (f : Process.t -> B) ev : keeps f (emit ev).
Proof. by intros p. Qed.

Lemma keeps_modify {B : Type} (f : Process.t -> B) g :
  (forall p, f (g p) = f p) -> keeps f (modify g).
Proof. intros H p. apply H. Qed.

Lemma keeps_bind {A B C : Type} (f : Process.t -> C) (m : M A) (k : A -> M B) :
  keeps f m -> (forall a, keeps f (k a)) -> keeps f (bind m k).
Proof.
  intros Hm Hk p. unfold bind. specialize (Hm p).
  destruct (m p) as [[e | a] st evs]; run_M; [done |].
  rewrite <- Hm. apply Hk.
Qed.

Lemma keeps_discard {A B : Type} (f : Process.t -> B) (m : M A) :
  keeps f m -> keeps f (discard m).
Proof. intros Hm p. unfold discard. run_M. apply Hm. Qed.

Ltac keeps_tac :=
  repeat lazymatch goal with
  | |- keeps _ (bind _ _) => apply keeps_bind; [| intros ?; cbv beta]
  | |- keeps _ (ret _) => apply keeps_ret
  | |- keeps _ (throw _) => apply keeps_throw
  | |- keeps _ get => apply keeps_get
  | |- keeps _ (emit _) => apply keeps_emit
  | |- keeps _ (discard _) => apply keeps_discard
  | |- keeps _ (set_status _) => unfold set_status
  | |- keeps _ (modify _) => apply keeps_modify; intros ?; reflexivity
  | |- keeps _ (match ?x with _ => _ end) => destruct x
  end.

Lemma Start_keeps_definition os : keeps definition_of (Process_Start os).
Proof. unfold Process_Start. keeps_tac. Qed.

Lemma Stop_keeps_definition : keeps definition_of Process_Stop.
Proof. unfold Process_Stop. keeps_tac. Qed.

Lemma killAfter5s_keeps_definition : keeps definition_of killAfter5s.
Proof. unfold killAfter5s. keeps_tac. Qed.

Lemma CollectStats_keeps_definition now probe :
  keeps definition_of (Process_CollectStats now probe).
Proof. unfold Process_CollectStats. keeps_tac. Qed.

Lemma waitForExit_keeps_definition x :
  (forall q, definition_of (exit_sleep x q) = definition_of q) ->
  keeps definition_of (waitForExit x).
Proof.
  intros Hsleep. unfold waitForExit.
  apply keeps_bind; [apply keeps_get | intros p0].
  destruct (Process.cmd p0); [| apply keeps_ret].
  do 4 (apply keeps_bind; [keeps_tac | intros ?]).
  destruct (_ && _); [| keeps_tac].
  do 3 (apply keeps_bind; [keeps_tac | intros ?]).
  apply keeps_bind; [by apply keeps_modify | intros ?].
  apply keeps_discard, Start_keeps_definition.
Qed.

Lemma poll_stopped_keeps_definition sleep fuel k :
  (forall j q, definition_of (sleep j q) = definition_of q) ->
  keeps definition_of (poll_stopped sleep fuel k).
Proof.
  intros Hsleep. revert k. induction fuel as [| fuel IH]; intros k; cbn [poll_stopped].
  - apply keeps_ret.
  - apply keeps_bind; [apply keeps_emit | intros _].
    apply keeps_bind; [apply keeps_modify, Hsleep | intros _].
    apply keeps_bind; [apply keeps_get | intros q].
    case_match; [apply keeps_ret | apply IH].
Qed.

Lemma Restart_keeps_definition sleep os :
  (forall j q, definition_of (sleep j q) = definition_of q) ->
  keeps definition_of (Process_Restart sleep os).
Proof.
  intros Hsleep. unfold Process_Restart.
  apply keeps_bind; [apply keeps_get | intros q].
  apply keeps_bind; [| intros _; apply Start_keeps_definition].
  case_match; [| apply keeps_ret].
  apply keeps_bind; [apply Stop_keeps_definition | intros _].
  by apply poll_stopped_keeps_definition.
Qed.

(** X3: no method of a process changes its definition (what [ToConfig]
    persists: id, name, command, arguments, directory, environment, the
    auto-start and auto-restart settings, user and group) or its logger:
    not Start, Stop, the kill timer or CollectStats, and not the reaper or
    Restart either, as long as what runs during their sleeps does not. *)
Theorem lifecycle_keeps_definition :
  (forall os p, definition_of (state (Process_Start os p)) = definition_of p) /\
  (forall p, definition_of (state (Process_Stop p)) = definition_of p) /\
  (forall p, definition_of (state (killAfter5s p)) = definition_of p) /\
  (forall now probe p,
     definition_of (state (Process_CollectStats now probe p)) = definition_of p) /\
  (forall x p,
     (forall q, definition_of (exit_sleep x q) = definition_of q) ->
     definition_of (state (waitForExit x p)) = definition_of p) /\
  (forall sleep os p,
     (forall j q, definition_of (sleep j q) = definition_of q) ->
     definition_of (state (Process_Restart sleep os p)) = definition_of p).
Proof.
  split; [intros os; apply Start_keeps_definition |].
  split; [apply Stop_keeps_definition |].
  split; [apply killAfter5s_keeps_definition |].
  split; [intros now probe; apply CollectStats_keeps_definition |].
  split.
  - intros x p H. by apply waitForExit_keeps_definition.
  - intros sleep os p H. by apply Restart_keeps_definition.
Qed.

Lemma lifecycle_keeps_definition_witness :
  (forall q, definition_of (exit_sleep exit_status_1 q) = definition_of q) /\
  definition_of (state (waitForExit exit_status_1 running_process))
    = definition_of running_process /\
  (forall (j : nat) q, definition_of ((fun _ q' => q') j q) = definition_of q) /\
  definition_of (state (Process_Restart (fun _ q => q) os_all_ok running_process))
    = definition_of running_process.
Proof.
  assert (H1 : forall q, definition_of (exit_sleep exit_status_1 q) = definition_of q)
    by reflexivity.
  assert (H2 : forall (j : nat) q,
             definition_of ((fun _ q' => q') j q) = definition_of q) by reflexivity.
  destruct lifecycle_keeps_definition as (_ & _ & _ & _ & Hexit & Hrestart).
  split; [exact H1 |]. split; [exact (Hexit exit_status_1 running_process H1) |].
  split; [exact H2 |].
  exact (Hrestart (fun _ q => q) os_all_ok running_process H2).
Defined.

(** ** The state every method leaves behind *)

Lemma Start_state_inv os p :
  pid_ok os -> state_inv p -> state_inv (state (Process_Start os p)).
Proof.
  intros Hpid Hinv.
  destruct (decide (Process.Status p = StatusRunning)) as [Hrun | Hrun].
  { by rewrite (Start_running os p Hrun). }
  pose proof (Start_launch os p Hrun) as Hl.
  destruct (Start_not_running os p Hrun) as (Herr & _ & _). cbv zeta in Hl, Herr.
  destruct (result (Process_Start os p)) as [e | []].
  - destruct (Herr e eq_refl) as (_ & Hst & _). split; rewrite Hst; discriminate.
  - destruct Hl as (cred & pid & Hos & _ & _ & Hcmd & _ & Hst & Hp & Hsa & Hso).
    split; [| rewrite Hst; discriminate].
    intros _. exists (built_cmd os p cred pid).
    split; [done |]. split; [done |]. split; [by apply Hpid |]. eauto.
Qed.

Lemma Stop_state_inv p : state_inv p -> state_inv (state (Process_Stop p)).
Proof.
  intros Hinv. destruct (decide (Process.Status p = StatusRunning)) as [Hrun | Hrun].
  - rewrite (Stop_running p Hrun). cbn [state]. split; discriminate.
  - by rewrite (Stop_not_running p Hrun).
Qed.

Lemma killAfter5s_state p : state (killAfter5s p) = p.
Proof.
  unfold killAfter5s. run_M.
  destruct (decide (Process.Status p = StatusStopping)); [| done].
  by destruct (Process.cmd p).
Qed.

Lemma state_inv_ext p q :
  Process.info q = Process.info p -> Process.cmd q = Process.cmd p ->
  state_inv p -> state_inv q.
Proof.
  unfold state_inv, Process.Status. intros Hi Hc. by rewrite Hi, Hc.
Qed.

Lemma CollectStats_keeps_info_cmd now probe :
  keeps (fun p => (Process.info p, Process.cmd p)) (Process_CollectStats now probe).
Proof. unfold Process_CollectStats. keeps_tac. Qed.

Lemma CollectStats_state_inv now probe p :
  state_inv p -> state_inv (state (Process_CollectStats now probe p)).
Proof.
  pose proof (CollectStats_keeps_info_cmd now probe p) as H. cbv beta in H.
  injection H as Hi Hc. by apply state_inv_ext.
Qed.

Lemma waitForExit_state_inv x p :
  pid_ok (exit_start x) ->
  (forall q, state_inv q -> state_inv (exit_sleep x q)) ->
  state_inv p -> state_inv (state (waitForExit x p)).
Proof.
  intros Hpid Hsleep Hinv. destruct (Process.cmd p) as [c |] eqn:Hcmd.
  - rewrite (waitForExit_eq x p c Hcmd). cbv zeta.
    destruct (_ && _ && _); cbn [state].
    + apply Start_state_inv; [done |]. apply Hsleep. split; discriminate.
    + split; [discriminate | done].
  - unfold waitForExit. run_M. by rewrite Hcmd.
Qed.

Lemma keeps_inv_bind {A B : Type} (m : M A) (k : A -> M B) :
  keeps_inv m -> (forall a, keeps_inv (k a)) -> keeps_inv (bind m k).
Proof.
  intros Hm Hk p Hinv. unfold bind. specialize (Hm p Hinv).
  destruct (m p) as [[e | a] st evs]; run_M; [done |]. by apply Hk.
Qed.

Lemma poll_stopped_state_inv sleep fuel k :
  (forall j q, state_inv q -> state_inv (sleep j q)) ->
  keeps_inv (poll_stopped sleep fuel k).
Proof.
  intros Hsleep. revert k. induction fuel as [| fuel IH]; intros k;
    cbn [poll_stopped]; [by intros p |].
  apply keeps_inv_bind; [by intros p | intros _].
  apply keeps_inv_bind; [intros p; apply Hsleep | intros _].
  apply keeps_inv_bind; [by intros p | intros q].
  case_match; [by intros p | apply IH].
Qed.

Lemma Restart_state_inv sleep os p :
  pid_ok os ->
  (forall j q, state_inv q -> state_inv (sleep j q)) ->
  state_inv p -> state_inv (state (Process_Restart sleep os p)).
Proof.
  intros Hpid Hsleep. revert p. unfold Process_Restart.
  apply keeps_inv_bind; [by intros p | intros q].
  apply keeps_inv_bind; [| intros _ p; by apply Start_state_inv].
  case_match; [| by intros p].
  apply keeps_inv_bind; [intros p; apply Stop_state_inv | intros _].
  by apply poll_stopped_state_inv.
Qed.

Lemma New_state_inv Join os req logDir proc :
  New Join os req logDir = inr proc -> state_inv proc.
Proof.
  unfold New, NewProcessLogger. destruct (new_logger os); [done |].
  intros [= <-]. split; [discriminate | done].
Qed.

(** X4: a process as [New] makes it, and as every method leaves it, is in a
    consistent state: if its status is Running it has a command on record,
    its pid is that command's and is positive, its start time is set and
    its stop time is not; if its status is Stopped its pid is zero.  This
    holds through Start, Stop, Restart, the reaper, the kill timer and
    CollectStats, given positive pids from the operating system and given
    that what runs during the sleeps of Restart and of the reaper keeps it
    too. *)
Theorem methods_keep_state_consistent :
  (forall Join os req logDir proc,
     New Join os req logDir = inr proc -> state_inv proc) /\
  (forall os p, pid_ok os -> state_inv p -> state_inv (state (Process_Start os p))) /\
  (forall p, state_inv p -> state_inv (state (Process_Stop p))) /\
  (forall p, state_inv p -> state_inv (state (killAfter5s p))) /\
  (forall now probe p,
     state_inv p -> state_inv (state (Process_CollectStats now probe p))) /\
  (forall x p,
     pid_ok (exit_start x) ->
     (forall q, state_inv q -> state_inv (exit_sleep x q)) ->
     state_inv p -> state_inv (state (waitForExit x p))) /\
  (forall sleep os p,
     pid_ok os ->
     (forall j q, state_inv q -> state_inv (sleep j q)) ->
     state_inv p -> state_inv (state (Process_Restart sleep os p))).
Proof.
  split; [apply New_state_inv |].
  split; [apply Start_state_inv |].
  split; [apply Stop_state_inv |].
  split; [intros p; by rewrite killAfter5s_state |].
  split; [apply CollectStats_state_inv |].
  split; [apply waitForExit_state_inv | apply Restart_state_inv].
Qed.

Lemma methods_keep_state_consistent_witness :
  pid_ok os_all_ok /\
  state_inv (sample_process StatusStopped) /\
  state_inv running_process /\
  (forall q, state_inv q -> state_inv (exit_sleep exit_status_1 q)) /\
  state_inv (state (waitForExit exit_status_1 running_process)) /\
  state_inv (state (Process_Restart (fun _ q => q) os_all_ok running_process)).
Proof.
  assert (Hpid : pid_ok os_all_ok).
  { intros pid [= <-]. reflexivity. }
  assert (H0 : state_inv (sample_process StatusStopped)).
  { split; [discriminate | reflexivity]. }
  assert (Hsleep : forall q, state_inv q -> state_inv (exit_sleep exit_status_1 q))
    by (intros q H; exact H).
  destruct methods_keep_state_consistent as (_ & Hstart & _ & _ & _ & Hexit & Hrestart).
  assert (H1 : state_inv running_process) by exact (Hstart os_all_ok _ Hpid H0).
  split; [exact Hpid |]. split; [exact H0 |]. split; [exact H1 |].
  split; [exact Hsleep |].
  split; [exact (Hexit exit_status_1 running_process Hpid Hsleep H1) |].
  exact (Hrestart (fun _ q => q) os_all_ok running_process Hpid (fun _ q H => H) H1).
Defined.

(** ** Stop, the reaper and the restart budget *)

(** X5: a child that exits after a Stop is never restarted, whatever
    auto_restart and the restart budget say: [Stop] has set the status to
    Stopping before the exit, so the reaper sets Stopped, clears the pid,
    records the stop time and starts nothing; the kill timer, when it fires
    after that, sends no signal. *)
Theorem stop_then_exit_never_restarts x p c :
  Process.Status p = StatusRunning ->
  Process.cmd p = Some c ->
  let r := waitForExit x (state (Process_Stop p)) in
  result r = inr tt /\
  Process.Status (state r) = StatusStopped /\
  ProcessInfo.PID (Process.info (state r)) = 0 /\
  ProcessInfo.StoppedAt (Process.info (state r)) = Some (exit_now x) /\
  ProcessInfo.RestartCount (Process.info (state r))
    = ProcessInfo.RestartCount (Process.info p) /\
  events r = exit_log x /\
  events (killAfter5s (state r)) = [EvSleep 5000].
Proof.
  intros Hrun Hcmd r. subst r. rewrite (Stop_running p Hrun). cbn [state].
  set (p1 := Process.upd_info (ProcessInfo.set_Status StatusStopping) p).
  rewrite (waitForExit_eq x p1 c) by done. cbv zeta.
  assert (Hb : bool_decide (ProcessInfo.Status (Process.info p1) = StatusRunning) = false)
    by (by apply bool_decide_eq_false_2).
  rewrite Hb, andb_false_r. cbn [andb result state events].
  repeat split.
Qed.

Lemma stop_then_exit_never_restarts_witness :
  Process.Status running_process = StatusRunning /\
  Process.cmd running_process = Some sample_cmd /\
  ProcessInfo.AutoRestart (Process.info running_process) = true /\
  Process.Status (state (waitForExit exit_status_1 (state (Process_Stop running_process))))
    = StatusStopped /\
  events (waitForExit exit_status_1 (state (Process_Stop running_process)))
    = exit_log exit_status_1.
Proof.
  split; [reflexivity |]. split; [reflexivity |]. split; [reflexivity |].
  destruct (stop_then_exit_never_restarts exit_status_1 running_process sample_cmd
              eq_refl eq_refl) as (_ & Hst & _ & _ & _ & Hev & _).
  split; [exact Hst | exact Hev].
Defined.

Lemma start_env_ok_definition os p q :
  definition_of q = definition_of p -> start_env_ok os p -> start_env_ok os q.
Proof.
  unfold definition_of, Process_ToConfig, start_env_ok.
  intros [= _ _ _ _ _ _ _ _ _ Hu Hg _]. by rewrite Hu, Hg.
Qed.

(** One exit within the budget: the child is running again, one more restart
    is counted. *)
Lemma exit_restarts x p c :
  Process.cmd p = Some c ->
  Process.Status p = StatusRunning ->
  ProcessInfo.AutoRestart (Process.info p) = true ->
  counts_ok p ->
  ProcessInfo.RestartCount (Process.info p) < ProcessInfo.MaxRestarts (Process.info p) ->
  (forall q, exit_sleep x q = q) ->
  start_env_ok (exit_start x) p ->
  let p' := state (waitForExit x p) in
  (exists c', Process.cmd p' = Some c') /\
  Process.Status p' = StatusRunning /\
  ProcessInfo.AutoRestart (Process.info p') = true /\
  counts_ok p' /\
  ProcessInfo.RestartCount (Process.info p') = ProcessInfo.RestartCount (Process.info p) + 1 /\
  ProcessInfo.MaxRestarts (Process.info p') = ProcessInfo.MaxRestarts (Process.info p) /\
  definition_of p' = definition_of p.
Proof.
  intros Hcmd Hrun Ha Hok Hlt Hsleep Henv p'.
  destruct (waitForExit_cases x p c Hcmd Hok) as (_ & Hyes & _).
  destruct (Hyes (conj Ha (conj Hrun Hlt))) as [Hst _]. cbv zeta in Hst.
  rewrite Hsleep in Hst. subst p'. rewrite Hst.
  set (pm := marked_restarting x p).
  assert (Hnr : Process.Status pm <> StatusRunning) by discriminate.
  assert (Hdef : definition_of pm = definition_of p) by reflexivity.
  assert (Henv' : start_env_ok (exit_start x) pm)
    by (by apply (start_env_ok_definition _ p)).
  destruct (Start_not_running (exit_start x) pm Hnr) as (_ & Hiff & Hsucc).
  cbv zeta in Hiff, Hsucc. apply Hiff in Henv'.
  destruct (Hsucc Henv') as (Hst' & c' & Hc' & _).
  destruct (Start_same_static (exit_start x) pm) as (_ & _ & Har & Hmr & Hrc & _).
  split; [eauto |]. split; [done |].
  split; [by rewrite Har |].
  split.
  { eapply counts_ok_static; [apply Start_same_static |].
    destruct Hok as [Hm Hr]. unfold counts_ok, pm, marked_restarting, reaped.
    cbn. split; [done | lia]. }
  split; [by rewrite Hrc |]. split; [by rewrite Hmr |].
  by rewrite Start_keeps_definition.
Qed.

(** One exit with the budget used up: the process is Stopped, the count
    stays. *)
Lemma exit_stops x p c :
  Process.cmd p = Some c ->
  counts_ok p ->
  ~ ProcessInfo.RestartCount (Process.info p) < ProcessInfo.MaxRestarts (Process.info p) ->
  let p' := state (waitForExit x p) in
  Process.Status p' = StatusStopped /\
  ProcessInfo.RestartCount (Process.info p') = ProcessInfo.RestartCount (Process.info p).
Proof.
  intros Hcmd Hok Hge p'.
  destruct (waitForExit_cases x p c Hcmd Hok) as (_ & _ & Hno & _).
  destruct Hno as [Hst _]; [by intros (_ & _ & ?) |].
  subst p'. by rewrite Hst.
Qed.

(** X6: the restart budget caps a crash loop.  For a running process with
    auto_restart set, a non-negative max_restarts and an environment in
    which every Start succeeds, each exit within the remaining budget is
    followed by a restart that counts one more; the exit after the budget
    is used up leaves the process Stopped with restart_count equal to
    max_restarts. *)
Theorem crash_loop_is_capped xs p c :
  Process.cmd p = Some c ->
  Process.Status p = StatusRunning ->
  ProcessInfo.AutoRestart (Process.info p) = true ->
  counts_ok p ->
  0 <= ProcessInfo.MaxRestarts (Process.info p) ->
  Forall (fun x => (forall q, exit_sleep x q = q) /\ start_env_ok (exit_start x) p) xs ->
  let budget := ProcessInfo.MaxRestarts (Process.info p)
                - ProcessInfo.RestartCount (Process.info p) in
  (len xs <= budget ->
     Process.Status (exits xs p) = StatusRunning /\
     ProcessInfo.RestartCount (Process.info (exits xs p))
       = ProcessInfo.RestartCount (Process.info p) + len xs) /\
  (len xs = budget + 1 ->
     Process.Status (exits xs p) = StatusStopped /\
     ProcessInfo.RestartCount (Process.info (exits xs p))
       = ProcessInfo.MaxRestarts (Process.info p)).
Proof.
  revert p c. induction xs as [| x xs IH]; intros p c Hcmd Hrun Ha Hok Hmax Hxs budget.
  - cbn [exits]. unfold len. cbn [length]. destruct Hok as [_ Hr]. subst budget.
    split; [intros _; split; [done | lia] | intros H; lia].
  - apply Forall_cons in Hxs as [[Hsleep Henv] Hxs].
    assert (Hlen : len (x :: xs) = len xs + 1) by (unfold len; cbn [length]; lia).
    pose proof (len_nonneg xs) as Hnn. cbn [exits].
    destruct (decide (ProcessInfo.RestartCount (Process.info p)
                      < ProcessInfo.MaxRestarts (Process.info p))) as [Hlt | Hge].
    + destruct (exit_restarts x p c Hcmd Hrun Ha Hok Hlt Hsleep Henv)
        as ([c' Hc'] & Hrun' & Ha' & Hok' & Hrc' & Hm' & Hdef').
      assert (Hxs' : Forall (fun x0 => (forall q, exit_sleep x0 q = q) /\
                                        start_env_ok (exit_start x0)
                                          (state (waitForExit x p))) xs).
      { eapply Forall_impl; [exact Hxs |]. intros x0 [? ?]. split; [done |].
        by apply (start_env_ok_definition _ p). }
      specialize (IH _ c' Hc' Hrun' Ha' Hok' ltac:(by rewrite Hm') Hxs').
      cbv zeta in IH. rewrite Hrc', Hm' in IH. destruct IH as [IH1 IH2]. subst budget.
      split.
      * intros Hle. destruct IH1 as [-> ->]; [lia |]. split; [done | lia].
      * intros Heq. destruct IH2 as [-> ->]; [lia | done].
    + destruct (exit_stops x p c Hcmd Hok Hge) as [Hst Hrc]. subst budget.
      destruct Hok as [_ Hr].
      split; [intros Hle; lia |].
      intros Heq. assert (xs = []) as -> by (destruct xs; [done | unfold len in *; cbn in *; lia]).
      cbn [exits]. split; [done |]. rewrite Hrc. lia.
Qed.

Lemma crash_loop_is_capped_witness :
  Process.cmd running_process = Some sample_cmd /\
  counts_ok running_process /\
  Forall (fun x => (forall q, exit_sleep x q = q) /\
                   start_env_ok (exit_start x) running_process) four_exits /\
  Process.Status (exits four_exits running_process) = StatusStopped /\
  ProcessInfo.RestartCount (Process.info (exits four_exits running_process)) = 3 /\
  Process.Status (exits [exit_status_1; exit_status_1] running_process) = StatusRunning.
Proof.
  assert (Hcnt : counts_ok running_process).
  { unfold counts_ok, is_int, int_min, int_max. vm_compute. repeat split; discriminate. }
  assert (Hx : (forall q, exit_sleep exit_status_1 q = q) /\
               start_env_ok (exit_start exit_status_1) running_process).
  { split; [reflexivity |]. unfold start_env_ok. split; [by left |].
    repeat split. by exists 4242. }
  assert (Hxs : Forall (fun x => (forall q, exit_sleep x q = q) /\
                                 start_env_ok (exit_start x) running_process) four_exits).
  { unfold four_exits. repeat (constructor; [exact Hx |]). constructor. }
  assert (Hmax : 0 <= ProcessInfo.MaxRestarts (Process.info running_process))
    by (vm_compute; discriminate).
  split; [reflexivity |]. split; [exact Hcnt |]. split; [exact Hxs |].
  destruct (crash_loop_is_capped four_exits running_process sample_cmd
              eq_refl eq_refl eq_refl Hcnt Hmax Hxs) as [_ Hstop].
  destruct (Hstop eq_refl) as [Hst Hrc].
  split; [exact Hst |]. split; [exact Hrc |]. reflexivity.
Defined.

(** ** Restart of a running process *)

Lemma poll_stopped_spec sleep fuel k p :
  exists n,
    (n <= fuel)%nat /\
    (0 < fuel -> 0 < n)%nat /\
    poll_stopped sleep fuel k p
      = mkRes (inr tt) (sleeps sleep k n p) (replicate n (EvSleep 500)) /\
    ((n < fuel)%nat -> Process.Status (sleeps sleep k n p) = StatusStopped).
Proof.
  revert k p. induction fuel as [| fuel IH]; intros k p.
  - exists 0%nat. cbn. repeat split; lia.
  - cbn [poll_stopped]. run_M.
    destruct (decide (Process.Status (sleep k p) = StatusStopped)) as [Hst | Hst].
    + exists 1%nat. cbn. repeat split; [lia | lia | done].
    + destruct (IH (S k) (sleep k p)) as (n & Hle & _ & Heq & Hlt).
      exists (S n). rewrite Heq. cbn.
      repeat split; [lia | lia |]. intros H. apply Hlt. lia.
Qed.

(** X7: [Restart] of a Running process stops it, then sleeps 500 ms between
    1 and 10 times, ending early only when it finds the status Stopped, and
    then calls [Start] whatever it found: the result of [Restart] is that
    call's result.  After 10 polls without Stopped the previous child may
    not have been reaped when the new one is launched. *)
Theorem Restart_running_polls_then_starts sleep os p :
  Process.Status p = StatusRunning ->
  exists n : nat,
    (1 <= n <= 10)%nat /\
    let q := sleeps sleep 0 n (state (Process_Stop p)) in
    Process_Restart sleep os p
      = mkRes (result (Process_Start os q)) (state (Process_Start os q))
              (events (Process_Stop p) ++ replicate n (EvSleep 500)
                 ++ events (Process_Start os q)) /\
    ((n < 10)%nat -> Process.Status q = StatusStopped).
Proof.
  intros Hrun.
  destruct (poll_stopped_spec sleep 10 0 (state (Process_Stop p)))
    as (n & Hle & Hpos & Heq & Hlt).
  exists n. split; [lia |]. split; [| done].
  unfold Process_Restart, bind, get. cbn [result state events app].
  rewrite decide_True by done.
  rewrite (Stop_running p Hrun) in *. cbn [result state events] in *.
  rewrite Heq. cbn [result state events]. by rewrite app_assoc.
Qed.

Lemma Restart_running_polls_then_starts_witness :
  Process.Status running_process = StatusRunning /\
  exists n : nat,
    (1 <= n <= 10)%nat /\
    let q := sleeps reaped_in_third_sleep 0 n (state (Process_Stop running_process)) in
    Process_Restart reaped_in_third_sleep os_all_ok running_process
      = mkRes (result (Process_Start os_all_ok q)) (state (Process_Start os_all_ok q))
              (events (Process_Stop running_process) ++ replicate n (EvSleep 500)
                 ++ events (Process_Start os_all_ok q)) /\
    ((n < 10)%nat -> Process.Status q = StatusStopped).
Proof.
  split; [reflexivity |].
  exact (Restart_running_polls_then_starts reaped_in_third_sleep os_all_ok
           running_process eq_refl).
Defined.

(** ** Definitions in and out of processes *)

Lemma FromConfig_ok Join os cfg logDir :
  new_logger os = None ->
  exists p,
    FromConfig Join os cfg logDir = inr p /\
    Process_ToConfig p
      = (if decide (ConfigProcess.ID cfg <> "") then cfg
         else with_ID (String.substring 0 8 (new_uuid os)) cfg) /\
    fresh p /\
    Process.logger p
      = ProcessLogger.mk (String.substring 0 8 (new_uuid os)) (ConfigProcess.Name cfg)
          (Join logDir (ConfigProcess.Name cfg +:+ "-"
                          +:+ String.substring 0 8 (new_uuid os))).
Proof.
  intros Hlog. unfold FromConfig, New, NewProcessLogger. rewrite Hlog.
  destruct cfg as [id name command args workdir env autostart autorestart maxr user group].
  cbn [ConfigProcess.ID ConfigProcess.Name ConfigProcess.Command ConfigProcess.Args
       ConfigProcess.WorkDir ConfigProcess.Env ConfigProcess.AutoStart
       ConfigProcess.AutoRestart ConfigProcess.MaxRestarts ConfigProcess.User
       ConfigProcess.Group StartRequest.Name StartRequest.Command StartRequest.Args
       StartRequest.WorkDir StartRequest.Env StartRequest.AutoStart
       StartRequest.AutoRestart StartRequest.MaxRestarts StartRequest.User
       StartRequest.Group].
  destruct (decide (id <> "")); eexists; (split; [reflexivity |]);
    repeat split; reflexivity.
Qed.

(** X8: a definition read back into a process is the definition [ToConfig]
    gives out again: [FromConfig] keeps every field, and keeps the id too
    unless it is empty, in which case the process gets the first eight
    characters of a fresh uuid.  The process is Stopped and has never run.
    Its logger, though, is always named after the fresh uuid, not after the
    id of the definition; and when the logger cannot be created, that error
    is what [FromConfig] returns. *)
Theorem FromConfig_ToConfig_roundtrip Join os cfg logDir :
  match new_logger os with
  | Some e => FromConfig Join os cfg logDir = inl (ErrCreateLogger e)
  | None =>
      exists p,
        FromConfig Join os cfg logDir = inr p /\
        Process_ToConfig p
          = (if decide (ConfigProcess.ID cfg <> "") then cfg
             else with_ID (String.substring 0 8 (new_uuid os)) cfg) /\
        fresh p /\
        ProcessLogger.id (Process.logger p) = String.substring 0 8 (new_uuid os) /\
        ProcessLogger.logDir (Process.logger p)
          = Join logDir (ConfigProcess.Name cfg +:+ "-"
                           +:+ String.substring 0 8 (new_uuid os))
  end.
Proof.
  destruct (new_logger os) as [e |] eqn:Hlog.
  - unfold FromConfig, New, NewProcessLogger. by rewrite Hlog.
  - destruct (FromConfig_ok Join os cfg logDir Hlog) as (p & Heq & Hcfg & Hfresh & Hl).
    exists p. rewrite Hl. done.
Qed.

(** ** Keys of the registry *)

Lemma keys_ok_insert (ps : gmap string Process.t) k p :
  keys_ok ps -> Process.ID p = k -> keys_ok (<[k := p]> ps).
Proof.
  intros Hok Hid k' p' Hk'.
  apply lookup_insert_Some in Hk' as [[<- <-] | [_ Hk']]; [done | by apply Hok].
Qed.

Lemma keys_ok_delete (ps : gmap string Process.t) k :
  keys_ok ps -> keys_ok (delete k ps).
Proof. intros Hok k' p' Hk'. apply lookup_delete_Some in Hk' as [_ Hk']. by apply Hok. Qed.

Lemma New_ID_logger Join os req logDir proc :
  New Join os req logDir = inr proc ->
  Process.ID proc = String.substring 0 8 (new_uuid os).
Proof.
  unfold New, NewProcessLogger. destruct (new_logger os); [done |]. by intros [= <-].
Qed.

Lemma CollectStats_keeps_ID now probe :
  keeps Process.ID (Process_CollectStats now probe).
Proof. unfold Process_CollectStats. keeps_tac. Qed.

Lemma on_entry_keys_ok {A : Type} k p (r : Res A) w :
  Manager.processes (manager w) !! k = Some p ->
  Process.ID (state r) = Process.ID p ->
  keys_ok (Manager.processes (manager w)) ->
  keys_ok (Manager.processes (manager (m_world (on_entry k r w)))).
Proof.
  intros Hk Hid Hok. cbn. apply keys_ok_insert; [done |].
  rewrite Hid. by apply Hok.
Qed.

Lemma Manager_Start_keys_ok Join os req w :
  keys_ok (Manager.processes (manager w)) ->
  keys_ok (Manager.processes (manager (m_world (Manager_Start Join os req w)))).
Proof.
  intros Hok. unfold Manager_Start.
  destruct (List.find _ _) as [kv |]; [done |].
  destruct (New _ _ _ _) as [e1 | proc]; [done |].
  destruct (result (Process_Start (create_start os) proc)) as [e2 | []]; [done |].
  unfold saveProcesses.
  destruct (create_save_fail os) as [[e left_on_disk] |]; cbn;
    by apply keys_ok_insert.
Qed.

Lemma Manager_Stop_keys_ok order idOrName w :
  keys_ok (Manager.processes (manager w)) ->
  keys_ok (Manager.processes (manager (m_world (Manager_Stop order idOrName w)))).
Proof.
  intros Hok. unfold Manager_Stop.
  destruct (findProcess order (manager w) idOrName) as [[k p] |] eqn:Hf; [| done].
  eapply on_entry_keys_ok; [by eapply findProcess_lookup | | done].
  by destruct (Stop_same_static p) as (? & _).
Qed.

Lemma Manager_Restart_keys_ok order sleep os idOrName w :
  (forall j q, same_static q (sleep j q)) ->
  keys_ok (Manager.processes (manager w)) ->
  keys_ok (Manager.processes
             (manager (m_world (Manager_Restart order sleep os idOrName w)))).
Proof.
  intros Hsleep Hok. unfold Manager_Restart.
  destruct (findProcess order (manager w) idOrName) as [[k p] |] eqn:Hf; [| done].
  eapply on_entry_keys_ok; [by eapply findProcess_lookup | | done].
  by destruct (Restart_same_static sleep os p Hsleep) as (? & _).
Qed.

Lemma Manager_Delete_keys_ok os idOrName w :
  keys_ok (Manager.processes (manager w)) ->
  keys_ok (Manager.processes (manager (m_world (Manager_Delete os idOrName w)))).
Proof.
  intros Hok. unfold Manager_Delete.
  destruct (List.find _ _) as [[id p] |] eqn:Hfind; [| done].
  apply find_elem in Hfind as [Hin _]. apply range_lookup in Hin.
  set (r := if decide (Process.Status p = StatusRunning)
            then Process_Stop p else ret tt p).
  assert (Hid : Process.ID (state r) = Process.ID p).
  { unfold r. destruct (decide (Process.Status p = StatusRunning)); [| done].
    by destruct (Stop_same_static p) as (? & _). }
  pose proof (on_entry_keys_ok id p r w Hin Hid Hok) as H1.
  destruct (result r) as [e | []]; [done |].
  destruct (decide (id = "")); [done |].
  unfold saveProcesses.
  destruct (delete_save_fail os) as [[e left_on_disk] |]; cbn;
    by apply keys_ok_delete.
Qed.

Lemma load_loop_keys_ok Join news k logDir cfgs ps :
  keys_ok ps -> keys_ok (load_loop Join news k logDir cfgs ps).1.
Proof.
  revert k ps. induction cfgs as [| cfg rest IH]; intros k ps Hps; cbn [load_loop]; [done |].
  destruct (FromConfig Join (news k) cfg logDir) as [e | proc].
  - specialize (IH (S k) ps Hps).
    by destruct (load_loop Join news (S k) logDir rest ps).
  - apply IH. by apply keys_ok_insert.
Qed.

Lemma NewManager_keys_ok Join mkdir news dataDir logDir file :
  keys_ok (Manager.processes
             (manager (m_world (NewManager Join mkdir news dataDir logDir file)))).
Proof.
  assert (He : keys_ok (∅ : gmap string Process.t)) by (intros k p; by rewrite lookup_empty).
  unfold NewManager. destruct mkdir as [[dir e] |]; [done |].
  unfold loadProcesses. cbn [procfile manager Manager.processes Manager.logDir].
  destruct file as [| e | e | cfgs | cfgs]; try done.
  - pose proof (load_loop_keys_ok Join news 0 logDir cfgs ∅ He) as H.
    by destruct (load_loop Join news 0 logDir cfgs ∅).
  - pose proof (load_loop_keys_ok Join news 0 logDir cfgs ∅ He) as H.
    by destruct (load_loop Join news 0 logDir cfgs ∅).
Qed.

Lemma StopAll_loop_keys_ok order ps :
  keys_ok ps -> keys_ok (StopAll_loop order ps).1.
Proof.
  revert ps. induction order as [| k rest IH]; intros ps Hok; cbn [StopAll_loop]; [done |].
  destruct (ps !! k) as [p |] eqn:Hk; [| by apply IH].
  destruct (decide (Process.Status p = StatusRunning)); [| by apply IH].
  assert (H : keys_ok (<[k := state (Process_Stop p)]> ps)).
  { apply keys_ok_insert; [done |].
    destruct (Stop_same_static p) as (-> & _). by apply Hok. }
  specialize (IH _ H). by destruct (StopAll_loop rest _).
Qed.

Lemma autostart_loop_keys_ok os toStart ps :
  keys_ok ps -> keys_ok (autostart_loop os toStart ps).1.
Proof.
  revert ps. induction toStart as [| k rest IH]; intros ps Hok;
    cbn [autostart_loop]; [done |].
  destruct (ps !! k) as [p |] eqn:Hk; [| by apply IH].
  assert (H : keys_ok (<[k := state (Process_Start (os k) p)]> ps)).
  { apply keys_ok_insert; [done |].
    destruct (Start_same_static (os k) p) as (-> & _). by apply Hok. }
  specialize (IH _ H). by destruct (autostart_loop os rest _).
Qed.

Lemma CollectAllStats_loop_keys_ok now probe order ps ps' :
  keys_ok ps -> CollectAllStats_loop now probe order ps = inr ps' -> keys_ok ps'.
Proof.
  revert ps. induction order as [| k rest IH]; intros ps Hok; cbn [CollectAllStats_loop].
  - by intros [= <-].
  - destruct (ps !! k) as [p |] eqn:Hk; [| by apply IH].
    destruct (decide (Process.Status p = StatusRunning)); [| by apply IH].
    destruct (result (Process_CollectStats (now k) probe p)); [done |].
    apply IH. apply keys_ok_insert; [done |].
    rewrite CollectStats_keeps_ID. by apply Hok.
Qed.

(** X9: the map key of every entry is the entry's id, from boot on and
    through every operation of the registry: create inserts under the id of
    the new process, restoring inserts under the id of each definition, and
    stop, restart, delete, StopAll, StartAutoStartProcesses and
    CollectAllStats never change an id or move an entry. *)
Theorem registry_keys_are_ids :
  (forall Join mkdir news dataDir logDir file,
     keys_ok (Manager.processes
                (manager (m_world (NewManager Join mkdir news dataDir logDir file))))) /\
  (forall Join os req w,
     keys_ok (Manager.processes (manager w)) ->
     keys_ok (Manager.processes (manager (m_world (Manager_Start Join os req w))))) /\
  (forall order idOrName w,
     keys_ok (Manager.processes (manager w)) ->
     keys_ok (Manager.processes (manager (m_world (Manager_Stop order idOrName w))))) /\
  (forall order sleep os idOrName w,
     (forall j q, same_static q (sleep j q)) ->
     keys_ok (Manager.processes (manager w)) ->
     keys_ok (Manager.processes
                (manager (m_world (Manager_Restart order sleep os idOrName w))))) /\
  (forall os idOrName w,
     keys_ok (Manager.processes (manager w)) ->
     keys_ok (Manager.processes (manager (m_world (Manager_Delete os idOrName w))))) /\
  (forall order m,
     keys_ok (Manager.processes m) ->
     keys_ok (Manager.processes (Manager_StopAll order m).1)) /\
  (forall order os m,
     keys_ok (Manager.processes m) ->
     keys_ok (Manager.processes (Manager_StartAutoStartProcesses order os m).1)) /\
  (forall now probe order m m',
     keys_ok (Manager.processes m) ->
     Manager_CollectAllStats now probe order m = inr m' ->
     keys_ok (Manager.processes m')).
Proof.
  split; [apply NewManager_keys_ok |].
  split; [apply Manager_Start_keys_ok |].
  split; [apply Manager_Stop_keys_ok |].
  split; [apply Manager_Restart_keys_ok |].
  split; [apply Manager_Delete_keys_ok |].
  split; [| split].
  - intros order m Hok. unfold Manager_StopAll.
    pose proof (StopAll_loop_keys_ok order _ Hok) as H.
    by destruct (StopAll_loop order (Manager.processes m)).
  - intros order os m Hok. unfold Manager_StartAutoStartProcesses.
    match goal with
    | |- context [autostart_loop os ?l ?ps] =>
        pose proof (autostart_loop_keys_ok os l ps Hok) as H;
        by destruct (autostart_loop os l ps)
    end.
  - intros now probe order m m' Hok. unfold Manager_CollectAllStats.
    destruct (CollectAllStats_loop now probe order (Manager.processes m)) as [e | ps'] eqn:Hl;
      [done |].
    intros [= <-]. by eapply CollectAllStats_loop_keys_ok.
Qed.

Lemma registry_keys_are_ids_witness :
  keys_ok (Manager.processes (manager shadow_world)) /\
  keys_ok (Manager.processes
             (manager (m_world (Manager_Start join_slash create_ok sample_request
                                               shadow_world)))) /\
  keys_ok (Manager.processes
             (manager (m_world (Manager_Delete delete_deadbeef_first "web" shadow_world)))).
Proof.
  assert (H : keys_ok (Manager.processes (manager shadow_world))).
  { intros k p Hk. cbn in Hk.
    apply lookup_insert_Some in Hk as [[<- <-] | [_ Hk]]; [reflexivity |].
    apply lookup_singleton_Some in Hk as [<- <-]. reflexivity. }
  destruct registry_keys_are_ids as (_ & Hcreate & _ & _ & Hdelete & _).
  split; [exact H |].
  split; [exact (Hcreate join_slash create_ok sample_request shadow_world H) |].
  exact (Hdelete delete_deadbeef_first "web" shadow_world H).
Defined.

(** ** Persistence across a restart of the supervisor *)

Lemma ToConfig_ID p : ConfigProcess.ID (Process_ToConfig p) = Process.ID p.
Proof. reflexivity. Qed.

Lemma load_loop_restores Join news i logDir cfgs (ps0 : gmap string Process.t) :
  (forall j, new_logger (news j) = None) ->
  NoDup (ConfigProcess.ID <$> cfgs) ->
  Forall (fun c => ConfigProcess.ID c <> "") cfgs ->
  let res := (load_loop Join news i logDir cfgs ps0).1 in
  (forall c, c ∈ cfgs ->
     exists p, res !! ConfigProcess.ID c = Some p /\ Process_ToConfig p = c /\ fresh p) /\
  (forall k, k ∉ ConfigProcess.ID <$> cfgs -> res !! k = ps0 !! k).
Proof.
  intros Hlog. revert i ps0.
  induction cfgs as [| cfg rest IH]; intros i ps0 Hnd Hne res; subst res.
  - split; [intros c Hc; by apply elem_of_nil in Hc | done].
  - rewrite fmap_cons in Hnd. apply NoDup_cons in Hnd as [Hcfg Hnd].
    apply Forall_cons in Hne as [Hid Hne]. cbn [load_loop].
    destruct (FromConfig_ok Join (news i) cfg logDir (Hlog i))
      as (p & -> & Hcfgp & Hfresh & _).
    rewrite decide_True in Hcfgp by done.
    assert (Hpid : Process.ID p = ConfigProcess.ID cfg)
      by (by rewrite <- ToConfig_ID, Hcfgp).
    rewrite Hpid.
    destruct (IH (S i) (<[ConfigProcess.ID cfg := p]> ps0) Hnd Hne) as [IH1 IH2].
    split.
    + intros c Hc. apply elem_of_cons in Hc as [-> | Hc]; [| by apply IH1].
      exists p. rewrite IH2 by done. by rewrite lookup_insert_eq.
    + intros k Hk. rewrite fmap_cons in Hk. apply not_elem_of_cons in Hk as [Hk1 Hk2].
      rewrite IH2 by done. by rewrite lookup_insert_ne.
Qed.

Lemma range_keys (ps : gmap string Process.t) order :
  visits ps order -> (range ps order).*1 ≡ₚ (map_to_list ps).*1.
Proof. intros Hv. by rewrite (range_perm ps order Hv). Qed.

(** X10: what [saveProcesses] writes, a boot restores.  For a registry whose
    keys are the ids of its entries, none of them empty, saved in any order
    the runtime may visit the map, a successful write followed by
    [NewManager] (with loggers that can be created) gives a registry with
    the same ids and, under each, the same definition; every restored
    process is Stopped and has never run. *)
Theorem save_then_boot_restores Join order news dataDir logDir w :
  let ps := Manager.processes (manager w) in
  visits ps order ->
  keys_ok ps ->
  ps !! "" = None ->
  (forall j, new_logger (news j) = None) ->
  let saved := saveProcesses order None w in
  let r := NewManager Join None news dataDir logDir (procfile saved.2) in
  let ps' := Manager.processes (manager (m_world r)) in
  saved.1 = None /\
  m_result r = inr tt /\
  (forall k, Process_ToConfig <$> ps' !! k = Process_ToConfig <$> ps !! k) /\
  (forall k p', ps' !! k = Some p' -> fresh p').
Proof.
  intros ps Hv Hkeys Hempty Hlog saved r ps'.
  subst saved r ps'. unfold saveProcesses, NewManager, loadProcesses.
  cbn [fst snd procfile manager Manager.processes Manager.logDir]. fold ps.
  set (cfgs := (fun kv : string * Process.t => Process_ToConfig kv.2) <$> range ps order).
  assert (Hids : ConfigProcess.ID <$> cfgs = (range ps order).*1).
  { unfold cfgs. rewrite <- list_fmap_compose. apply list_fmap_ext.
    intros j [k p] Hj. cbn. rewrite ToConfig_ID. apply Hkeys.
    apply (range_lookup ps order). by eapply list_elem_of_lookup_2. }
  assert (Hnd : NoDup (ConfigProcess.ID <$> cfgs)).
  { rewrite Hids, (range_keys ps order Hv). apply NoDup_fst_map_to_list. }
  assert (Hne : Forall (fun c => ConfigProcess.ID c <> "") cfgs).
  { apply Forall_forall. intros c Hc. unfold cfgs in Hc.
    apply list_elem_of_fmap in Hc as ([k p] & -> & Hin). cbn.
    apply (range_lookup ps order) in Hin. rewrite ToConfig_ID, (Hkeys k p Hin).
    intros ->. congruence. }
  destruct (load_loop_restores Join news 0 logDir cfgs ∅ Hlog Hnd Hne) as [H1 H2].
  destruct (load_loop Join news 0 logDir cfgs ∅) as [res evs]. cbn [fst] in H1, H2.
  cbn [m_result m_world manager Manager.processes Manager.set_processes].
  split; [done |]. split; [done |].
  assert (Hin : forall k p, ps !! k = Some p ->
                  exists p', res !! k = Some p' /\ Process_ToConfig p' = Process_ToConfig p
                             /\ fresh p').
  { intros k p Hk.
    destruct (H1 (Process_ToConfig p)) as (p' & Hp' & Hcfg & Hf).
    - unfold cfgs. apply list_elem_of_fmap. exists (k, p). split; [done |].
      by apply range_elem.
    - rewrite ToConfig_ID, (Hkeys k p Hk) in Hp'. eauto. }
  assert (Hout : forall k, ps !! k = None -> res !! k = None).
  { intros k Hk. rewrite H2; [apply lookup_empty |].
    rewrite Hids. intros Hkin. apply list_elem_of_fmap in Hkin as ([k' p] & -> & Hkp).
    apply (range_lookup ps order) in Hkp. cbn in Hk. congruence. }
  split.
  - intros k. destruct (ps !! k) as [p |] eqn:Hk.
    + destruct (Hin k p Hk) as (p' & Hp' & Hc & _). rewrite Hp'. cbn. by rewrite Hc.
    + by rewrite (Hout k Hk).
  - intros k p' Hk'. destruct (ps !! k) as [p |] eqn:Hk.
    + destruct (Hin k p Hk) as (p'' & Hp'' & _ & Hf). congruence.
    + rewrite (Hout k Hk) in Hk'. done.
Qed.

Lemma save_then_boot_restores_witness :
  visits (Manager.processes (manager shadow_world)) ["deadbeef"; "1a2b3c4d"] /\
  keys_ok (Manager.processes (manager shadow_world)) /\
  Manager.processes (manager shadow_world) !! "" = None /\
  (forall j : nat, new_logger ((fun _ => sample_new) j) = None) /\
  let saved := saveProcesses ["deadbeef"; "1a2b3c4d"] None shadow_world in
  let r := NewManager join_slash None (fun _ => sample_new)
             "/var/lib/gemstone" "/var/log/gemstone" (procfile saved.2) in
  m_result r = inr tt /\
  forall k, Process_ToConfig <$> Manager.processes (manager (m_world r)) !! k
            = Process_ToConfig <$> Manager.processes (manager shadow_world) !! k.
Proof.
  assert (Hv : visits (Manager.processes (manager shadow_world)) ["deadbeef"; "1a2b3c4d"]).
  { unfold visits. vm_compute. apply perm_swap. }
  assert (Hk : keys_ok (Manager.processes (manager shadow_world))).
  { intros k p Hk. cbn in Hk.
    apply lookup_insert_Some in Hk as [[<- <-] | [_ Hk]]; [reflexivity |].
    apply lookup_singleton_Some in Hk as [<- <-]. reflexivity. }
  assert (Hl : forall j : nat, new_logger ((fun _ => sample_new) j) = None)
    by reflexivity.
  split; [exact Hv |]. split; [exact Hk |]. split; [reflexivity |]. split; [exact Hl |].
  destruct (save_then_boot_restores join_slash ["deadbeef"; "1a2b3c4d"]
              (fun _ => sample_new) "/var/lib/gemstone" "/var/log/gemstone"
              shadow_world Hv Hk eq_refl Hl) as (_ & Hres & Hsame & _).
  split; [exact Hres | exact Hsame].
Defined.

(** ** The resolver *)

Lemma findProcess_None order m idOrName :
  visits (Manager.processes m) order ->
  findProcess order m idOrName = None <->
  Manager.processes m !! idOrName = None /\
  forall k p, Manager.processes m !! k = Some p -> Process.Name p <> idOrName.
Proof.
  intros Hv. split.
  - intros Hnone. assert (Hid : Manager.processes m !! idOrName = None).
    { destruct (Manager.processes m !! idOrName) as [p |] eqn:E; [| done].
      by rewrite (findProcess_id_first order m idOrName p E) in Hnone. }
    split; [done |]. intros k p Hk Hname.
    destruct (findProcess_name_found order m idOrName k p Hv Hk Hname) as (? & ? & H).
    congruence.
  - intros [Hid Hnames].
    destruct (findProcess order m idOrName) as [[k p] |] eqn:Hf; [| done].
    destruct (findProcess_by_name order m idOrName k p Hid Hf) as [Hk Hname].
    by destruct (Hnames k p Hk).
Qed.

Lemma shadow_world_visits :
  visits (Manager.processes (manager shadow_world)) ["deadbeef"; "1a2b3c4d"].
Proof. unfold visits. vm_compute. apply perm_swap. Qed.

Lemma shadow_world_unique_names :
  unique_names (Manager.processes (manager shadow_world)).
Proof.
  intros i j p q Hi Hj. cbn in Hi, Hj.
  apply lookup_insert_Some in Hi as [[<- <-] | [_ Hi]];
    apply lookup_insert_Some in Hj as [[<- <-] | [_ Hj]]; try done.
  - apply lookup_singleton_Some in Hj as [<- <-]. discriminate.
  - apply lookup_singleton_Some in Hi as [<- <-]. discriminate.
  - apply lookup_singleton_Some in Hi as [<- <-].
    apply lookup_singleton_Some in Hj as [<- <-]. done.
Qed.

(** X11: a reference that is neither the id nor the name of an entry is
    unknown to every operation that resolves one, and only such a reference
    is: [findProcess] finds nothing exactly then, whatever the order in
    which the runtime visits the map.  Stop, Restart and GetLogs then return
    the not-found error, Get, Stats and GetStatsHistory return nil, and the
    registry and processes.json are left as they were. *)
Theorem unknown_reference_is_not_found Join order m idOrName :
  visits (Manager.processes m) order ->
  (findProcess order m idOrName = None <->
   Manager.processes m !! idOrName = None /\
   forall k p, Manager.processes m !! k = Some p -> Process.Name p <> idOrName) /\
  (findProcess order m idOrName = None ->
   (forall w, manager w = m ->
      Manager_Stop order idOrName w = mkMRes (inl (ErrNotFound idOrName)) w []) /\
   (forall w sleep os, manager w = m ->
      Manager_Restart order sleep os idOrName w
        = mkMRes (inl (ErrNotFound idOrName)) w []) /\
   (forall fs lines logType,
      Manager_GetLogs Join fs order idOrName lines logType m
        = inl (ErrNotFound idOrName)) /\
   (forall now probe, Manager_Get order now probe idOrName m = None) /\
   (forall now probe, Manager_Stats order now probe idOrName m = None) /\
   (forall limit, Manager_GetStatsHistory order idOrName limit m = None)).
Proof.
  intros Hv. split; [by apply findProcess_None |].
  intros Hnone.
  unfold Manager_Stop, Manager_Restart, Manager_GetLogs, Manager_Get, Manager_Stats,
    Manager_GetStatsHistory.
  repeat split; intros; subst; by rewrite Hnone.
Qed.

Lemma unknown_reference_is_not_found_witness :
  visits (Manager.processes (manager shadow_world)) ["deadbeef"; "1a2b3c4d"] /\
  findProcess ["deadbeef"; "1a2b3c4d"] (manager shadow_world) "api" = None /\
  Manager_Stop ["deadbeef"; "1a2b3c4d"] "api" shadow_world
    = mkMRes (inl (ErrNotFound "api")) shadow_world [].
Proof.
  assert (Hv : visits (Manager.processes (manager shadow_world)) ["deadbeef"; "1a2b3c4d"]).
  { unfold visits. vm_compute. apply perm_swap. }
  assert (Hn : findProcess ["deadbeef"; "1a2b3c4d"] (manager shadow_world) "api" = None)
    by reflexivity.
  split; [exact Hv |]. split; [exact Hn |].
  destruct (unknown_reference_is_not_found join_slash ["deadbeef"; "1a2b3c4d"]
              (manager shadow_world) "api" Hv) as [_ H].
  exact (proj1 (H Hn) shadow_world eq_refl).
Defined.

(** X12: with unique names, resolution does not depend on the order in which
    the runtime visits the map: any two visiting orders resolve a reference
    to the same entry, which is the entry with that id if there is one and
    otherwise the one entry with that name. *)
Theorem resolution_is_order_independent order1 order2 m idOrName :
  visits (Manager.processes m) order1 ->
  visits (Manager.processes m) order2 ->
  unique_names (Manager.processes m) ->
  findProcess order1 m idOrName = findProcess order2 m idOrName /\
  (forall k p,
     findProcess order1 m idOrName = Some (k, p) ->
     Manager.processes m !! k = Some p /\
     (k = idOrName \/
      Manager.processes m !! idOrName = None /\ Process.Name p = idOrName)).
Proof.
  intros Hv1 Hv2 Huniq.
  assert (Hshape : forall order k p,
            findProcess order m idOrName = Some (k, p) ->
            Manager.processes m !! k = Some p /\
            (k = idOrName \/
             Manager.processes m !! idOrName = None /\ Process.Name p = idOrName)).
  { intros order k p Hf. split; [by eapply findProcess_lookup |].
    destruct (Manager.processes m !! idOrName) as [q |] eqn:Hid.
    - rewrite (findProcess_id_first order m idOrName q Hid) in Hf.
      injection Hf as <- _. by left.
    - right. split; [done |]. by eapply findProcess_by_name. }
  split; [| apply Hshape].
  destruct (Manager.processes m !! idOrName) as [q |] eqn:Hid.
  { by rewrite !(findProcess_id_first _ m idOrName q Hid). }
  destruct (findProcess order1 m idOrName) as [[k1 p1] |] eqn:H1.
  - destruct (findProcess_by_name order1 m idOrName k1 p1 Hid H1) as [Hk1 Hn1].
    destruct (findProcess_name_found order2 m idOrName k1 p1 Hv2 Hk1 Hn1)
      as (k2 & p2 & H2).
    destruct (findProcess_by_name order2 m idOrName k2 p2 Hid H2) as [Hk2 Hn2].
    assert (k1 = k2) as <- by (eapply Huniq; [exact Hk1 | exact Hk2 | congruence]).
    rewrite H2. congruence.
  - symmetry. apply (findProcess_None order2 m idOrName Hv2).
    by apply (findProcess_None order1 m idOrName Hv1).
Qed.

Lemma resolution_is_order_independent_witness :
  visits (Manager.processes (manager shadow_world)) ["deadbeef"; "1a2b3c4d"] /\
  visits (Manager.processes (manager shadow_world)) ["1a2b3c4d"; "deadbeef"] /\
  unique_names (Manager.processes (manager shadow_world)) /\
  findProcess ["deadbeef"; "1a2b3c4d"] (manager shadow_world) "web"
    = findProcess ["1a2b3c4d"; "deadbeef"] (manager shadow_world) "web".
Proof.
  assert (Hv2 : visits (Manager.processes (manager shadow_world)) ["1a2b3c4d"; "deadbeef"]).
  { unfold visits. vm_compute. reflexivity. }
  split; [exact shadow_world_visits |]. split; [exact Hv2 |].
  split; [exact shadow_world_unique_names |].
  exact (proj1 (resolution_is_order_independent _ _ (manager shadow_world) "web"
                  shadow_world_visits Hv2 shadow_world_unique_names)).
Defined.

(** ** Delete *)

Lemma Delete_find_None (ps : gmap string Process.t) order idOrName :
  visits ps order ->
  List.find (fun kv => bool_decide (fst kv = idOrName)
                       || bool_decide (Process.Name (snd kv) = idOrName))
            (range ps order) = None <->
  ps !! idOrName = None /\
  forall k p, ps !! k = Some p -> Process.Name p <> idOrName.
Proof.
  intros Hv. split.
  - intros Hnone.
    assert (Hall : forall k p, ps !! k = Some p ->
                     k <> idOrName /\ Process.Name p <> idOrName).
    { intros k p Hk. apply (range_elem ps order k p Hv) in Hk.
      pose proof (find_none_elem _ _ (k, p) Hnone Hk) as Hf. cbn in Hf.
      apply orb_false_iff in Hf as [H1 H2].
      apply bool_decide_eq_false in H1. apply bool_decide_eq_false in H2.
      done. }
    split; [| intros k p Hk; by apply (Hall k p)].
    destruct (ps !! idOrName) as [p |] eqn:E; [| done].
    by destruct (Hall idOrName p E).
  - intros [Hid Hnames].
    destruct (List.find _ _) as [[k p] |] eqn:Hf; [| done].
    apply find_elem in Hf as [Hin Hf]. cbn in Hf.
    apply (range_elem ps order k p Hv) in Hin.
    apply orb_true_iff in Hf as [Hf | Hf]; apply bool_decide_eq_true_1 in Hf.
    + subst. congruence.
    + by destruct (Hnames k p Hin).
Qed.

Lemma Manager_Delete_found os idOrName w id q :
  List.find (fun kv => bool_decide (fst kv = idOrName)
                       || bool_decide (Process.Name (snd kv) = idOrName))
            (range (Manager.processes (manager w)) (delete_range os)) = Some (id, q) ->
  id <> "" ->
  let ps' := delete id (Manager.processes (manager w)) in
  Manager_Delete os idOrName w =
    mkMRes
      (match delete_save_fail os with Some (e, _) => inl e | None => inr tt end)
      (mkWorld (Manager.set_processes ps' (manager w))
         (match delete_save_fail os with
          | Some (_, left_on_disk) => left_on_disk
          | None => Configs ((fun kv => Process_ToConfig (snd kv))
                               <$> range ps' (delete_save_range os))
          end))
      ((if decide (Process.Status q = StatusRunning)
        then events (Process_Stop q) else []) ++
       [EvCloseLogs (ProcessLogger.logDir (Process.logger q))]).
Proof.
  intros Hf Hid ps'. subst ps'. unfold Manager_Delete. rewrite Hf.
  destruct (decide (Process.Status q = StatusRunning)) as [Hrun | Hrun].
  - rewrite (Stop_running q Hrun). cbn [result state events m_world on_entry].
    rewrite decide_False by done. unfold saveProcesses.
    cbn [manager procfile Manager.processes Manager.set_processes
         Manager.dataDir Manager.logDir].
    rewrite delete_insert_eq.
    by destruct (delete_save_fail os) as [[e left_on_disk] |].
  - cbn [ret result state events m_world on_entry app].
    rewrite decide_False by done. unfold saveProcesses.
    cbn [manager procfile Manager.processes Manager.set_processes
         Manager.dataDir Manager.logDir].
    rewrite delete_insert_eq.
    by destruct (delete_save_fail os) as [[e left_on_disk] |].
Qed.

(** X13: [Delete] on a registry without an empty key.  A reference that is
    no entry's id and no entry's name gives the not-found error and changes
    nothing.  Any other reference removes exactly one entry, one whose id or
    name is the reference: that entry is sent [Stop] first if it is Running
    (which then cannot fail), its log files are closed, and the definitions
    of the remaining entries are written to processes.json.  If that write
    fails its error is returned, with the entry already stopped and gone
    from the registry. *)
Theorem Delete_removes_one_match os idOrName w :
  let ps := Manager.processes (manager w) in
  let r := Manager_Delete os idOrName w in
  visits ps (delete_range os) ->
  ps !! "" = None ->
  (ps !! idOrName = None /\
   (forall k p, ps !! k = Some p -> Process.Name p <> idOrName) ->
   r = mkMRes (inl (ErrNotFound idOrName)) w []) /\
  (forall k p, ps !! k = Some p -> k = idOrName \/ Process.Name p = idOrName ->
   exists id q,
     ps !! id = Some q /\ (id = idOrName \/ Process.Name q = idOrName) /\
     Manager.processes (manager (m_world r)) = delete id ps /\
     m_events r =
       (if decide (Process.Status q = StatusRunning)
        then (if Process.cancel q then [EvCancel] else []) ++
             match Process.cmd q with
             | Some c => [EvKill (- cmd_Pid c) SIGTERM; EvGo (GoKillAfter5s (cmd_Pid c))]
             | None => []
             end
        else []) ++
       [EvCloseLogs (ProcessLogger.logDir (Process.logger q))] /\
     match delete_save_fail os with
     | Some (e, left_on_disk) =>
         m_result r = inl e /\ procfile (m_world r) = left_on_disk
     | None =>
         m_result r = inr tt /\
         procfile (m_world r)
           = Configs ((fun kv => Process_ToConfig (snd kv))
                        <$> range (delete id ps) (delete_save_range os))
     end).
Proof.
  intros ps r Hv Hempty. subst ps r. split.
  - intros Hno. apply (Delete_find_None _ _ idOrName Hv) in Hno.
    unfold Manager_Delete. by rewrite Hno.
  - intros k p Hk Hmatch.
    destruct (List.find (fun kv => bool_decide (fst kv = idOrName)
                                   || bool_decide (Process.Name (snd kv) = idOrName))
                (range (Manager.processes (manager w)) (delete_range os)))
      as [[id q] |] eqn:Hf.
    2:{ apply (Delete_find_None _ _ idOrName Hv) in Hf as [Hid Hnames].
        destruct Hmatch as [-> | Hn]; [congruence | by destruct (Hnames k p Hk)]. }
    pose proof Hf as Hf'. apply find_elem in Hf' as [Hin Hm]. cbn in Hm.
    apply (range_elem _ _ id q Hv) in Hin.
    assert (Hne : id <> "") by (intros ->; congruence).
    rewrite (Manager_Delete_found os idOrName w id q Hf Hne).
    cbn [m_result m_world m_events manager procfile Manager.processes
         Manager.set_processes].
    exists id, q. split; [done |]. split.
    { apply orb_true_iff in Hm as [Hm | Hm]; apply bool_decide_eq_true_1 in Hm; auto. }
    split; [done |]. split.
    { destruct (decide (Process.Status q = StatusRunning)) as [Hrun | Hrun]; [| done].
      by rewrite (Stop_running q Hrun). }
    by destruct (delete_save_fail os) as [[e left_on_disk] |].
Qed.

Lemma Delete_removes_one_match_witness :
  exists id q,
    Manager.processes (manager shadow_world) !! id = Some q /\
    (id = "web" \/ Process.Name q = "web") /\
    Manager.processes
      (manager (m_world (Manager_Delete delete_deadbeef_first "web" shadow_world)))
      = delete id (Manager.processes (manager shadow_world)).
Proof.
  assert (Hv : visits (Manager.processes (manager shadow_world))
                 (delete_range delete_deadbeef_first)).
  { unfold visits. vm_compute. apply perm_swap. }
  destruct (Delete_removes_one_match delete_deadbeef_first "web" shadow_world Hv eq_refl)
    as [_ H].
  destruct (H "1a2b3c4d" (sample_process StatusStopped) eq_refl (or_intror eq_refl))
    as (id & q & Hq & Hm & Hps & _).
  exists id, q. auto.
Defined.

(** X14: where [Delete] and the resolver agree.  With unique names, no empty
    key, and the reference not at once the id of one entry and the name of
    another, [Delete] removes exactly the entry that [findProcess] resolves
    the reference to, whatever the orders in which the two loops visit the
    map. *)
Theorem Delete_removes_resolved_entry os order idOrName w k p :
  let ps := Manager.processes (manager w) in
  visits ps (delete_range os) ->
  visits ps order ->
  ps !! "" = None ->
  unique_names ps ->
  (is_Some (ps !! idOrName) ->
   forall j q, ps !! j = Some q -> Process.Name q = idOrName -> j = idOrName) ->
  findProcess order (manager w) idOrName = Some (k, p) ->
  Manager.processes (manager (m_world (Manager_Delete os idOrName w))) = delete k ps.
Proof.
  intros ps Hv Hv' Hempty Huniq Hshadow Hfind. subst ps.
  destruct (List.find (fun kv => bool_decide (fst kv = idOrName)
                                 || bool_decide (Process.Name (snd kv) = idOrName))
              (range (Manager.processes (manager w)) (delete_range os)))
    as [[id q] |] eqn:Hf.
  2:{ apply (Delete_find_None _ _ idOrName Hv) in Hf.
      apply (findProcess_None order (manager w) idOrName Hv') in Hf. congruence. }
  pose proof Hf as Hf'. apply find_elem in Hf' as [Hin Hm]. cbn in Hm.
  apply (range_elem _ _ id q Hv) in Hin.
  assert (Hne : id <> "") by (intros ->; congruence).
  assert (id = k) as ->.
  { destruct (Manager.processes (manager w) !! idOrName) as [p0 |] eqn:Hid.
    - rewrite (findProcess_id_first order (manager w) idOrName p0 Hid) in Hfind.
      injection Hfind as <- <-.
      apply orb_true_iff in Hm as [Hm | Hm]; apply bool_decide_eq_true_1 in Hm;
        [done |].
      apply (Hshadow (ltac:(eauto)) id q); [| done]. congruence.
    - destruct (findProcess_by_name order (manager w) idOrName k p Hid Hfind)
        as [Hk Hname].
      apply orb_true_iff in Hm as [Hm | Hm]; apply bool_decide_eq_true_1 in Hm.
      + cbn in Hm. congruence.
      + cbn in Hm. eapply Huniq; [exact Hin | exact Hk | congruence]. }
  rewrite (Manager_Delete_found os idOrName w k q Hf Hne).
  reflexivity.
Qed.

Lemma Delete_removes_resolved_entry_witness :
  findProcess ["1a2b3c4d"; "deadbeef"] (manager shadow_world) "web"
    = Some ("1a2b3c4d", sample_process StatusStopped) /\
  Manager.processes
    (manager (m_world (Manager_Delete delete_deadbeef_first "web" shadow_world)))
    = delete "1a2b3c4d" (Manager.processes (manager shadow_world)).
Proof.
  split; [reflexivity |].
  apply (Delete_removes_resolved_entry delete_deadbeef_first ["1a2b3c4d"; "deadbeef"]
           "web" shadow_world "1a2b3c4d" (sample_process StatusStopped)).
  - exact shadow_world_visits.
  - unfold visits. vm_compute. reflexivity.
  - reflexivity.
  - exact shadow_world_unique_names.
  - intros [x Hx]. vm_compute in Hx. discriminate.
  - reflexivity.
Defined.

(** ** Create *)


Lemma Info_identity now probe p :
  ProcessInfo.ID (Process_Info now probe p) = Process.ID p /\
  ProcessInfo.Name (Process_Info now probe p) = Process.Name p /\
  ProcessInfo.Status (Process_Info now probe p) = Process.Status p /\
  ProcessInfo.Command (Process_Info now probe p) = ProcessInfo.Command (Process.info p).
Proof.
  unfold Process_Info, Process.ID, Process.Name, Process.Status.
  repeat case_match; updates; done.
Qed.



(** ** Loops over the whole registry *)








Lemma mixed_registry_visits :
  visits (Manager.processes mixed_registry) ["deadbeef"; "1a2b3c4d"].
Proof. unfold visits. vm_compute. apply perm_swap. Qed.


Lemma RunningCount_foldl (l : list (string * Process.t)) (c : Z) :
  0 <= c -> c + len l <= int_max ->
  foldl (fun count kv =>
           if decide (Process.Status (snd kv) = StatusRunning)
           then int_wrap (count + 1) else count) c l
  = c + len (filter (fun kv => Process.Status (snd kv) = StatusRunning) l).
Proof.
  revert c. induction l as [| kv l IH]; intros c Hc Hmax.
  { unfold len. cbn. lia. }
  unfold len in *. cbn [foldl length] in *.
  rewrite filter_cons.
  destruct (decide (Process.Status kv.2 = StatusRunning)) as [Hrun | Hrun].
  - rewrite int_wrap_id by (unfold is_int, int_min, int_max in *; lia).
    rewrite IH by lia. cbn [length]. lia.
  - rewrite IH by lia. lia.
Qed.

(** X17: [RunningCount] is the number of entries whose status is Running,
    whatever the order in which the runtime visits the map, and lies between
    zero and [Count]; this for a registry whose size fits a Go int, so that
    the counter cannot wrap. *)
Theorem RunningCount_counts_running order m :
  visits (Manager.processes m) order ->
  is_int (Manager_Count m) ->
  Manager_RunningCount order m = len (running_entries (Manager.processes m)) /\
  0 <= Manager_RunningCount order m <= Manager_Count m.
Proof.
  intros Hv Hint. unfold Manager_RunningCount, Manager_Count, running_entries in *.
  pose proof (range_perm _ _ Hv) as Hperm.
  assert (Hlen : len (range (Manager.processes m) order)
                 = Z.of_nat (size (Manager.processes m))).
  { unfold len. by rewrite Hperm, length_map_to_list. }
  rewrite RunningCount_foldl; [| lia | unfold is_int in Hint; lia].
  assert (Hf : len (filter (fun kv : string * Process.t =>
                              Process.Status kv.2 = StatusRunning)
                      (range (Manager.processes m) order))
               = len (filter (fun kv : string * Process.t =>
                                Process.Status kv.2 = StatusRunning)
                        (map_to_list (Manager.processes m)))).
  { unfold len. by rewrite Hperm. }
  split; [lia |].
  pose proof (length_filter (fun kv : string * Process.t =>
                               Process.Status kv.2 = StatusRunning)
                (range (Manager.processes m) order)) as Hle.
  unfold len in *. lia.
Qed.

Lemma RunningCount_counts_running_witness :
  visits (Manager.processes mixed_registry) ["deadbeef"; "1a2b3c4d"] /\
  is_int (Manager_Count mixed_registry) /\
  Manager_RunningCount ["deadbeef"; "1a2b3c4d"] mixed_registry = 1.
Proof.
  assert (Hint : is_int (Manager_Count mixed_registry)).
  { unfold is_int, int_min, int_max. vm_compute. split; discriminate. }
  split; [exact mixed_registry_visits |]. split; [exact Hint |].
  rewrite (proj1 (RunningCount_counts_running _ _ mixed_registry_visits Hint)).
  vm_compute. reflexivity.
Defined.



Lemma autostart_loop_warns os ks (ps : gmap string Process.t) k p e :
  NoDup ks -> k ∈ ks -> ps !! k = Some p ->
  result (Process_Start (os k) p) = inl e ->
  EvPrint ("Failed to auto-start process " +:+ Process.Name p)
    ∈ (autostart_loop os ks ps).2.
Proof.
  revert ps. induction ks as [| j rest IH]; intros ps Hnd Hin Hk Hres.
  { by apply elem_of_nil in Hin. }
  apply NoDup_cons in Hnd as [Hj Hrest]. cbn [autostart_loop].
  destruct (decide (k = j)) as [<- | Hne].
  - rewrite Hk. destruct (autostart_loop os rest _) as [ps' evs]. cbn [snd].
    rewrite Hres. apply elem_of_app. right. left.
  - apply elem_of_cons in Hin as [? | Hin]; [done |].
    destruct (ps !! j) as [q |] eqn:Hq; [| by apply IH].
    specialize (IH (<[j := state (Process_Start (os j) q)]> ps) Hrest Hin).
    rewrite lookup_insert_ne in IH by done. specialize (IH Hk Hres).
    destruct (autostart_loop os rest _) as [ps' evs]. cbn [snd] in *.
    apply elem_of_app. right. apply elem_of_app. by right.
Qed.







(** ** Boot *)

Lemma FromConfig_logger_fails Join os cfg logDir e :
  new_logger os = Some e ->
  FromConfig Join os cfg logDir = inl (ErrCreateLogger e).
Proof. intros H. unfold FromConfig, New, NewProcessLogger. by rewrite H. Qed.

Lemma FromConfig_boot_id Join os cfg logDir :
  new_logger os = None ->
  exists p, FromConfig Join os cfg logDir = inr p /\
            Process.ID p = boot_id os cfg /\ fresh p.
Proof.
  intros Hlog.
  destruct (FromConfig_ok Join os cfg logDir Hlog) as (p & Hp & Hcfg & Hfresh & _).
  exists p. split; [done |]. split; [| done].
  rewrite <- ToConfig_ID, Hcfg. unfold boot_id.
  by destruct (decide (ConfigProcess.ID cfg <> "")).
Qed.

Lemma load_loop_spec Join news k logDir cfgs (ps0 : gmap string Process.t) :
  let res := load_loop Join news k logDir cfgs ps0 in
  (forall id p, res.1 !! id = Some p -> ps0 !! id = Some p \/ fresh p) /\
  (forall id, is_Some (ps0 !! id) -> is_Some (res.1 !! id)) /\
  (forall ev, ev ∈ res.2 -> exists s, ev = EvPrint s) /\
  (forall i cfg, cfgs !! i = Some cfg ->
     match new_logger (news (k + i)%nat) with
     | Some _ =>
         EvPrint ("Warning: failed to load process " +:+ ConfigProcess.Name cfg) ∈ res.2
     | None => is_Some (res.1 !! boot_id (news (k + i)%nat) cfg)
     end).
Proof.
  revert k ps0. induction cfgs as [| cfg rest IH]; intros k ps0 res; subst res.
  { cbn. repeat split; try done; [auto | by intros ev ?%elem_of_nil]. }
  cbn [load_loop].
  destruct (new_logger (news k)) as [e |] eqn:Hlog.
  - rewrite (FromConfig_logger_fails Join (news k) cfg logDir e Hlog).
    destruct (IH (S k) ps0) as (H1 & H2 & H3 & H4).
    destruct (load_loop Join news (S k) logDir rest ps0) as [ps' evs].
    cbn [fst snd] in *. split; [done |]. split; [done |]. split.
    + intros ev [-> | Hin]%elem_of_cons; eauto.
    + intros [| i] c Hc.
      * injection Hc as <-. rewrite Nat.add_0_r, Hlog. left.
      * specialize (H4 i c Hc). rewrite <- Nat.add_succ_comm.
        destruct (new_logger (news (S k + i)%nat)); [by right | done].
  - destruct (FromConfig_boot_id Join (news k) cfg logDir Hlog) as (p & -> & Hid & Hfresh).
    destruct (IH (S k) (<[Process.ID p := p]> ps0)) as (H1 & H2 & H3 & H4).
    destruct (load_loop Join news (S k) logDir rest _) as [ps' evs].
    cbn [fst snd] in *. split; [| split; [| split]].
    + intros id q Hq. destruct (H1 id q Hq) as [Hin | ?]; [| by right].
      apply lookup_insert_Some in Hin as [[<- <-] | [_ Hin]]; auto.
    + intros id Hsome. apply H2.
      destruct (decide (Process.ID p = id)) as [<- | Hne].
      * by rewrite lookup_insert_eq.
      * by rewrite lookup_insert_ne.
    + done.
    + intros [| i] c Hc.
      * injection Hc as <-. rewrite Nat.add_0_r, Hlog, <- Hid.
        apply H2. by rewrite lookup_insert_eq.
      * specialize (H4 i c Hc). by rewrite <- Nat.add_succ_comm.
Qed.

(** X19: what a boot does when things go wrong.  [NewManager] never writes
    processes.json, launches nothing and sends no signal (all it may do is
    print), and whatever it has registered is Stopped and has never run.
    A directory that cannot be created, a file that cannot be read and a
    file that is not a list of definitions each fail the boot with the
    wrapped error and an empty registry; a missing file is an empty
    registry.  A definition whose logger cannot be created never fails the
    boot: a warning naming it is printed and the definitions after it are
    loaded all the same, each under its own id or, when it has none, under
    the start of a fresh uuid.  A list with a null entry is decoded without
    error; the boot then panics on the nil pointer, after the definitions
    before it are loaded, and no manager is returned. *)
Theorem boot_tolerates_broken_definitions Join mkdir news dataDir logDir file :
  let r := NewManager Join mkdir news dataDir logDir file in
  let ps := Manager.processes (manager (m_world r)) in
  let loaded cfgs :=
    forall i cfg, cfgs !! i = Some cfg ->
      match new_logger (news i) with
      | Some _ =>
          EvPrint ("Warning: failed to load process " +:+ ConfigProcess.Name cfg)
            ∈ m_events r
      | None => is_Some (ps !! boot_id (news i) cfg)
      end in
  procfile (m_world r) = file /\
  (forall ev, ev ∈ m_events r -> exists s, ev = EvPrint s) /\
  (forall id p, ps !! id = Some p -> fresh p) /\
  match mkdir, file with
  | Some (dir, e), _ => m_result r = inl (ErrCreateDirectory dir e) /\ ps = ∅
  | None, NoFile => m_result r = inr tt /\ ps = ∅
  | None, ReadError msg => m_result r = inl (ErrLoadProcesses (OSError msg)) /\ ps = ∅
  | None, Malformed msg => m_result r = inl (ErrLoadProcesses (OSError msg)) /\ ps = ∅
  | None, Configs cfgs => m_result r = inr tt /\ loaded cfgs
  | None, ConfigsThenNull cfgs => m_result r = inl PanicNilDereference /\ loaded cfgs
  end.
Proof.
  intros r ps loaded. subst r ps loaded. unfold NewManager, loadProcesses.
  destruct mkdir as [[dir e] |].
  { cbn. repeat split; try done; by intros ev ?%elem_of_nil. }
  destruct file as [| e | e | cfgs | cfgs];
    try (cbn; repeat split; try done; by intros ev ?%elem_of_nil).
  - cbn [procfile manager Manager.logDir Manager.processes].
    destruct (load_loop_spec Join news 0 logDir cfgs ∅) as (H1 & _ & H3 & H4).
    destruct (load_loop Join news 0 logDir cfgs ∅) as [res evs].
    cbn [fst snd m_result m_world m_events manager procfile Manager.processes
         Manager.set_processes] in *.
    split; [done |]. split; [done |]. split.
    + intros id p Hp. by destruct (H1 id p Hp).
    + split; [done |]. intros i cfg Hi. exact (H4 i cfg Hi).
  - cbn [procfile manager Manager.logDir Manager.processes].
    destruct (load_loop_spec Join news 0 logDir cfgs ∅) as (H1 & _ & H3 & H4).
    destruct (load_loop Join news 0 logDir cfgs ∅) as [res evs].
    cbn [fst snd m_result m_world m_events manager procfile Manager.processes
         Manager.set_processes] in *.
    split; [done |]. split; [done |]. split.
    + intros id p Hp. by destruct (H1 id p Hp).
    + split; [done |]. intros i cfg Hi. exact (H4 i cfg Hi).
Qed.

(** ** Create after delete *)

Lemma Start_error_not_name_exists os p n :
  result (Process_Start os p) <> inl (ErrNameExists n).
Proof.
  unfold Process_Start. run_M.
  destruct (decide (ProcessInfo.Status (Process.info p) = StatusRunning));
    [by step_M |].
  destruct (decide (ProcessInfo.User (Process.info p) <> "")) as [Hu | Hu].
  - destruct (getUserCredentials _ _ _) as [e | cred]; [by step_M |].
    destruct (os_StdoutPipe os) as [e1 |]; [by step_M |].
    destruct (os_StderrPipe os) as [e2 |]; [by step_M |].
    destruct (os_cmdStart os) as [e3 | pid]; by step_M.
  - destruct (os_StdoutPipe os) as [e1 |]; [by step_M |].
    destruct (os_StderrPipe os) as [e2 |]; [by step_M |].
    destruct (os_cmdStart os) as [e3 | pid]; by step_M.
Qed.

(** X20: a name is free again once its process is deleted.  In a registry
    with unique names and no empty key, after [Delete] of a name that is not
    also an id (even a [Delete] whose write of processes.json failed), a
    create request for that name is never refused as a duplicate; it
    succeeds, and returns an info of that name, whenever the logger can be
    created and the environment lets [Start] through. *)
Theorem name_is_free_after_delete Join dos cos req w :
  let ps := Manager.processes (manager w) in
  let w' := m_world (Manager_Delete dos (StartRequest.Name req) w) in
  let r := Manager_Start Join cos req w' in
  visits ps (delete_range dos) ->
  visits (Manager.processes (manager w')) (create_range cos) ->
  unique_names ps ->
  ps !! "" = None ->
  ps !! StartRequest.Name req = None ->
  (forall n, m_result r <> inl (ErrNameExists n)) /\
  (forall proc,
     New Join (create_new cos) req (Manager.logDir (manager w)) = inr proc ->
     start_env_ok (create_start cos) proc ->
     exists info, m_result r = inr info /\
                  ProcessInfo.Name info = StartRequest.Name req).
Proof.
  intros ps w' r Hv Hv' Huniq Hempty Hid.
  assert (Hfree : forall k p, Manager.processes (manager w') !! k = Some p ->
                              Process.Name p <> StartRequest.Name req).
  { subst w'. unfold Manager_Delete.
    destruct (List.find _ _) as [[id q] |] eqn:Hf.
    2:{ apply (Delete_find_None _ _ _ Hv) in Hf as [_ Hf]. exact Hf. }
    pose proof Hf as Hf'. apply find_elem in Hf' as [Hin Hm]. cbn in Hm.
    apply (range_elem _ _ id q Hv) in Hin.
    assert (Hne : id <> "") by (intros ->; subst ps; congruence).
    fold (Manager_Delete dos (StartRequest.Name req) w) in *.
    assert (Hq : Process.Name q = StartRequest.Name req).
    { apply orb_true_iff in Hm as [Hm | Hm]; apply bool_decide_eq_true_1 in Hm;
        [subst ps; congruence | done]. }
    intros k p. 
    pose proof (Manager_Delete_found dos (StartRequest.Name req) w id q Hf Hne) as Heq.
    cbn zeta in Heq. unfold Manager_Delete in Heq. rewrite Hf in Heq. rewrite Heq.
    cbn [m_world manager Manager.processes Manager.set_processes].
    intros [Hk Hp]%lookup_delete_Some Hname.
    apply Hk. eapply Huniq; [exact Hin | exact Hp | congruence]. }
  assert (Hdirs : Manager.logDir (manager w') = Manager.logDir (manager w)).
  { subst w'. unfold Manager_Delete.
    destruct (List.find _ _) as [[id q] |]; [| done].
    destruct (decide (Process.Status q = StatusRunning)) as [Hrun | Hrun].
    - rewrite (Stop_running q Hrun). cbn [result state events m_world on_entry].
      destruct (decide (id = "")); [done |]. unfold saveProcesses.
      by destruct (delete_save_fail dos) as [[? ?] |].
    - cbn [ret result state events m_world on_entry].
      destruct (decide (id = "")); [done |]. unfold saveProcesses.
      by destruct (delete_save_fail dos) as [[? ?] |]. }
  clearbody w'. subst r. unfold Manager_Start.
  destruct (List.find _ _) as [[k p] |] eqn:Hfind.
  { apply find_elem in Hfind as [Hin Hm]. cbn in Hm.
    apply bool_decide_eq_true_1 in Hm.
    apply (range_elem _ _ k p Hv') in Hin. by destruct (Hfree k p Hin). }
  rewrite Hdirs.
  destruct (New Join (create_new cos) req (Manager.logDir (manager w)))
    as [e | proc] eqn:Hnew.
  { split; [| done]. intros n. cbn.
    revert Hnew. unfold New, NewProcessLogger.
    destruct (new_logger _); [| done]. by intros [= <-]. }
  assert (Hst : Process.Status proc <> StatusRunning).
  { revert Hnew. unfold New, NewProcessLogger.
    destruct (new_logger _); [done |]. by intros [= <-]. }
  pose proof (Start_error_not_name_exists (create_start cos) proc) as Herr.
  pose proof (Start_outcomes (create_start cos) proc Hst) as [Hok _].
  pose proof (Start_same_static (create_start cos) proc) as (_ & Hname & _).
  rewrite (New_name _ _ _ _ _ Hnew) in Hname.
  destruct (result (Process_Start (create_start cos) proc)) as [e | []] eqn:Hres.
  - split; [intros n; cbn; intros [= ->]; by apply (Herr n) |].
    intros proc' [= <-] Henv. by destruct (Hok Henv).
  - unfold saveProcesses.
    destruct (Info_identity (create_now cos) (create_probe cos)
                (state (Process_Start (create_start cos) proc))) as (_ & Hi2 & _).
    destruct (create_save_fail cos) as [[e left_on_disk] |]; cbn [m_result];
      (split; [done |]); intros proc' [= <-] Henv;
      eexists; (split; [reflexivity |]); rewrite Hi2; done.
Qed.

Lemma name_is_free_after_delete_witness :
  exists info,
    m_result (Manager_Start join_slash create_after_delete web_request
                (m_world (Manager_Delete delete_deadbeef_first "web" shadow_world)))
      = inr info /\
    ProcessInfo.Name info = "web".
Proof.
  destruct (New join_slash (create_new create_after_delete) web_request
              (Manager.logDir (manager shadow_world))) as [e | proc] eqn:Hnew;
    [vm_compute in Hnew; discriminate |].
  assert (Henv : start_env_ok (create_start create_after_delete) proc).
  { vm_compute in Hnew. injection Hnew as <-.
    unfold start_env_ok. split; [by left |]. repeat split; try reflexivity.
    by exists 4242. }
  assert (Hv' : visits
                  (Manager.processes
                     (manager (m_world (Manager_Delete delete_deadbeef_first "web"
                                          shadow_world))))
                  (create_range create_after_delete)).
  { unfold visits. vm_compute. reflexivity. }
  destruct (name_is_free_after_delete join_slash delete_deadbeef_first
              create_after_delete web_request shadow_world
              shadow_world_visits Hv' shadow_world_unique_names eq_refl eq_refl)
    as [_ H].
  destruct (H proc Hnew Henv) as (info & Hres & Hname).
  exists info. split; [exact Hres | exact Hname].
Defined.

(** ** Writing and reading the logs *)

Lemma append_cons c a b : String c a +:+ b = String c (a +:+ b).
Proof. reflexivity. Qed.

Lemma append_nil_l b : "" +:+ b = b.
Proof. reflexivity. Qed.

Lemma append_nil_r a : a +:+ "" = a.
Proof. induction a as [| c a IH]; [done |]. by rewrite append_cons, IH. Qed.














(** ** The collector's life cycle *)

(** X22: starting and stopping the collector.  [Start] launches the
    collecting loop only when the collector is not running, so a second
    [Start] launches no second loop; [Stop] on a collector that is not
    running does nothing; neither touches the history, the capacity or the
    interval.  The stop channel is made once, by [NewCollector], and [Stop]
    closes it: a collector started again after a [Stop] is stopped by
    closing the closed channel, which is a run-time panic. *)
Theorem collector_start_stop_cycle c :
  Collector.running c = false ->
  let started := Collector_Start c in
  let stopped := Collector_Stop started.1 ChanOpen in
  let restarted := Collector_Start stopped.1.1 in
  started.2 = [CevGoCollectLoop] /\
  Collector.running started.1 = true /\
  Collector_Start started.1 = (started.1, []) /\
  stopped = (c, ChanClosed, []) /\
  (forall ch, Collector_Stop c ch = (c, ch, [])) /\
  restarted = started /\
  Collector_Stop restarted.1 stopped.1.2 = (c, ChanClosed, [CevPanicCloseOfClosedChannel]).
Proof.
  destruct c as [h cap iv run]. cbn. intros ->. by cbn.
Qed.

Lemma collector_start_stop_cycle_witness :
  Collector_Stop (Collector_Start NewCollector).1 ChanOpen = (NewCollector, ChanClosed, []).
Proof.
  exact (proj1 (proj2 (proj2 (proj2 (collector_start_stop_cycle NewCollector eq_refl))))).
Defined.

(** ** The control plane *)

(** X23: only a 201 changes anything.  [POST /processes] answers 400 exactly
    when the body does not bind (with the error of the binding) or the name
    or the command is empty, and then the engine is not called at all.
    Otherwise it calls [Manager.Start] once and answers what that returns:
    201 with the info returned and the message "Process started" when it
    succeeds, 500 with its error when it fails (a duplicate name included).
    Every answer other than 201 leaves the registry and processes.json as
    they were. *)
Theorem startProcess_changes_only_on_201 Join body os w :
  let out := startProcess Join body os w in
  let resp := out.1.1 in
  (forall err, body = inl err ->
     out = (mkApiResponse 400 false "" None (Some (ApiErr err)), w, [])) /\
  (forall req, body = inr req ->
     StartRequest.Name req = "" \/ StartRequest.Command req = "" ->
     out = (mkApiResponse 400 false "" None
              (Some (ApiText "name and command are required")), w, [])) /\
  (forall req e, body = inr req ->
     StartRequest.Name req <> "" -> StartRequest.Command req <> "" ->
     m_result (Manager_Start Join os req w) = inl e ->
     out = (mkApiResponse 500 false "" None (Some (ApiErr e)), w,
            m_events (Manager_Start Join os req w))) /\
  (forall req info, body = inr req ->
     StartRequest.Name req <> "" -> StartRequest.Command req <> "" ->
     m_result (Manager_Start Join os req w) = inr info ->
     out = (mkApiResponse 201 true "Process started" (Some info) None,
            m_world (Manager_Start Join os req w),
            m_events (Manager_Start Join os req w))) /\
  (api_status resp = 400 <->
   match body with
   | inl _ => True
   | inr req => StartRequest.Name req = "" \/ StartRequest.Command req = ""
   end) /\
  (api_status resp = 400 -> out.2 = []) /\
  (api_status resp = 400 \/ api_status resp = 500 \/ api_status resp = 201) /\
  (api_status resp <> 201 ->
   out.1.2 = w /\ api_Success resp = false /\ api_Data resp = None /\
   is_Some (api_Error resp)) /\
  (api_status resp = 201 ->
   exists req info,
     body = inr req /\ m_result (Manager_Start Join os req w) = inr info /\
     resp = mkApiResponse 201 true "Process started" (Some info) None /\
     out.1.2 = m_world (Manager_Start Join os req w)) /\
  (forall req k p,
     body = inr req -> StartRequest.Name req <> "" -> StartRequest.Command req <> "" ->
     visits (Manager.processes (manager w)) (create_range os) ->
     Manager.processes (manager w) !! k = Some p ->
     Process.Name p = StartRequest.Name req ->
     out = (mkApiResponse 500 false "" None
              (Some (ApiErr (ErrNameExists (StartRequest.Name req)))), w, [])).
Proof.
  intros out resp. subst out resp. unfold startProcess.
  destruct body as [err | req].
  { cbn. repeat split; try done; auto; try (intros; discriminate); try by eexists.
    by intros err' [= <-]. }
  destruct (decide (StartRequest.Name req = "" \/ StartRequest.Command req = ""))
    as [Hbad | Hgood].
  { cbn. repeat split; try done; auto; try (intros; discriminate); try by eexists.
    - intros req' e [= <-] Hn Hc. destruct Hbad; done.
    - intros req' info [= <-] Hn Hc. destruct Hbad; done.
    - intros req' k p [= <-] Hn Hc. destruct Hbad; done. }
  pose proof (Manager_Start_error_unchanged Join os req w) as Herr.
  destruct (m_result (Manager_Start Join os req w)) as [e | info] eqn:Hres.
  - cbn. repeat split; try done; auto; try (intros; discriminate); try by eexists.
    + intros req' [= <-] Hb. by destruct Hgood.
    + intros req' e' [= <-] Hn Hc. rewrite Hres. intros [= <-].
      by rewrite (Herr e eq_refl).
    + intros req' info [= <-] Hn Hc. rewrite Hres. discriminate.
    + by apply (Herr e).
    + intros req' k p [= <-] Hn Hc Hv Hk Hname.
      rewrite (Manager_Start_name_conflict Join os req w k p Hv Hk Hname) in Hres |- *.
      cbn in Hres |- *. by injection Hres as <-.
  - cbn. repeat split; try done; auto; try (intros; discriminate); try by eexists.
    + intros req' [= <-] Hb. by destruct Hgood.
    + intros req' e' [= <-] Hn Hc. rewrite Hres. discriminate.
    + intros req' info' [= <-] Hn Hc. rewrite Hres. by intros [= <-].
    + intros _. exists req, info. by rewrite Hres.
    + intros req' k p [= <-] Hn Hc Hv Hk Hname.
      rewrite (Manager_Start_name_conflict Join os req w k p Hv Hk Hname) in Hres.
      discriminate.
Qed.

(** X24: what the routes answer to a reference that is no entry's id and
    no entry's name.  The three reading routes (info, stats, stats history)
    answer 404; stop, restart, delete and logs answer 500 with the not-found
    error of the engine; and none of them changes the registry or
    processes.json or sends a signal. *)
Theorem unknown_reference_status_codes
    Join Sscanf_d order dos sleep sos now probe fs w c :
  let ps := Manager.processes (manager w) in
  let ref := Param c "id" in
  let not_found := mkApiResponse (D := unit) 500 false "" None
                     (Some (ApiErr (ErrNotFound ref))) in
  visits ps order ->
  visits ps (delete_range dos) ->
  ps !! ref = None ->
  (forall k p, ps !! k = Some p -> Process.Name p <> ref) ->
  getProcess order now probe (manager w) c
    = mkApiResponse 404 false "" None (Some (ApiText "process not found")) /\
  getProcessStats order now probe (manager w) c
    = mkApiResponse 404 false "" None (Some (ApiText "process not found or not running")) /\
  getProcessStatsHistory Sscanf_d order (manager w) c
    = mkApiResponse 404 false "" None (Some (ApiText "process not found")) /\
  getProcessLogs Join Sscanf_d fs order (manager w) c
    = mkResponse 500 false [] (Some (ErrNotFound ref)) /\
  stopProcess order w c = (not_found, w, []) /\
  restartProcess order sleep sos w c = (not_found, w, []) /\
  deleteProcess dos w c = (not_found, w, []).
Proof.
  intros ps ref not_found Hv Hvd Hid Hnames. subst ps ref not_found.
  assert (Hnone : findProcess order (manager w) (Param c "id") = None)
    by (by apply findProcess_None).
  assert (Hdel : Manager_Delete dos (Param c "id") w
                 = mkMRes (inl (ErrNotFound (Param c "id"))) w []).
  { unfold Manager_Delete.
    by rewrite (proj2 (Delete_find_None _ _ (Param c "id") Hvd) (conj Hid Hnames)). }
  unfold getProcess, getProcessStats, getProcessStatsHistory, getProcessLogs,
    stopProcess, restartProcess, deleteProcess,
    Manager_Get, Manager_Stats, Manager_GetStatsHistory, Manager_GetLogs,
    Manager_Stop, Manager_Restart.
  rewrite Hdel, Hnone. done.
Qed.

Lemma unknown_reference_status_codes_witness :
  stopProcess ["deadbeef"; "1a2b3c4d"] shadow_world (mkRequest (fun _ => "api") (fun _ => ""))
  = (mkApiResponse 500 false "" None (Some (ApiErr (ErrNotFound "api"))), shadow_world, []).
Proof.
  assert (Hnames : forall k p,
            Manager.processes (manager shadow_world) !! k = Some p ->
            Process.Name p <> "api").
  { intros k p Hk. cbn in Hk.
    apply lookup_insert_Some in Hk as [[<- <-] | [_ Hk]]; [discriminate |].
    apply lookup_singleton_Some in Hk as [<- <-]. discriminate. }
  destruct (unknown_reference_status_codes join_slash scan_one
              ["deadbeef"; "1a2b3c4d"] delete_deadbeef_first (fun _ p => p) os_all_ok
              1700000100 no_probe web_logs shadow_world
              (mkRequest (fun _ => "api") (fun _ => ""))
              shadow_world_visits shadow_world_visits eq_refl Hnames)
    as (_ & _ & _ & _ & H & _).
  exact H.
Defined.

(** X25: the history routes default to the newest hundred.  When the
    [limit] query is absent, or is present but not read as a number, both
    history routes answer with the newest 100 entries of the ring (all of
    them when the ring holds fewer); a [limit] that is read replaces the
    hundred, and a zero or negative one asks for the whole ring. *)
Theorem history_routes_default_to_100 Sscanf_d order m col c k p :
  findProcess order m (Param c "id") = Some (k, p) ->
  let limit := if decide (Query c "limit" <> "")
               then default 100 (Sscanf_d (Query c "limit")) else 100 in
  (exists h,
     getProcessStatsHistory Sscanf_d order m c = mkApiResponse 200 true "" (Some h) None /\
     h `suffix_of` Process.statsHistory p /\
     len h = if decide (0 < limit) then Z.min limit (len (Process.statsHistory p))
             else len (Process.statsHistory p)) /\
  (exists s,
     getSystemStatsHistory Sscanf_d col c = mkApiResponse 200 true "" (Some s) None /\
     s `suffix_of` Collector.systemStats col /\
     len s = if decide (0 < limit) then Z.min limit (len (Collector.systemStats col))
             else len (Collector.systemStats col)) /\
  (Query c "limit" = "" \/ Sscanf_d (Query c "limit") = None -> limit = 100).
Proof.
  intros Hfind limit.
  unfold getProcessStatsHistory, getSystemStatsHistory, Manager_GetStatsHistory.
  rewrite Hfind. cbn [fmap option_fmap option_map compose snd]. fold limit.
  pose proof (len_nonneg (Process.statsHistory p)) as Hh.
  pose proof (len_nonneg (Collector.systemStats col)) as Hs.
  split; [| split].
  - eexists. split; [reflexivity |]. unfold Process_GetStatsHistory. split.
    + case_decide; [done | apply suffix_drop].
    + destruct (decide (limit <= 0 \/ limit > len (Process.statsHistory p)));
        case_decide; rewrite ?len_drop by lia; lia.
  - eexists. split; [reflexivity |]. unfold Collector_GetSystemStatsHistory. split.
    + case_decide; [done | apply suffix_drop].
    + destruct (decide (limit <= 0 \/ limit > len (Collector.systemStats col)));
        case_decide; rewrite ?len_drop by lia; lia.
  - subst limit. intros [-> | ->]; [done |]. by destruct (decide _).
Qed.

Lemma history_routes_default_to_100_witness :
  exists h,
    getProcessStatsHistory scan_one ["deadbeef"; "1a2b3c4d"] (manager shadow_world)
      junk_request = mkApiResponse 200 true "" (Some h) None.
Proof.
  destruct (history_routes_default_to_100 scan_one ["deadbeef"; "1a2b3c4d"]
              (manager shadow_world) NewCollector junk_request
              "1a2b3c4d" (sample_process StatusStopped) eq_refl)
    as [(h & Hh & _) _].
  exists h. exact Hh.
Defined.

(** ** Sampling *)

Lemma Stats_Some now probe p s :
  Process_Stats now probe p = Some s ->
  0 < ProcessInfo.PID (Process.info p) /\
  Process.Status p = StatusRunning /\
  ProcessStats.ID s = Process.ID p /\
  ProcessStats.PID s = ProcessInfo.PID (Process.info p) /\
  ProcessStats.Timestamp s = now.
Proof.
  unfold Process_Stats, Process.Status, Process.ID.
  destruct (decide _) as [Hno | Hyes]; [done |].
  assert (Hpid : ~ ProcessInfo.PID (Process.info p) <= 0) by tauto.
  assert (Hst : ProcessInfo.Status (Process.info p) = StatusRunning)
    by (apply dec_stable; tauto).
  destruct (probe_NewProcess _); intros [= <-]; cbn; repeat split; (done || lia).
Qed.

Lemma Stats_is_Some now probe p :
  0 < ProcessInfo.PID (Process.info p) -> Process.Status p = StatusRunning ->
  is_Some (Process_Stats now probe p).
Proof.
  intros Hpid Hst. unfold Process_Stats, Process.Status in *.
  rewrite decide_False by (intros [? | ?]; [lia | done]).
  by destruct (probe_NewProcess _).
Qed.

Lemma CollectStats_keeps_rest now probe :
  keeps (fun p => (Process.cancel p, Process.logger p, Process.maxHistory p))
        (Process_CollectStats now probe).
Proof. unfold Process_CollectStats. keeps_tac. Qed.

(** X26: the ring is a sliding window over the samples of its own process.
    [CollectStats] takes a sample only of a process that is Running and has
    a pid, and otherwise changes nothing.  The sample carries the id and pid
    of the process and the time it was taken, and goes to the end of the
    ring; below capacity the ring grows by it, at capacity the oldest sample
    is dropped to make room.  Nothing but the ring is changed, and every
    sample of the ring remains one of this process, taken with a pid. *)
Theorem CollectStats_slides_the_ring now probe p :
  ring_ok p ->
  samples_ok p ->
  let p' := state (Process_CollectStats now probe p) in
  let h := Process.statsHistory p in
  ring_ok p' /\ samples_ok p' /\
  Process.info p' = Process.info p /\
  (Process.cmd p' = Process.cmd p /\ Process.cancel p' = Process.cancel p /\
   Process.logger p' = Process.logger p /\
   Process.maxHistory p' = Process.maxHistory p) /\
  (Process.Status p <> StatusRunning \/ ProcessInfo.PID (Process.info p) <= 0 ->
   p' = p) /\
  (Process.Status p = StatusRunning -> 0 < ProcessInfo.PID (Process.info p) ->
   exists s,
     Process_Stats now probe p = Some s /\
     ProcessStats.ID s = Process.ID p /\
     ProcessStats.PID s = ProcessInfo.PID (Process.info p) /\
     ProcessStats.Timestamp s = now /\
     (len h < 1000 -> Process.statsHistory p' = h ++ [s]) /\
     (len h = 1000 -> Process.statsHistory p' = drop 1 h ++ [s])).
Proof.
  intros Hring Hsamples p' h. pose proof Hring as [Hcap Hlen].
  assert (Hinfo : Process.info p' = Process.info p)
    by exact (f_equal fst (CollectStats_keeps_info_cmd now probe p)).
  assert (Hcmd : Process.cmd p' = Process.cmd p /\ Process.cancel p' = Process.cancel p /\
                 Process.logger p' = Process.logger p /\
                 Process.maxHistory p' = Process.maxHistory p).
  { pose proof (CollectStats_keeps_rest now probe p) as Hrest. cbv beta in Hrest.
    split; [exact (f_equal snd (CollectStats_keeps_info_cmd now probe p)) |].
    split; [exact (f_equal (fun x => x.1.1) Hrest) |].
    split; [exact (f_equal (fun x => x.1.2) Hrest) |].
    exact (f_equal snd Hrest). }
  assert (Hring' : ring_ok p') by apply (CollectStats_ring_ok now probe p Hring).
  assert (Hcase : match Process_Stats now probe p with
                  | Some s => Process.statsHistory p' = keep_last 1000 (h ++ [s])
                  | None => p' = p
                  end).
  { subst p'. destruct (Process_Stats now probe p) as [s |] eqn:Hs.
    - rewrite (CollectStats_sample now probe p s) by (done || lia).
      cbn. by rewrite Hcap.
    - by rewrite CollectStats_idle. }
  clearbody p'. split; [done |].
  destruct (Process_Stats now probe p) as [s |] eqn:Hs.
  - destruct (Stats_Some now probe p s Hs) as (Hpid & Hrun & Hsid & Hspid & Hts).
    rename Hcase into Hp'.
    split.
    { unfold samples_ok. rewrite Hp'.
      assert (Hid' : Process.ID p' = Process.ID p)
        by (unfold Process.ID; by rewrite Hinfo).
      rewrite Hid'.
      eapply Forall_forall. intros x Hx.
      assert (Hin : x ∈ h ++ [s]).
      { destruct (keep_last_suffix_of 1000 (h ++ [s])) as [pre Hpre].
        rewrite Hpre. apply elem_of_app. by right. }
      apply elem_of_app in Hin as [Hin | Hin].
      - unfold samples_ok in Hsamples.
        by apply (proj1 (Forall_forall _ _) Hsamples x).
      - apply list_elem_of_singleton in Hin as ->. split; [done | lia]. }
    split; [done |]. split; [done |]. split.
    { intros [Hst | Hle]; [done | lia]. }
    intros _ _. exists s. repeat split; try done.
    + intros Hlt. rewrite Hp'. apply keep_last_short.
      rewrite len_app. unfold len at 2. cbn. lia.
    + intros Heq. rewrite Hp'. unfold keep_last. rewrite len_app.
      unfold len at 2. cbn [length]. rewrite Heq.
      replace (Z.to_nat (1000 + Z.of_nat 1 - 1000)) with 1%nat by lia.
      rewrite drop_app_le; [done |]. unfold len in Heq. lia.
  - rewrite Hcase. split; [done |]. split; [done |]. split; [done |].
    split; [done |]. intros Hrun Hpid.
    destruct (Stats_is_Some now probe p Hpid Hrun) as [s Hs']. congruence.
Qed.

Lemma CollectStats_slides_the_ring_witness :
  exists s,
    Process.statsHistory
      (state (Process_CollectStats 1700000110 no_probe running_process))
      = Process.statsHistory running_process ++ [s] /\
    ProcessStats.Timestamp s = 1700000110 /\
    ProcessStats.PID s = 4242.
Proof.
  assert (Hring : ring_ok running_process) by (split; vm_compute; congruence).
  assert (Hsamples : samples_ok running_process) by (vm_compute; constructor).
  destruct (CollectStats_slides_the_ring 1700000110 no_probe running_process
              Hring Hsamples) as (_ & _ & _ & _ & _ & H).
  destruct (H eq_refl eq_refl) as (s & _ & _ & Hpid & Hts & Hgrow & _).
  exists s. split; [apply Hgrow; reflexivity |]. split; [exact Hts | exact Hpid].
Defined.

Lemma CollectStats_not_running now probe p :
  Process.Status p <> StatusRunning ->
  Process_CollectStats now probe p = mkRes (inr tt) p [].
Proof.
  intros Hst. apply CollectStats_idle.
  destruct (Process_Stats now probe p) as [s |] eqn:Hs; [| done].
  by destruct (Stats_Some now probe p s Hs) as (_ & ? & _).
Qed.

Lemma CollectAllStats_loop_lookup now probe order (ps : gmap string Process.t) :
  NoDup order ->
  map_Forall (fun _ p => ring_ok p) ps ->
  exists ps',
    CollectAllStats_loop now probe order ps = inr ps' /\
    forall k, ps' !! k
      = if decide (k ∈ order)
        then (fun p => state (Process_CollectStats (now k) probe p)) <$> ps !! k
        else ps !! k.
Proof.
  revert ps. induction order as [| j rest IH]; intros ps Hnd Hrings.
  { exists ps. split; [done |]. intros k.
    by rewrite decide_False by apply not_elem_of_nil. }
  apply NoDup_cons in Hnd as [Hj Hrest]. cbn [CollectAllStats_loop].
  assert (Hshift : forall (ps1 : gmap string Process.t) k,
            (forall q, ps !! j = Some q ->
               ps1 = <[j := state (Process_CollectStats (now j) probe q)]> ps) ->
            (ps !! j = None -> ps1 = ps) ->
            (if decide (k ∈ rest)
             then (fun p => state (Process_CollectStats (now k) probe p)) <$> ps1 !! k
             else ps1 !! k)
            = if decide (k ∈ j :: rest)
              then (fun p => state (Process_CollectStats (now k) probe p)) <$> ps !! k
              else ps !! k).
  { intros ps1 k Hsome Hnone. destruct (decide (k = j)) as [-> | Hne].
    - rewrite decide_False by done. rewrite (decide_True (P := j ∈ j :: rest)) by left.
      destruct (ps !! j) as [q |] eqn:Hq.
      + rewrite (Hsome q eq_refl). by rewrite lookup_insert_eq.
      + rewrite (Hnone eq_refl). by rewrite Hq.
    - assert (Hk : ps1 !! k = ps !! k).
      { destruct (ps !! j) as [q |] eqn:Hq.
        - rewrite (Hsome q eq_refl). by rewrite lookup_insert_ne.
        - by rewrite (Hnone eq_refl). }
      rewrite Hk. destruct (decide (k ∈ rest)) as [Hin | Hin].
      + by rewrite decide_True by (by right).
      + rewrite decide_False; [done |]. intros [? | ?]%elem_of_cons; done. }
  destruct (ps !! j) as [p |] eqn:Hp.
  - destruct (decide (Process.Status p = StatusRunning)) as [Hrun | Hrun].
    + destruct (CollectStats_ring_ok (now j) probe p (Hrings j p Hp)) as [Hres Hring].
      rewrite Hres.
      destruct (IH (<[j := state (Process_CollectStats (now j) probe p)]> ps) Hrest)
        as (ps' & -> & Hps').
      { by apply map_Forall_insert_2. }
      exists ps'. split; [done |]. intros k. rewrite Hps'.
      apply Hshift; [by intros q [= <-] | done].
    + destruct (IH ps Hrest Hrings) as (ps' & -> & Hps').
      exists ps'. split; [done |]. intros k. rewrite Hps'.
      destruct (decide (k = j)) as [-> | Hne].
      * rewrite decide_False by done.
        rewrite (decide_True (P := j ∈ j :: rest)) by left.
        rewrite Hp. cbn. by rewrite (CollectStats_not_running _ _ _ Hrun).
      * destruct (decide (k ∈ rest)) as [Hin | Hin].
        -- by rewrite decide_True by (by right).
        -- rewrite decide_False; [done |]. intros [? | ?]%elem_of_cons; done.
  - destruct (IH ps Hrest Hrings) as (ps' & -> & Hps').
    exists ps'. split; [done |]. intros k. rewrite Hps'.
    apply Hshift; [done | done].
Qed.

(** X27: one tick samples every running entry once.  On a registry whose
    rings are within capacity, [CollectAllStats] cannot fail; it runs
    [CollectStats] exactly once on each entry, whatever the order in which
    the runtime visits the map, which leaves every entry that is not Running
    or has no pid exactly as it was; and it adds and removes no entry. *)
Theorem CollectAllStats_samples_each_once now probe order m :
  let ps := Manager.processes m in
  visits ps order ->
  rings_ok m ->
  exists m',
    Manager_CollectAllStats now probe order m = inr m' /\
    (forall k, Manager.processes m' !! k
       = (fun p => state (Process_CollectStats (now k) probe p)) <$> ps !! k) /\
    (forall k p, ps !! k = Some p ->
       Process.Status p <> StatusRunning \/ ProcessInfo.PID (Process.info p) <= 0 ->
       Manager.processes m' !! k = Some p) /\
    Manager.dataDir m' = Manager.dataDir m /\ Manager.logDir m' = Manager.logDir m.
Proof.
  intros ps Hv Hrings. subst ps.
  assert (Hnd : NoDup order) by (rewrite Hv; apply NoDup_fst_map_to_list).
  destruct (CollectAllStats_loop_lookup now probe order (Manager.processes m) Hnd Hrings)
    as (ps' & Hloop & Hps').
  unfold Manager_CollectAllStats. rewrite Hloop. eexists. split; [reflexivity |].
  assert (Hlookup : forall k,
            ps' !! k = (fun p => state (Process_CollectStats (now k) probe p))
                         <$> Manager.processes m !! k).
  { intros k. rewrite Hps'. destruct (decide (k ∈ order)) as [Hin | Hin]; [done |].
    destruct (Manager.processes m !! k) as [p |] eqn:Hk; [| done].
    destruct Hin. rewrite Hv. apply list_elem_of_fmap. exists (k, p).
    split; [done | by apply elem_of_map_to_list]. }
  cbn [Manager.processes Manager.set_processes Manager.dataDir Manager.logDir].
  split; [exact Hlookup |]. split; [| done].
  intros k p Hk Hidle. rewrite Hlookup, Hk. cbn. f_equal.
  rewrite CollectStats_idle; [done |].
  destruct (Process_Stats (now k) probe p) as [s |] eqn:Hs; [| done].
  destruct (Stats_Some _ _ _ _ Hs) as (Hpid & Hrun & _).
  destruct Hidle; [done | lia].
Qed.

Lemma CollectAllStats_samples_each_once_witness :
  exists m',
    Manager_CollectAllStats (fun _ => 1700000110) no_probe ["deadbeef"; "1a2b3c4d"]
      mixed_registry = inr m' /\
    Manager.processes m' !! "deadbeef" = Some shadow_process.
Proof.
  assert (Hrings : rings_ok mixed_registry).
  { unfold rings_ok. intros k p Hk. cbn in Hk.
    apply lookup_insert_Some in Hk as [[<- <-] | [_ Hk]];
      [split; vm_compute; congruence |].
    apply lookup_singleton_Some in Hk as [<- <-]. split; vm_compute; congruence. }
  destruct (CollectAllStats_samples_each_once (fun _ => 1700000110) no_probe
              ["deadbeef"; "1a2b3c4d"] mixed_registry mixed_registry_visits Hrings)
    as (m' & Hres & _ & Hidle & _).
  exists m'. split; [exact Hres |].
  apply Hidle; [reflexivity | left; vm_compute; congruence].
Defined.

(** ** Listing *)

Lemma omap_length_le {A B : Type} (f : A -> option B) (l : list A) :
  (length (omap f l) <= length l)%nat.
Proof.
  induction l as [| x l IH]; cbn; [done |].
  destruct (f x); cbn; lia.
Qed.

(** X28: the listings cover the registry.  [List] gives one info per entry,
    so as many as [Count] says, and with keys that are ids their ids are the
    keys of the map, each once; [AllStats] gives a sample for exactly the
    entries that are Running with a pid, so never more than [Count], and
    each sample carries the id and pid of its entry. *)
Theorem listings_cover_registry order now probe m :
  let ps := Manager.processes m in
  visits ps order ->
  keys_ok ps ->
  len (Manager_List order now probe m) = Manager_Count m /\
  ProcessInfo.ID <$> Manager_List order now probe m ≡ₚ (map_to_list ps).*1 /\
  len (Manager_AllStats order now probe m) <= Manager_Count m /\
  (forall s, s ∈ Manager_AllStats order now probe m ->
     exists p, ps !! ProcessStats.ID s = Some p /\
               Process.Status p = StatusRunning /\
               ProcessStats.PID s = ProcessInfo.PID (Process.info p) /\
               0 < ProcessStats.PID s) /\
  (forall k p, ps !! k = Some p -> Process.Status p = StatusRunning ->
     0 < ProcessInfo.PID (Process.info p) ->
     exists s, s ∈ Manager_AllStats order now probe m /\ ProcessStats.ID s = k).
Proof.
  intros ps Hv Hkeys. subst ps.
  pose proof (range_perm _ _ Hv) as Hperm.
  unfold Manager_List, Manager_AllStats, Manager_Count, len.
  split; [| split; [| split; [| split]]].
  - by rewrite length_fmap, Hperm, length_map_to_list.
  - rewrite <- list_fmap_compose.
    rewrite <- (range_keys _ _ Hv).
    match goal with |- ?a ≡ₚ ?b => assert (Heq : a = b); [| by rewrite Heq] end.
    apply list_fmap_ext. intros i [k p] Hi. cbn.
    destruct (Info_identity (now k) probe p) as (-> & _).
    apply Hkeys. apply (range_lookup _ order). by eapply list_elem_of_lookup_2.
  - rewrite <- length_map_to_list, <- Hperm.
    apply Nat2Z.inj_le, omap_length_le.
  - intros s ([k p] & Hin & Hs)%list_elem_of_omap. cbn in Hs.
    apply range_lookup in Hin.
    destruct (Stats_Some _ _ _ _ Hs) as (Hpid & Hrun & Hsid & Hspid & _).
    exists p. rewrite Hsid, (Hkeys k p Hin), Hspid. done.
  - intros k p Hk Hrun Hpid.
    destruct (Stats_is_Some (now k) probe p Hpid Hrun) as [s Hs].
    exists s. split.
    + apply list_elem_of_omap. exists (k, p). split; [by apply range_elem | done].
    + destruct (Stats_Some _ _ _ _ Hs) as (_ & _ & -> & _). by apply Hkeys.
Qed.

Lemma listings_cover_registry_witness :
  len (Manager_List ["deadbeef"; "1a2b3c4d"] (fun _ => 1700000110) no_probe
         mixed_registry) = 2 /\
  exists s,
    s ∈ Manager_AllStats ["deadbeef"; "1a2b3c4d"] (fun _ => 1700000110) no_probe
          mixed_registry /\
    ProcessStats.ID s = "1a2b3c4d".
Proof.
  assert (Hkeys : keys_ok (Manager.processes mixed_registry)).
  { intros k p Hk. cbn in Hk.
    apply lookup_insert_Some in Hk as [[<- <-] | [_ Hk]]; [reflexivity |].
    by apply lookup_singleton_Some in Hk as [<- <-]. }
  destruct (listings_cover_registry ["deadbeef"; "1a2b3c4d"] (fun _ => 1700000110)
              no_probe mixed_registry mixed_registry_visits Hkeys)
    as (Hlen & _ & _ & _ & Hall).
  split; [exact Hlen |].
  exact (Hall "1a2b3c4d" running_process eq_refl eq_refl eq_refl).
Defined.
